(** * Button design system: a shallow embedding of [script.js]

    The development models the behaviour layer of the button design system
    (class [ButtonSystem] and the utility functions above it) as pure
    functions over an explicit [world]: the DOM store, the three side tables
    ([buttonTimeouts], [buttonOriginalContent], [dropdownItemCache]), the
    pending timers, the promises handed out by [setLoading] and the log of
    dispatched custom events.

    Conventions of the model.
    - A DOM node is identified by its index in the store [dom]; the store
      lists the nodes in document order and every node carries a link to its
      parent, so [closest], [contains], [querySelector] and [isConnected] are
      computed from the tree.
    - Strings are sequences of 8-bit code units; code units above 255 are
      outside the model.
    - Clock readings and timer delays are integers (milliseconds).  The
      clamp of a parsed duration does not depend on the rounding of very
      large decimal literals, because the upper bound 30000 is exact.  The
      duration handed to [setLoading] is any number of the script: a
      finite value, an infinity or NaN.
    - Timer identifiers are [positive]: the browser hands out identifiers
      greater than zero, so the truthiness test on a stored identifier is
      the test that the side table has an entry.
    - Custom events are recorded in [dispatched]; listeners of the host
      application are not part of the model.
    - The markup of a widget is an opaque string: restoring [innerHTML]
      does not create or remove nodes of the store.
    - [focus()] moves the focus only to a node that can take it: an
      attached node of a focusable kind that is neither a disabled form
      control nor hidden.  Style sheets are outside the model: a node is
      taken to be rendered unless it or one of its ancestors is hidden.
    - The callback that [_openDropdown] hands to [requestAnimationFrame]
      (positioning and initial focus) is recorded in [frames] and not
      run. *)

From stdpp Require Import base option list gmap strings.
From Stdlib Require Import Ascii ZArith Lia.
From Stdlib Require QArith Qround.

Local Open Scope Z_scope.

(** ** Constants *)

Module DEFAULTS.
Definition loadingDuration : Z := 2000.
Definition disableDuration : Z := 3000.
Definition focusDelay : Z := 50.
Definition announceDelay : Z := 150.
Definition minDuration : Z := 100.
Definition maxDuration : Z := 30000.
Definition cacheMaxAge : Z := 5000.
End DEFAULTS.

Module ARIA.
Definition pressed : string := "aria-pressed".
Definition expanded : string := "aria-expanded".
Definition disabled : string := "aria-disabled".
Definition busy : string := "aria-busy".
Definition controls : string := "aria-controls".
End ARIA.

Module KEYS.
Definition ENTER : string := "Enter".
Definition SPACE : string := " ".
Definition ESCAPE : string := "Escape".
Definition ARROW_DOWN : string := "ArrowDown".
Definition ARROW_UP : string := "ArrowUp".
Definition HOME : string := "Home".
Definition END_ : string := "End".
Definition TAB : string := "Tab".
End KEYS.

Module DATA_ATTRS.
Definition toggle : string := "data-toggle".
Definition toggleGroup : string := "data-toggle-group".
Definition loadingText : string := "data-loading-text".
Definition loadingDuration : string := "data-loading-duration".
Definition autoDisable : string := "data-auto-disable".
Definition disableDuration : string := "data-disable-duration".
Definition value : string := "data-value".
Definition position : string := "data-position".
End DATA_ATTRS.

(** ** Utility functions *)

(** [Math.min(Math.max(value, min), max)] on integers. *)
Definition clamp (value min max : Z) : Z := Z.min (Z.max value min) max.

(** A number of the script: a finite value, an infinity or NaN.  The sign
    of zero is not kept. *)
Inductive number :=
  | Finite (q : QArith_base.Q)
  | PosInfinity
  | NegInfinity
  | NaN.

(** An integer as a number. *)
Definition number_of_Z (z : Z) : number := Finite (QArith_base.inject_Z z).
Coercion number_of_Z : Z >-> number.

(** [Math.max(a, b)] and [Math.min(a, b)]: NaN when an argument is NaN. *)
Definition Math_max (a b : number) : number :=
  match a, b with
  | NaN, _ | _, NaN => NaN
  | PosInfinity, _ | _, PosInfinity => PosInfinity
  | NegInfinity, x | x, NegInfinity => x
  | Finite p, Finite q => if QArith_base.Qle_bool p q then Finite q else Finite p
  end.

Definition Math_min (a b : number) : number :=
  match a, b with
  | NaN, _ | _, NaN => NaN
  | NegInfinity, _ | _, NegInfinity => NegInfinity
  | PosInfinity, x | x, PosInfinity => x
  | Finite p, Finite q => if QArith_base.Qle_bool p q then Finite p else Finite q
  end.

(** [clamp(value, min, max)] on any number: NaN passes through. *)
Definition clamp_number (value : number) (min max : Z) : number :=
  Math_min (Math_max value min) max.

(** The delay [setTimeout] works with when it is handed the number [x]:
    the number as a 32-bit integer (zero for NaN and the infinities, the
    fraction cut off), and zero when that is negative. *)
Definition timeout_delay (x : number) : Z :=
  match x with
  | Finite q =>
      let n := if QArith_base.Qle_bool (QArith_base.inject_Z 0) q
               then Qround.Qfloor q else Qround.Qceiling q in
      Z.max 0 ((n + 2 ^ 31) mod 2 ^ 32 - 2 ^ 31)
  | _ => 0
  end.

Definition code (c : ascii) : nat := nat_of_ascii c.

(** White space skipped by [parseInt] (tab, line feed, vertical tab, form
    feed, carriage return, space, no-break space). *)
Definition isStrWhiteSpaceChar (c : ascii) : bool :=
  match code c with
  | 9%nat | 10%nat | 11%nat | 12%nat | 13%nat | 32%nat | 160%nat => true
  | _ => false
  end.

Definition isDigit (c : ascii) : bool :=
  (48 <=? code c)%nat && (code c <=? 57)%nat.

Definition digitValue (c : ascii) : Z := Z.of_nat (code c) - 48.

Fixpoint trimStart (s : string) : string :=
  match s with
  | String c r => if isStrWhiteSpaceChar c then trimStart r else s
  | EmptyString => EmptyString
  end.

(** The longest prefix of decimal digits, read most significant digit
    first; [acc] is [None] until a digit has been read. *)
Fixpoint readDigits (acc : option Z) (s : string) : option Z :=
  match s with
  | String c r =>
      if isDigit c then readDigits (Some (default 0 acc * 10 + digitValue c)) r
      else acc
  | EmptyString => acc
  end.

(** [parseInt(value, 10)]; [None] is NaN.  The result -0 of a literal such
    as "-0" is the integer 0: it is not below zero and clamps like 0. *)
Definition parseInt (s : string) : option Z :=
  let s1 := trimStart s in
  let '(sign, s2) :=
    match s1 with
    | String "-"%char r => (-1, r)
    | String "+"%char r => (1, r)
    | _ => (1, s1)
    end in
  match readDigits None s2 with
  | Some n => Some (sign * n)
  | None => None
  end.

(** [parseDuration(value, defaultValue)]; [None] is a missing attribute
    ([getAttribute] returned null). *)
Definition parseDuration (value : option string) (defaultValue : Z) : Z :=
  match value with
  | None | Some EmptyString => defaultValue
  | Some v =>
      match parseInt v with
      | None => defaultValue
      | Some parsed =>
          if parsed <? 0 then defaultValue
          else clamp parsed DEFAULTS.minDuration DEFAULTS.maxDuration
      end
  end.

(** One character of the class [[a-zA-Z0-9_-]]. *)
Definition isGroupNameChar (c : ascii) : bool :=
  let n := code c in
  ((97 <=? n) && (n <=? 122) || (65 <=? n) && (n <=? 90)
   || (48 <=? n) && (n <=? 57) || (n =? 95) || (n =? 45))%nat.

Fixpoint allChars (p : ascii -> bool) (s : string) : bool :=
  match s with
  | String c r => p c && allChars p r
  | EmptyString => true
  end.

(** [VALID_GROUP_NAME.test(name)] for the pattern [^[a-zA-Z0-9_-]+$]. *)
Definition isValidGroupName (name : string) : bool :=
  match name with
  | EmptyString => false
  | _ => allChars isGroupNameChar name
  end.

(** ** The DOM store *)

(** Where a node hangs: directly under the document, nowhere (the root of a
    detached subtree), or under another node of the store. *)
Inductive parent_ref :=
  | ParentDocument
  | ParentNone
  | ParentElement (p : nat).

Record element := Element {
  tagName : string;                   (* lower-case local name *)
  parentNode : parent_ref;
  attributes : gmap string string;
  classList : list string;
  disabled : bool;
  innerHTML : string;                 (* markup, kept as an opaque string *)
  textContent : string;
  hidden : bool
}.

Definition with_attributes (f : gmap string string -> gmap string string)
    (e : element) : element :=
  Element (tagName e) (parentNode e) (f (attributes e)) (classList e)
          (disabled e) (innerHTML e) (textContent e) (hidden e).

Definition with_classList (f : list string -> list string) (e : element) : element :=
  Element (tagName e) (parentNode e) (attributes e) (f (classList e))
          (disabled e) (innerHTML e) (textContent e) (hidden e).

Definition set_disabled (b : bool) (e : element) : element :=
  Element (tagName e) (parentNode e) (attributes e) (classList e)
          b (innerHTML e) (textContent e) (hidden e).

Definition set_innerHTML (h : string) (e : element) : element :=
  Element (tagName e) (parentNode e) (attributes e) (classList e)
          (disabled e) h (textContent e) (hidden e).

Definition set_textContent (t : string) (e : element) : element :=
  Element (tagName e) (parentNode e) (attributes e) (classList e)
          (disabled e) (innerHTML e) t (hidden e).

Definition set_hidden (b : bool) (e : element) : element :=
  Element (tagName e) (parentNode e) (attributes e) (classList e)
          (disabled e) (innerHTML e) (textContent e) b.

Definition getAttribute (name : string) (e : element) : option string :=
  attributes e !! name.

Definition hasAttribute (name : string) (e : element) : bool :=
  bool_decide (is_Some (attributes e !! name)).

Definition setAttribute (name value : string) : element -> element :=
  with_attributes (insert name value).

Definition removeAttribute (name : string) : element -> element :=
  with_attributes (delete name).

Definition classList_contains (c : string) (e : element) : bool :=
  bool_decide (c ∈ classList e).

Definition classList_add (c : string) (e : element) : element :=
  if classList_contains c e then e else with_classList (fun l => (l ++ [c])%list) e.

Definition classList_remove (c : string) : element -> element :=
  with_classList (filter (fun x => x ≠ c)).

(** [classList.toggle(c, force)]. *)
Definition classList_toggle (c : string) (force : bool) : element -> element :=
  if force then classList_add c else classList_remove c.

(** [getAttribute(name) === value]. *)
Definition attr_is (name value : string) (e : element) : bool :=
  bool_decide (getAttribute name e = Some value).

(** The selectors the code uses: [SELECTORS.button], a class selector and
    an attribute-equality selector.  The value of the attribute selector is
    passed through [CSS.escape] and quoted in the source, so it matches the
    attribute value literally. *)
Inductive selector :=
  | SelButton
  | SelClass (c : string)
  | SelAttrEq (name value : string).

Module SELECTORS.
Definition button : selector := SelButton.
Definition dropdown : selector := SelClass "btn-dropdown".
Definition dropdownTrigger : selector := SelClass "btn-dropdown__trigger".
Definition dropdownMenu : selector := SelClass "btn-dropdown__menu".
Definition dropdownItem : selector := SelClass "btn-dropdown__item".
End SELECTORS.

Definition matches (sel : selector) (e : element) : bool :=
  match sel with
  | SelButton => bool_decide (tagName e = "button") || attr_is "role" "button" e
  | SelClass c => classList_contains c e
  | SelAttrEq name value => attr_is name value e
  end.

(** [node.isConnected]: the chain of parents ends at the document. *)
Fixpoint isConnected_from (fuel : nat) (d : list element) (i : nat) : bool :=
  match fuel with
  | O => false
  | S f =>
      match d !! i with
      | None => false
      | Some e =>
          match parentNode e with
          | ParentDocument => true
          | ParentNone => false
          | ParentElement p => isConnected_from f d p
          end
      end
  end.

Definition isConnected (d : list element) (i : nat) : bool :=
  isConnected_from (length d) d i.

(** The form controls among the widgets: the elements whose [disabled]
    property is the disabled state of the control.  On any other element
    the property is a plain script property without effect in the browser. *)
Definition is_form_control (e : element) : bool :=
  bool_decide (tagName e ∈ ["button"; "input"; "select"; "textarea"]).

Definition actually_disabled (e : element) : bool :=
  is_form_control e && disabled e.

(** The elements the browser lets take the focus by their kind: form
    controls, links, and elements with an integer [tabindex]. *)
Definition focusable_kind (e : element) : bool :=
  is_form_control e
  || bool_decide (tagName e = "a") && hasAttribute "href" e
  || match getAttribute "tabindex" e with
     | Some v => bool_decide (is_Some (parseInt v))
     | None => false
     end.

(** Neither the node nor one of its ancestors is hidden. *)
Fixpoint rendered_from (fuel : nat) (d : list element) (i : nat) : bool :=
  match fuel with
  | O => false
  | S f =>
      match d !! i with
      | None => false
      | Some e =>
          negb (hidden e)
          && match parentNode e with
             | ParentElement p => rendered_from f d p
             | _ => true
             end
      end
  end.

Definition rendered (d : list element) (i : nat) : bool :=
  rendered_from (length d) d i.

(** Whether [focus()] on the node takes effect: the node is attached, not
    a disabled form control, of a focusable kind and not hidden. *)
Definition can_focus (d : list element) (i : nat) : bool :=
  match d !! i with
  | Some e =>
      isConnected d i && negb (actually_disabled e) && focusable_kind e
      && rendered d i
  | None => false
  end.

(** [node.closest(sel)]: the nearest inclusive ancestor matching [sel]. *)
Fixpoint closest_from (fuel : nat) (d : list element) (sel : selector) (i : nat)
    : option nat :=
  match fuel with
  | O => None
  | S f =>
      match d !! i with
      | None => None
      | Some e =>
          if matches sel e then Some i
          else match parentNode e with
               | ParentElement p => closest_from f d sel p
               | _ => None
               end
      end
  end.

Definition closest (d : list element) (sel : selector) (i : nat) : option nat :=
  closest_from (length d) d sel i.

(** [a.contains(b)]: [b] is [a] or a descendant of [a]. *)
Fixpoint contains_from (fuel : nat) (d : list element) (a b : nat) : bool :=
  match fuel with
  | O => false
  | S f =>
      if (a =? b)%nat then bool_decide (is_Some (d !! b))
      else match d !! b with
           | Some e =>
               match parentNode e with
               | ParentElement p => contains_from f d a p
               | _ => false
               end
           | None => false
           end
  end.

Definition contains (d : list element) (a b : nat) : bool :=
  contains_from (length d) d a b.

Definition matches_at (d : list element) (sel : selector) (i : nat) : bool :=
  match d !! i with
  | Some e => matches sel e
  | None => false
  end.

(** [document.querySelectorAll(sel)]: the connected matches, in document
    order. *)
Definition document_querySelectorAll (d : list element) (sel : selector) : list nat :=
  filter (fun i => isConnected d i && matches_at d sel i = true) (seq 0 (length d)).

(** [root.querySelectorAll(sel)]: the proper descendants of [root] matching
    [sel], in document order. *)
Definition querySelectorAll (d : list element) (root : nat) (sel : selector) : list nat :=
  filter (fun i => negb (i =? root)%nat && contains d root i && matches_at d sel i = true)
         (seq 0 (length d)).

(** [root.querySelector(sel)]. *)
Definition querySelector (d : list element) (root : nat) (sel : selector) : option nat :=
  head (querySelectorAll d root sel).

(** [document.getElementById(id)]. *)
Definition getElementById (d : list element) (id : string) : option nat :=
  head (document_querySelectorAll d (SelAttrEq "id" id)).

(** ** The world: side tables, timers, promises and the controller *)

(** [LoadingState]: the snapshot taken when loading starts. *)
Record LoadingState := mkLoadingState {
  ls_innerHTML : string;
  ls_disabled : bool
}.

(** [DropdownCache]. *)
Record DropdownCache := mkDropdownCache {
  dc_items : list nat;
  dc_timestamp : Z
}.

(** The [detail] payloads of the custom events. *)
Inductive detail :=
  | DetailToggle (pressed : bool)
  | DetailEmpty
  | DetailSelect (value : string) (item : nat)
  | DetailExpand (expanded : bool).

Record custom_event := mkEvent {
  ev_target : nat;
  ev_name : string;
  ev_detail : detail
}.

(** The closures handed to [setTimeout], one constructor per arrow
    function of the source, with the variables it captures. *)
Inductive callback :=
  | LoadingTimeout (button : nat)                      (* in _handleLoading *)
  | SetLoadingTimeout (button : nat) (promise : nat)   (* in setLoading *)
  | AutoDisableTimeout (button : nat)                  (* in _handleAutoDisable *)
  | AnnounceTimeout (message : string).                (* in _announce *)

Record timer := mkTimer {
  timer_id : positive;
  timer_due : Z;
  timer_callback : callback
}.

(** The closure handed to [requestAnimationFrame] by [_openDropdown]; it
    positions the menu and moves the focus, and touches neither the
    expanded attributes nor the set of open dropdowns. *)
Record frame_request := mkFrame {
  frame_dropdown : nat;
  frame_menu : nat
}.

Inductive promise_state :=
  | Pending
  | Fulfilled
  | Rejected (error : string).

Record world := World {
  dom : list element;  (* the DOM store, in document order *)
  activeElement : option nat;  (* document.activeElement *)
  buttonTimeouts : gmap nat positive;  (* WeakMap: button -> timeout id *)
  buttonOriginalContent : gmap nat LoadingState;  (* WeakMap: button -> snapshot *)
  dropdownItemCache : gmap nat DropdownCache;  (* WeakMap: menu -> cached items *)
  i18n_loading : string;  (* this._config.i18n.loading *)
  i18n_complete : string;  (* this._config.i18n.complete *)
  liveRegion : option nat;  (* this._liveRegion *)
  openDropdowns : list nat;  (* this._openDropdowns, in insertion order *)
  now : Z;  (* the clock: Date.now() and the timer clock *)
  nextTimerId : positive;  (* the identifier setTimeout returns next *)
  timers : list timer;  (* pending timeouts, in creation order *)
  frames : list frame_request;  (* pending requestAnimationFrame callbacks *)
  promises : list promise_state;  (* promises created by setLoading *)
  dispatched : list custom_event;  (* custom events dispatched so far *)
  defaultPrevented : bool;  (* flag of the event being handled *)
  propagationStopped : bool  (* flag of the event being handled *)
}.

Definition with_dom (f : list element -> list element) (w : world) : world :=
  World (f (dom w)) (activeElement w) (buttonTimeouts w)
    (buttonOriginalContent w) (dropdownItemCache w) (i18n_loading w)
    (i18n_complete w) (liveRegion w) (openDropdowns w) (now w) (nextTimerId w)
    (timers w) (frames w) (promises w) (dispatched w) (defaultPrevented w)
    (propagationStopped w).

Definition with_activeElement (f : option nat -> option nat) (w : world) : world :=
  World (dom w) (f (activeElement w)) (buttonTimeouts w)
    (buttonOriginalContent w) (dropdownItemCache w) (i18n_loading w)
    (i18n_complete w) (liveRegion w) (openDropdowns w) (now w) (nextTimerId w)
    (timers w) (frames w) (promises w) (dispatched w) (defaultPrevented w)
    (propagationStopped w).

Definition with_buttonTimeouts (f : gmap nat positive -> gmap nat positive) (w : world) : world :=
  World (dom w) (activeElement w) (f (buttonTimeouts w))
    (buttonOriginalContent w) (dropdownItemCache w) (i18n_loading w)
    (i18n_complete w) (liveRegion w) (openDropdowns w) (now w) (nextTimerId w)
    (timers w) (frames w) (promises w) (dispatched w) (defaultPrevented w)
    (propagationStopped w).

Definition with_buttonOriginalContent (f : gmap nat LoadingState -> gmap nat LoadingState) (w : world) : world :=
  World (dom w) (activeElement w) (buttonTimeouts w) (f
    (buttonOriginalContent w)) (dropdownItemCache w) (i18n_loading w) (i18n_complete w)
    (liveRegion w) (openDropdowns w) (now w) (nextTimerId w) (timers w) (frames w)
    (promises w) (dispatched w) (defaultPrevented w) (propagationStopped w).

Definition with_dropdownItemCache (f : gmap nat DropdownCache -> gmap nat DropdownCache) (w : world) : world :=
  World (dom w) (activeElement w) (buttonTimeouts w) (buttonOriginalContent w)
    (f (dropdownItemCache w)) (i18n_loading w) (i18n_complete w)
    (liveRegion w) (openDropdowns w) (now w) (nextTimerId w) (timers w) (frames w)
    (promises w) (dispatched w) (defaultPrevented w) (propagationStopped w).

Definition with_openDropdowns (f : list nat -> list nat) (w : world) : world :=
  World (dom w) (activeElement w) (buttonTimeouts w) (buttonOriginalContent w)
    (dropdownItemCache w) (i18n_loading w) (i18n_complete w) (liveRegion w)
    (f (openDropdowns w)) (now w) (nextTimerId w) (timers w) (frames w)
    (promises w) (dispatched w) (defaultPrevented w) (propagationStopped w).

Definition with_now (f : Z -> Z) (w : world) : world :=
  World (dom w) (activeElement w) (buttonTimeouts w) (buttonOriginalContent w)
    (dropdownItemCache w) (i18n_loading w) (i18n_complete w) (liveRegion w)
    (openDropdowns w) (f (now w)) (nextTimerId w) (timers w) (frames w)
    (promises w) (dispatched w) (defaultPrevented w) (propagationStopped w).

Definition with_nextTimerId (f : positive -> positive) (w : world) : world :=
  World (dom w) (activeElement w) (buttonTimeouts w) (buttonOriginalContent w)
    (dropdownItemCache w) (i18n_loading w) (i18n_complete w) (liveRegion w)
    (openDropdowns w) (now w) (f (nextTimerId w)) (timers w) (frames w)
    (promises w) (dispatched w) (defaultPrevented w) (propagationStopped w).

Definition with_timers (f : list timer -> list timer) (w : world) : world :=
  World (dom w) (activeElement w) (buttonTimeouts w) (buttonOriginalContent w)
    (dropdownItemCache w) (i18n_loading w) (i18n_complete w) (liveRegion w)
    (openDropdowns w) (now w) (nextTimerId w) (f (timers w)) (frames w)
    (promises w) (dispatched w) (defaultPrevented w) (propagationStopped w).

Definition with_frames (f : list frame_request -> list frame_request) (w : world) : world :=
  World (dom w) (activeElement w) (buttonTimeouts w) (buttonOriginalContent w)
    (dropdownItemCache w) (i18n_loading w) (i18n_complete w) (liveRegion w)
    (openDropdowns w) (now w) (nextTimerId w) (timers w) (f (frames w))
    (promises w) (dispatched w) (defaultPrevented w) (propagationStopped w).

Definition with_promises (f : list promise_state -> list promise_state) (w : world) : world :=
  World (dom w) (activeElement w) (buttonTimeouts w) (buttonOriginalContent w)
    (dropdownItemCache w) (i18n_loading w) (i18n_complete w) (liveRegion w)
    (openDropdowns w) (now w) (nextTimerId w) (timers w) (frames w)
    (f (promises w)) (dispatched w) (defaultPrevented w) (propagationStopped w).

Definition with_dispatched (f : list custom_event -> list custom_event) (w : world) : world :=
  World (dom w) (activeElement w) (buttonTimeouts w) (buttonOriginalContent w)
    (dropdownItemCache w) (i18n_loading w) (i18n_complete w) (liveRegion w)
    (openDropdowns w) (now w) (nextTimerId w) (timers w) (frames w)
    (promises w) (f (dispatched w)) (defaultPrevented w) (propagationStopped w).

Definition with_defaultPrevented (f : bool -> bool) (w : world) : world :=
  World (dom w) (activeElement w) (buttonTimeouts w) (buttonOriginalContent w)
    (dropdownItemCache w) (i18n_loading w) (i18n_complete w) (liveRegion w)
    (openDropdowns w) (now w) (nextTimerId w) (timers w) (frames w)
    (promises w) (dispatched w) (f (defaultPrevented w)) (propagationStopped w).

Definition with_propagationStopped (f : bool -> bool) (w : world) : world :=
  World (dom w) (activeElement w) (buttonTimeouts w) (buttonOriginalContent w)
    (dropdownItemCache w) (i18n_loading w) (i18n_complete w) (liveRegion w)
    (openDropdowns w) (now w) (nextTimerId w) (timers w) (frames w)
    (promises w) (dispatched w) (defaultPrevented w) (f (propagationStopped w)).


(** ** Primitives of the host environment *)

(** Apply [f] to the node [i] of the store (nothing happens when the
    store has no such node). *)
Definition update_element (i : nat) (f : element -> element) : world -> world :=
  with_dom (alter f i).

(** [isElementConnected(element)]. *)
Definition isElementConnected (w : world) (i : nat) : bool :=
  isConnected (dom w) i.

(** [setTimeout(cb, delay)]: the new timer gets the identifier
    [nextTimerId w]. *)
Definition setTimeout (cb : callback) (delay : Z) (w : world) : world :=
  with_nextTimerId Pos.succ
    (with_timers (fun ts => ts ++ [mkTimer (nextTimerId w) (now w + delay) cb]) w).

(** [clearTimeout(id)]. *)
Definition clearTimeout (id : positive) : world -> world :=
  with_timers (filter (fun t => timer_id t ≠ id)).

(** [element.focus()]: the focus moves when the node can take it, and
    nothing happens otherwise. *)
Definition focus (i : nat) (w : world) : world :=
  if can_focus (dom w) i then with_activeElement (fun _ => Some i) w else w.

Definition preventDefault : world -> world :=
  with_defaultPrevented (fun _ => true).

Definition stopPropagation : world -> world :=
  with_propagationStopped (fun _ => true).

(** [String(b)]. *)
Definition String_of_bool (b : bool) : string :=
  if b then "true" else "false".

(** ** ButtonSystem: utility methods *)

(** [_dispatchEvent(element, eventName, detail)]. *)
Definition _dispatchEvent (element : nat) (eventName : string) (d : detail)
    : world -> world :=
  with_dispatched (fun l => l ++ [mkEvent element eventName d]).

(** [_announce(message)]. *)
Definition _announce (message : string) (w : world) : world :=
  match liveRegion w with
  | None => w
  | Some r =>
      let w := update_element r (set_textContent "") w in
      setTimeout (AnnounceTimeout message) DEFAULTS.announceDelay w
  end.

(** ** Toggle buttons *)

Definition is_pressed (w : world) (button : nat) : bool :=
  match dom w !! button with
  | Some e => attr_is ARIA.pressed "true" e
  | None => false
  end.

(** [_handleToggle(button)]. *)
Definition _handleToggle (button : nat) (w : world) : world :=
  match dom w !! button with
  | None => w
  | Some e =>
      let toggled :=
        match getAttribute DATA_ATTRS.toggleGroup e with
        | Some (String c r as toggleGroup) =>
            if negb (isValidGroupName toggleGroup) then None
            else
              let groupButtons :=
                document_querySelectorAll (dom w)
                  (SelAttrEq DATA_ATTRS.toggleGroup toggleGroup) in
              let w :=
                foldl (fun w btn =>
                         if (btn =? button)%nat then w
                         else update_element btn
                                (fun b => classList_remove "btn--selected"
                                            (setAttribute ARIA.pressed "false" b)) w)
                      w groupButtons in
              Some (update_element button
                      (fun b => classList_add "btn--selected"
                                  (setAttribute ARIA.pressed "true" b)) w)
        | _ =>
            let isPressed := attr_is ARIA.pressed "true" e in
            let newState := negb isPressed in
            Some (update_element button
                    (fun b => classList_toggle "btn--selected" newState
                                (setAttribute ARIA.pressed (String_of_bool newState) b)) w)
        end in
      match toggled with
      | None => w
      | Some w =>
          _dispatchEvent button "toggle" (DetailToggle (is_pressed w button)) w
      end
  end.

(** [setPressed(button, pressed)]; [None] is a falsy handle. *)
Definition setPressed (button : option nat) (pressed : bool) (w : world) : world :=
  match button with
  | None => w
  | Some button =>
      let newState := pressed in
      let w := update_element button
                 (fun b => classList_toggle "btn--selected" newState
                             (setAttribute ARIA.pressed (String_of_bool newState) b)) w in
      _dispatchEvent button "toggle" (DetailToggle newState) w
  end.

(** [setGroupValue(groupName, activeButton)]. *)
Definition setGroupValue (groupName : string) (activeButton : option nat)
    (w : world) : world :=
  if negb (isValidGroupName groupName) then w
  else
    let groupButtons :=
      document_querySelectorAll (dom w)
        (SelAttrEq DATA_ATTRS.toggleGroup groupName) in
    let w :=
      foldl (fun w btn =>
               let isActive := bool_decide (Some btn = activeButton) in
               update_element btn
                 (fun b => classList_toggle "btn--selected" isActive
                             (setAttribute ARIA.pressed (String_of_bool isActive) b)) w)
            w groupButtons in
    match activeButton with
    | Some a => _dispatchEvent a "toggle" (DetailToggle true) w
    | None => w
    end.

(** ** Loading state *)

(** [_resetLoadingState(button)]. *)
Definition _resetLoadingState (button : nat) (w : world) : world :=
  let original := buttonOriginalContent w !! button in
  let w := update_element button
             (fun b => setAttribute ARIA.busy "false"
                         (classList_remove "btn--loading" b)) w in
  let w :=
    match original with
    | Some o =>
        let w := update_element button
                   (fun b => set_innerHTML (ls_innerHTML o)
                               (set_disabled (ls_disabled o) b)) w in
        with_buttonOriginalContent (delete button) w
    | None => update_element button (set_disabled false) w
    end in
  let w := with_buttonTimeouts (delete button) w in
  let w := _announce (i18n_complete w) w in
  _dispatchEvent button "loadingComplete" DetailEmpty w.

(** The snapshot both loading entry points store. *)
Definition snapshot (e : element) : LoadingState :=
  mkLoadingState (innerHTML e) (disabled e).

(** [clearTimeout] of the identifier stored for [button], if any. *)
Definition clearExisting (button : nat) (w : world) : world :=
  match buttonTimeouts w !! button with
  | Some existingTimeout => clearTimeout existingTimeout w
  | None => w
  end.

(** The loading marks both entry points apply. *)
Definition applyLoadingState (button : nat) : world -> world :=
  update_element button
    (fun b => set_disabled true
                (setAttribute ARIA.busy "true" (classList_add "btn--loading" b))).

(** [_handleLoading(button, event)]. *)
Definition _handleLoading (button : nat) (w : world) : world :=
  match dom w !! button with
  | None => w
  | Some e =>
      if classList_contains "btn--loading" e then preventDefault w
      else
        let loadingDuration :=
          parseDuration (getAttribute DATA_ATTRS.loadingDuration e)
                        DEFAULTS.loadingDuration in
        let w := with_buttonOriginalContent (insert button (snapshot e)) w in
        let w := applyLoadingState button w in
        let w := _announce (i18n_loading w) w in
        let w := clearExisting button w in
        let timeoutId := nextTimerId w in
        let w := setTimeout (LoadingTimeout button) loadingDuration w in
        with_buttonTimeouts (insert button timeoutId) w
  end.

(** ** Auto-disable *)

(** [_handleAutoDisable(button)]. *)
Definition _handleAutoDisable (button : nat) (w : world) : world :=
  match dom w !! button with
  | None => w
  | Some e =>
      let disableDuration :=
        parseDuration (getAttribute DATA_ATTRS.disableDuration e)
                      DEFAULTS.disableDuration in
      let w := clearExisting button w in
      let w := update_element button
                 (fun b => setAttribute ARIA.disabled "true" (set_disabled true b)) w in
      let timeoutId := nextTimerId w in
      let w := setTimeout (AutoDisableTimeout button) disableDuration w in
      with_buttonTimeouts (insert button timeoutId) w
  end.

(** ** Public loading operations *)

(** What [setLoading] and [cancelLoading] can be handed: a falsy value, a
    truthy value that is no [HTMLElement], or a node of the store. *)
Inductive handle :=
  | HNull
  | HNonElement
  | HElement (i : nat).

(** Settle a promise; a settled promise stays as it is. *)
Definition settle (p : nat) (st : promise_state) : world -> world :=
  with_promises (alter (fun old => match old with Pending => st | _ => old end) p).

(** [setLoading(button, duration)]: the world after the call and the
    promise it returns (its index in [promises]). *)
Definition setLoading (button : handle) (duration : number) (w : world)
    : world * nat :=
  let p := length (promises w) in
  let w := with_promises (fun l => l ++ [Pending]) w in
  match button with
  | HElement b =>
      match dom w !! b with
      | None => (settle p (Rejected "TypeError") w, p)
      | Some e =>
          let validDuration :=
            clamp_number duration DEFAULTS.minDuration DEFAULTS.maxDuration in
          let w := with_buttonOriginalContent (insert b (snapshot e)) w in
          let w := clearExisting b w in
          let w := applyLoadingState b w in
          let w := _announce (i18n_loading w) w in
          let timeoutId := nextTimerId w in
          let w := setTimeout (SetLoadingTimeout b p)
                     (timeout_delay validDuration) w in
          (with_buttonTimeouts (insert b timeoutId) w, p)
      end
  | _ => (settle p (Rejected "TypeError") w, p)
  end.

(** The cleanup of the side tables for a button that left the tree. *)
Definition discardBookkeeping (button : nat) (w : world) : world :=
  with_buttonTimeouts (delete button)
    (with_buttonOriginalContent (delete button) w).

(** [cancelLoading(button)]; [None] is a falsy handle. *)
Definition cancelLoading (button : option nat) (w : world) : world :=
  match button with
  | None => w
  | Some button =>
      let w := clearExisting button w in
      if isElementConnected w button then _resetLoadingState button w
      else discardBookkeeping button w
  end.

(** ** Timers *)

(** The body of each timeout callback. *)
Definition run_callback (cb : callback) (w : world) : world :=
  match cb with
  | LoadingTimeout button =>
      if isElementConnected w button then _resetLoadingState button w
      else discardBookkeeping button w
  | SetLoadingTimeout button p =>
      let w :=
        if isElementConnected w button then _resetLoadingState button w
        else discardBookkeeping button w in
      settle p Fulfilled w
  | AutoDisableTimeout button =>
      let w :=
        if isElementConnected w button
        then update_element button
               (fun b => removeAttribute ARIA.disabled (set_disabled false b)) w
        else w in
      with_buttonTimeouts (delete button) w
  | AnnounceTimeout message =>
      match liveRegion w with
      | Some r =>
          if isElementConnected w r
          then update_element r (set_textContent message) w
          else w
      | None => w
      end
  end.

(** A pending timer expires: it leaves the pending list, the clock shows
    its due time (or later), and its callback runs. *)
Definition fire (t : timer) (w : world) : world :=
  let w := with_timers (filter (fun t' => timer_id t' ≠ timer_id t)) w in
  let w := with_now (Z.max (timer_due t)) w in
  run_callback (timer_callback t) w.

(** The pending timer that expires first among those due by [target]:
    the least due time, and among equal due times the oldest timer. *)
Fixpoint next_due (target : Z) (ts : list timer) : option timer :=
  match ts with
  | [] => None
  | t :: ts =>
      match next_due target ts with
      | Some t' =>
          if (timer_due t <=? target) && (timer_due t <=? timer_due t')
          then Some t else Some t'
      | None => if timer_due t <=? target then Some t else None
      end
  end.

(** Let every timer due by [target] expire, in order; timers created on
    the way take part. *)
Fixpoint run_timers (fuel : nat) (target : Z) (w : world) : world :=
  match fuel with
  | O => w
  | S fuel =>
      match next_due target (timers w) with
      | Some t => run_timers fuel target (fire t w)
      | None => w
      end
  end.

(** How many expiries a pending timer can cause: its own and, for the
    callbacks that announce, the one of the announcement. *)
Definition weight (t : timer) : nat :=
  match timer_callback t with
  | LoadingTimeout _ | SetLoadingTimeout _ _ => 2
  | AutoDisableTimeout _ | AnnounceTimeout _ => 1
  end.

Definition total_weight (ts : list timer) : nat :=
  foldr (fun t n => (weight t + n)%nat) 0%nat ts.

(** [dt] milliseconds pass. *)
Definition advance (dt : Z) (w : world) : world :=
  let target := now w + dt in
  with_now (Z.max target) (run_timers (total_weight (timers w)) target w).

(** ** Dropdowns *)

(** [Set.prototype.add] on the insertion-ordered set of open dropdowns. *)
Definition set_add (x : nat) (s : list nat) : list nat :=
  if bool_decide (x ∈ s) then s else s ++ [x].

(** [Set.prototype.delete]. *)
Definition set_delete (x : nat) (s : list nat) : list nat :=
  filter (fun y => y ≠ x) s.

Definition is_expanded (w : world) (i : nat) : bool :=
  match dom w !! i with
  | Some e => attr_is ARIA.expanded "true" e
  | None => false
  end.

(** [_openDropdown(trigger, dropdown, menu)]. *)
Definition _openDropdown (trigger dropdown menu : nat) (w : world) : world :=
  let w := update_element trigger (setAttribute ARIA.expanded "true") w in
  let w := update_element dropdown (setAttribute ARIA.expanded "true") w in
  let w := with_openDropdowns (set_add dropdown) w in
  with_frames (fun l => l ++ [mkFrame dropdown menu]) w.

(** [_getDropdownItems(menu)]: the items and the world with the refreshed
    cache. *)
Definition _getDropdownItems (menu : nat) (w : world) : list nat * world :=
  let cached := dropdownItemCache w !! menu in
  let fresh :=
    match cached with
    | Some c => now w - dc_timestamp c <? DEFAULTS.cacheMaxAge
    | None => false
    end in
  match cached, fresh with
  | Some c, true => (dc_items c, w)
  | _, _ =>
      let items := querySelectorAll (dom w) menu SELECTORS.dropdownItem in
      (items, with_dropdownItemCache (insert menu (mkDropdownCache items (now w))) w)
  end.

(** [_closeDropdown(dropdown, trigger)]; [trigger] is optional. *)
Definition _closeDropdown (dropdown : nat) (trigger : option nat) (w : world) : world :=
  let trigger :=
    match trigger with
    | Some t => Some t
    | None => querySelector (dom w) dropdown SELECTORS.dropdownTrigger
    end in
  let w :=
    match trigger with
    | Some t => update_element t (setAttribute ARIA.expanded "false") w
    | None => w
    end in
  let w := update_element dropdown (setAttribute ARIA.expanded "false") w in
  let w := with_openDropdowns (set_delete dropdown) w in
  match querySelector (dom w) dropdown SELECTORS.dropdownMenu with
  | Some menu => update_element menu (removeAttribute DATA_ATTRS.position) w
  | None => w
  end.

(** [_closeAllDropdowns()].  Each visit deletes at most the entry being
    visited, so [forEach] visits the entries the set holds at the start. *)
Definition _closeAllDropdowns (w : world) : world :=
  let w :=
    foldl (fun w dropdown =>
             if isElementConnected w dropdown then _closeDropdown dropdown None w
             else w)
          w (openDropdowns w) in
  with_openDropdowns (fun _ => []) w.

Fixpoint trimEnd (s : string) : string :=
  match s with
  | String c r =>
      match trimEnd r with
      | EmptyString => if isStrWhiteSpaceChar c then EmptyString else String c EmptyString
      | r' => String c r'
      end
  | EmptyString => EmptyString
  end.

(** [String.prototype.trim]. *)
Definition trim (s : string) : string := trimEnd (trimStart s).

(** [_handleDropdownItemClick(item, dropdown, trigger)]. *)
Definition _handleDropdownItemClick (item dropdown trigger : nat) (w : world) : world :=
  let value :=
    match dom w !! item with
    | Some e =>
        match getAttribute DATA_ATTRS.value e with
        | Some (String _ _ as v) => v
        | _ => trim (textContent e)
        end
    | None => ""
    end in
  let w := _dispatchEvent dropdown "select" (DetailSelect value item) w in
  let w := _closeDropdown dropdown (Some trigger) w in
  if isElementConnected w trigger then focus trigger w else w.

(** [_handleDropdown(target, dropdown, event)]. *)
Definition _handleDropdown (target dropdown : nat) (w : world) : world :=
  match querySelector (dom w) dropdown SELECTORS.dropdownTrigger,
        querySelector (dom w) dropdown SELECTORS.dropdownMenu with
  | Some trigger, Some menu =>
      if matches_at (dom w) (SelClass "btn-dropdown__item") target
      then _handleDropdownItemClick target dropdown trigger w
      else if (target =? trigger)%nat || contains (dom w) trigger target then
        let w := stopPropagation w in
        let isExpanded := is_expanded w trigger in
        let w := _closeAllDropdowns w in
        if negb isExpanded then _openDropdown trigger dropdown menu w else w
      else w
  | _, _ => w
  end.

(** [items.indexOf(x)], -1 when absent. *)
Fixpoint indexOf (x : option nat) (items : list nat) : Z :=
  match items with
  | [] => -1
  | y :: items =>
      if bool_decide (x = Some y) then 0
      else let k := indexOf x items in if k <? 0 then -1 else k + 1
  end.

(** [items[k]?.focus()]. *)
Definition focus_item (items : list nat) (k : Z) (w : world) : world :=
  if k <? 0 then w
  else match items !! Z.to_nat k with
       | Some i => focus i w
       | None => w
       end.

(** [_handleDropdownKeyboard(event, dropdown)], with the event given by
    its target and its key. *)
Definition _handleDropdownKeyboard (target : nat) (key : string) (dropdown : nat)
    (w : world) : world :=
  match querySelector (dom w) dropdown SELECTORS.dropdownTrigger,
        querySelector (dom w) dropdown SELECTORS.dropdownMenu with
  | Some trigger, Some menu =>
      let '(items, w) := _getDropdownItems menu w in
      let isExpanded := is_expanded w trigger in
      let currentIndex := indexOf (activeElement w) items in
      let len := Z.of_nat (length items) in
      if bool_decide (key = KEYS.ESCAPE) then
        if isExpanded
        then stopPropagation
               (preventDefault (focus trigger (_closeDropdown dropdown (Some trigger) w)))
        else w
      else if bool_decide (key = KEYS.ARROW_DOWN) then
        let w := preventDefault w in
        if negb isExpanded then _openDropdown trigger dropdown menu w
        else if 0 <? len then
          let nextIndex := if currentIndex <? len - 1 then currentIndex + 1 else 0 in
          focus_item items nextIndex w
        else w
      else if bool_decide (key = KEYS.ARROW_UP) then
        let w := preventDefault w in
        if isExpanded && (0 <? len) then
          let prevIndex := if 0 <? currentIndex then currentIndex - 1 else len - 1 in
          focus_item items prevIndex w
        else w
      else if bool_decide (key = KEYS.HOME) then
        if isExpanded && (0 <? len) then focus_item items 0 (preventDefault w) else w
      else if bool_decide (key = KEYS.END_) then
        if isExpanded && (0 <? len)
        then focus_item items (len - 1) (preventDefault w) else w
      else if bool_decide (key = KEYS.ENTER) || bool_decide (key = KEYS.SPACE) then
        if matches_at (dom w) (SelClass "btn-dropdown__item") target
        then _handleDropdownItemClick target dropdown trigger (preventDefault w)
        else w
      else if bool_decide (key = KEYS.TAB) then
        if isExpanded then _closeDropdown dropdown (Some trigger) w else w
      else w
  | _, _ => w
  end.

(** [openDropdown(dropdown)]; [None] is a falsy handle. *)
Definition openDropdown (dropdown : option nat) (w : world) : world :=
  match dropdown with
  | None => w
  | Some dropdown =>
      match querySelector (dom w) dropdown SELECTORS.dropdownTrigger,
            querySelector (dom w) dropdown SELECTORS.dropdownMenu with
      | Some trigger, Some menu =>
          _openDropdown trigger dropdown menu (_closeAllDropdowns w)
      | _, _ => w
      end
  end.

(** [closeDropdown(dropdown)]. *)
Definition closeDropdown (dropdown : option nat) (w : world) : world :=
  match dropdown with
  | None => w
  | Some dropdown => _closeDropdown dropdown None w
  end.

(** [closeAllDropdowns()]. *)
Definition closeAllDropdowns : world -> world := _closeAllDropdowns.

(** ** Expand/collapse *)

(** [_handleExpand(button)]. *)
Definition _handleExpand (button : nat) (w : world) : world :=
  match dom w !! button with
  | None => w
  | Some e =>
      let target :=
        match getAttribute ARIA.controls e with
        | Some (String _ _ as targetId) => getElementById (dom w) targetId
        | _ => None
        end in
      let isExpanded := attr_is ARIA.expanded "true" e in
      let newState := negb isExpanded in
      let w := update_element button
                 (setAttribute ARIA.expanded (String_of_bool newState)) w in
      let w :=
        match target with
        | Some t => update_element t (set_hidden (negb newState)) w
        | None => w
        end in
      _dispatchEvent button "expand" (DetailExpand newState) w
  end.

(** ** The event router *)

Definition has_attribute_at (w : world) (name : string) (i : nat) : bool :=
  match dom w !! i with
  | Some e => hasAttribute name e
  | None => false
  end.

(** A fresh event enters a handler with both flags down. *)
Definition new_event (w : world) : world :=
  with_propagationStopped (fun _ => false) (with_defaultPrevented (fun _ => false) w).

(** [_handleEvent(event)] for a click whose target is [target]. *)
Definition _handleEvent (target : nat) (w : world) : world :=
  let w := new_event w in
  let w :=
    match closest (dom w) SELECTORS.dropdown target with
    | None => _closeAllDropdowns w
    | Some _ => w
    end in
  match closest (dom w) SELECTORS.button target with
  | None => w
  | Some button =>
      match dom w !! button with
      | None => w
      | Some e =>
          if disabled e || attr_is ARIA.disabled "true" e
          then stopPropagation (preventDefault w)
          else
            let w := if has_attribute_at w DATA_ATTRS.toggle button
                     then _handleToggle button w else w in
            let w := if has_attribute_at w DATA_ATTRS.loadingText button
                     then _handleLoading button w else w in
            let w := if has_attribute_at w DATA_ATTRS.autoDisable button
                     then _handleAutoDisable button w else w in
            let w := match closest (dom w) SELECTORS.dropdown button with
                     | Some dropdown => _handleDropdown button dropdown w
                     | None => w
                     end in
            if matches_at (dom w) (SelClass "btn-expand") button
            then _handleExpand button w else w
      end
  end.

(** [_handleKeydown(event)] for a key pressed on [target]. *)
Definition _handleKeydown (target : nat) (key : string) (w : world) : world :=
  let w := new_event w in
  match closest (dom w) SELECTORS.dropdown target with
  | Some dropdown => _handleDropdownKeyboard target key dropdown w
  | None =>
      if has_attribute_at w DATA_ATTRS.toggle target && bool_decide (key = KEYS.SPACE)
      then preventDefault w else w
  end.

(** ** Building concrete worlds *)

(** A node with the given tag, parent, attributes and classes; enabled,
    with empty markup. *)
Definition node (tag : string) (parent : parent_ref)
    (attrs : list (string * string)) (classes : list string) : element :=
  Element tag parent (list_to_map attrs) classes false "" "" false.

(** The controller right after construction over the store [d], with the
    default announcement strings; [live] is the live region, if created. *)
Definition boot (d : list element) (live : option nat) : world :=
  World d None ∅ ∅ ∅ "Loading, please wait" "Action completed" live
        [] 0 1%positive [] [] [] [] false false.

(** ** Notions used in the statements *)

(** The decimal value of a digit string, most significant digit first. *)
Fixpoint decimal_value (s : string) : Z :=
  match s with
  | String c r => digitValue c * 10 ^ Z.of_nat (String.length r) + decimal_value r
  | EmptyString => 0
  end.

(** A non-empty string of decimal digits: a non-negative integer. *)
Definition is_digits (s : string) : Prop :=
  s ≠ "" ∧ allChars isDigit s = true.

(** A string without any decimal digit. *)
Definition has_no_digit (s : string) : Prop :=
  allChars (fun c => negb (isDigit c)) s = true.

(** White space only. *)
Definition is_white (s : string) : Prop :=
  allChars isStrWhiteSpaceChar s = true.

(** An optional sign. *)
Definition is_sign (s : string) : Prop :=
  s = "" ∨ s = "+" ∨ s = "-".

(** [s] does not go on with a digit. *)
Definition no_digit_ahead (s : string) : Prop :=
  match s with
  | String c _ => isDigit c = false
  | EmptyString => True
  end.

(** [s] does not go on with white space, a sign or a digit. *)
Definition no_number_ahead (s : string) : Prop :=
  match s with
  | String c _ =>
      isStrWhiteSpaceChar c = false ∧ c ≠ "+"%char ∧ c ≠ "-"%char
      ∧ isDigit c = false
  | EmptyString => True
  end.

(** No integer can be read from [s]: after the leading white space and an
    optional sign, no digit follows. *)
Definition no_number (s : string) : Prop :=
  ∃ ws sign rest,
    s = ws +:+ sign +:+ rest
    ∧ is_white ws ∧ is_sign sign ∧ no_digit_ahead rest
    ∧ (sign = "" -> no_number_ahead rest).

(** An integer can be read from [s]: after the leading white space comes
    the optional sign [sign], then the digits [ds], which end where [s]
    ends or where something other than a digit follows. *)
Definition reads_number (s sign ds : string) : Prop :=
  ∃ ws rest,
    s = ws +:+ sign +:+ ds +:+ rest
    ∧ is_white ws ∧ is_sign sign ∧ is_digits ds ∧ no_digit_ahead rest.

(** A numeric value in the sense of the specification: an integer written
    as an optional sign and digits, and nothing else. *)
Definition is_integer_numeral (s : string) : bool :=
  match s with
  | String c r =>
      if Ascii.eqb c "-" || Ascii.eqb c "+"
      then match r with
           | String _ _ => allChars isDigit r
           | EmptyString => false
           end
      else allChars isDigit s
  | EmptyString => false
  end.

(** The longest prefix of [s] whose characters satisfy [p], and what
    follows it. *)
Fixpoint takeWhile (p : ascii -> bool) (s : string) : string :=
  match s with
  | String c r => if p c then String c (takeWhile p r) else EmptyString
  | EmptyString => EmptyString
  end.

Fixpoint dropWhile (p : ascii -> bool) (s : string) : string :=
  match s with
  | String c r => if p c then dropWhile p r else s
  | EmptyString => EmptyString
  end.

(** The value of [aria-pressed] on the node [i]. *)
Definition pressed_of (w : world) (i : nat) : option string :=
  dom w !! i ≫= getAttribute ARIA.pressed.

(** The members of the toggle group [g]: what the group query of
    [_handleToggle] and [setGroupValue] returns. *)
Definition group_members (w : world) (g : string) : list nat :=
  document_querySelectorAll (dom w) (SelAttrEq DATA_ATTRS.toggleGroup g).

(** Node by node, [e'] hangs where [e] hangs and is in the same toggle
    group. *)
Definition same_place (e e' : element) : Prop :=
  parentNode e' = parentNode e
  ∧ getAttribute DATA_ATTRS.toggleGroup e' = getAttribute DATA_ATTRS.toggleGroup e.

(** How many [loadingComplete] events were dispatched on [b]. *)
Definition loadingComplete_count (w : world) (b : nat) : nat :=
  length (filter (fun ev => ev_target ev = b ∧ ev_name ev = "loadingComplete")
                 (dispatched w)).

(** The text of the node [i]. *)
Definition text_of (w : world) (i : nat) : option string :=
  textContent <$> dom w !! i.

(** From [w] to [w'] nothing changed but the bookkeeping for [b]: the
    timer entry of [b] is deleted; the snapshot of [b] is deleted when
    [snapshot] is set, and the snapshot table is untouched otherwise; and
    pending timers were only removed. *)
Definition only_bookkeeping_changed (b : nat) (snapshot : bool) (w w' : world)
    : Prop :=
  dom w' = dom w
  ∧ activeElement w' = activeElement w
  ∧ dispatched w' = dispatched w
  ∧ openDropdowns w' = openDropdowns w
  ∧ dropdownItemCache w' = dropdownItemCache w
  ∧ frames w' = frames w
  ∧ buttonTimeouts w' = delete b (buttonTimeouts w)
  ∧ buttonOriginalContent w'
    = (if snapshot then delete b (buttonOriginalContent w)
       else buttonOriginalContent w)
  ∧ (∀ t, t ∈ timers w' -> t ∈ timers w).

(** The loading or auto-disable callbacks of the button [b]. *)
Definition is_timeout_of (b : nat) (cb : callback) : Prop :=
  match cb with
  | LoadingTimeout b' | SetLoadingTimeout b' _ | AutoDisableTimeout b' => b' = b
  | AnnounceTimeout _ => False
  end.

(** The host application takes the node [i] out of the tree
    ([node.remove()]). *)
Definition remove_node (i : nat) : world -> world :=
  update_element i
    (fun e => Element (tagName e) ParentNone (attributes e) (classList e)
                      (disabled e) (innerHTML e) (textContent e) (hidden e)).

(** A loading session is open on [b]: its timer [t] is pending, the timer
    table of [b] holds the identifier of [t], and [t] carries one of the
    two loading callbacks of [b]. *)
Definition loading_session (w : world) (b : nat) (t : timer) : Prop :=
  t ∈ timers w
  ∧ buttonTimeouts w !! b = Some (timer_id t)
  ∧ (timer_callback t = LoadingTimeout b
     ∨ ∃ p, timer_callback t = SetLoadingTimeout b p).

(** ** Example pages *)

(** A page with the toggle group "size" (nodes 1, 2 and 3, the second one
    pressed), a toggle whose group attribute is the empty string (node 4)
    and a button outside every group (node 5). *)
Definition toggle_page : world :=
  boot [ node "body" ParentDocument [] [];
         node "button" (ParentElement 0)
              [("data-toggle", ""); ("data-toggle-group", "size")] [];
         node "button" (ParentElement 0)
              [("data-toggle", ""); ("data-toggle-group", "size");
               ("aria-pressed", "true")] ["btn--selected"];
         node "button" (ParentElement 0)
              [("data-toggle", ""); ("data-toggle-group", "size")] [];
         node "button" (ParentElement 0)
              [("data-toggle", ""); ("data-toggle-group", "")] [];
         node "button" (ParentElement 0) [] [] ]
       None.

(** A page with a loading button (node 1, 150 ms) and the live region
    (node 2). *)
Definition loading_page : world :=
  boot [ node "body" ParentDocument [] [];
         set_innerHTML "Save"
           (node "button" (ParentElement 0)
                 [("data-loading-text", "Saving"); ("data-loading-duration", "150")]
                 ["btn"]);
         node "div" (ParentElement 0) [("aria-live", "polite")] ["sr-only"] ]
       (Some 2%nat).

(** A page with two dropdowns: nodes 1 to 4 and nodes 5 to 8 are the
    container, the trigger, the menu and one item of each. *)
Definition dropdown_page : world :=
  boot [ node "body" ParentDocument [] [];
         node "div" (ParentElement 0) [] ["btn-dropdown"];
         node "button" (ParentElement 1) [] ["btn-dropdown__trigger"];
         node "div" (ParentElement 1) [] ["btn-dropdown__menu"];
         node "button" (ParentElement 3) [("data-value", "a")] ["btn-dropdown__item"];
         node "div" (ParentElement 0) [] ["btn-dropdown"];
         node "button" (ParentElement 5) [] ["btn-dropdown__trigger"];
         node "div" (ParentElement 5) [] ["btn-dropdown__menu"];
         node "button" (ParentElement 7) [("data-value", "b")] ["btn-dropdown__item"] ]
       None.

(** A page with one dropdown (node 1) whose menu (node 3) has three items
    (nodes 4, 5 and 6). *)
Definition menu_page : world :=
  boot [ node "body" ParentDocument [] [];
         node "div" (ParentElement 0) [] ["btn-dropdown"];
         node "button" (ParentElement 1) [] ["btn-dropdown__trigger"];
         node "div" (ParentElement 1) [] ["btn-dropdown__menu"];
         node "button" (ParentElement 3) [] ["btn-dropdown__item"];
         node "button" (ParentElement 3) [] ["btn-dropdown__item"];
         node "button" (ParentElement 3) [] ["btn-dropdown__item"] ]
       None.

(** ** Further operations and notions *)

(** [_invalidateDropdownCache(menu)]. *)
Definition _invalidateDropdownCache (menu : nat) : world -> world :=
  with_dropdownItemCache (delete menu).

(** [e'] has the tag, the parent, the classes and the role of [e]: what
    the class selectors, [SELECTORS.button] and the tree walks look at. *)
Definition same_outline (e e' : element) : Prop :=
  tagName e' = tagName e
  ∧ parentNode e' = parentNode e
  ∧ classList e' = classList e
  ∧ getAttribute "role" e' = getAttribute "role" e.

(** A selector on the tag, the role or a class. *)
Definition structural (sel : selector) : Prop :=
  match sel with
  | SelAttrEq _ _ => False
  | _ => True
  end.

(** [e'] is [e] after dropdowns were closed: nothing differs but
    [aria-expanded], which is kept or "false", and [data-position], which
    is kept or removed. *)
Definition closed_from (e e' : element) : Prop :=
  e' = with_attributes (fun _ => attributes e') e
  ∧ (∀ k, k ≠ ARIA.expanded -> k ≠ DATA_ATTRS.position ->
          attributes e' !! k = attributes e !! k)
  ∧ (attributes e' !! ARIA.expanded = attributes e !! ARIA.expanded
     ∨ attributes e' !! ARIA.expanded = Some "false")
  ∧ (attributes e' !! DATA_ATTRS.position = attributes e !! DATA_ATTRS.position
     ∨ attributes e' !! DATA_ATTRS.position = None).

(** The value of [aria-expanded] on the node [i]. *)
Definition expanded_of (w : world) (i : nat) : option string :=
  dom w !! i ≫= getAttribute ARIA.expanded.

(** The trigger [_closeDropdown] works on: the one it is handed, or else
    the one it finds under the container. *)
Definition resolve_trigger (w : world) (dropdown : nat) (trigger : option nat)
    : option nat :=
  match trigger with
  | Some t => Some t
  | None => querySelector (dom w) dropdown SELECTORS.dropdownTrigger
  end.

(** What a call of [focus()] on the node [y] in the world [w] leads to,
    [after] being the focused node afterwards: [y] when [y] can take the
    focus; the node that had the focus before when [y] is detached or a
    disabled form control. *)
Definition focus_outcome (w : world) (y : nat) (after : option nat) : Prop :=
  (can_focus (dom w) y = true -> after = Some y)
  ∧ (isConnected (dom w) y = false
     ∨ (∃ e, dom w !! y = Some e ∧ actually_disabled e = true) ->
     after = activeElement w).

(** [alter] on a node that may be missing. *)
Definition alter_opt (f : element -> element) (o : option nat)
    (l : list element) : list element :=
  match o with
  | Some i => alter f i l
  | None => l
  end.

(** The element an expand button controls: the one [aria-controls] names,
    if the attribute is there and not empty. *)
Definition expand_target (d : list element) (e : element) : option nat :=
  match getAttribute ARIA.controls e with
  | Some (String _ _ as targetId) => getElementById d targetId
  | _ => None
  end.

(** [e'] hangs where [e] hangs, is a dropdown container exactly when [e]
    is one, and has the [aria-expanded] of [e]. *)
Definition same_dropdown_frame (e e' : element) : Prop :=
  parentNode e' = parentNode e
  ∧ classList_contains "btn-dropdown" e' = classList_contains "btn-dropdown" e
  ∧ getAttribute ARIA.expanded e' = getAttribute ARIA.expanded e.

(** From [w] to [w'] the set of open dropdowns is kept and every node
    keeps its dropdown frame. *)
Definition keeps_dropdowns (w w' : world) : Prop :=
  Forall2 same_dropdown_frame (dom w) (dom w')
  ∧ openDropdowns w' = openDropdowns w.

(** The handlers [_handleEvent] runs on an enabled button, in the order
    of the source. *)
Definition run_handlers (button : nat) (w : world) : world :=
  let w := if has_attribute_at w DATA_ATTRS.toggle button
           then _handleToggle button w else w in
  let w := if has_attribute_at w DATA_ATTRS.loadingText button
           then _handleLoading button w else w in
  let w := if has_attribute_at w DATA_ATTRS.autoDisable button
           then _handleAutoDisable button w else w in
  let w := match closest (dom w) SELECTORS.dropdown button with
           | Some dropdown => _handleDropdown button dropdown w
           | None => w
           end in
  if matches_at (dom w) (SelClass "btn-expand") button
  then _handleExpand button w else w.

(** A page with an expand button (node 1) and the panel it controls
    (node 2), hidden at the start. *)
Definition expand_page : world :=
  boot [ node "body" ParentDocument [] [];
         node "button" (ParentElement 0)
              [("aria-controls", "panel"); ("aria-expanded", "false")]
              ["btn"; "btn-expand"];
         set_hidden true (node "div" (ParentElement 0) [("id", "panel")] []) ]
       None.

(** A page with a submit button (node 1) that is both a loading button
    and an auto-disable button, and the live region (node 2). *)
Definition submit_page : world :=
  boot [ node "body" ParentDocument [] [];
         set_innerHTML "Send"
           (node "button" (ParentElement 0)
                 [("data-loading-text", "Sending"); ("data-auto-disable", "")]
                 ["btn"]);
         node "div" (ParentElement 0) [("aria-live", "polite")] ["sr-only"] ]
       (Some 2%nat).

(** * Properties *)

(** Projections of a world built by the setters. *)
Ltac world_simpl :=
  cbn [dom activeElement buttonTimeouts buttonOriginalContent dropdownItemCache
       i18n_loading i18n_complete liveRegion openDropdowns now nextTimerId timers
       frames promises dispatched defaultPrevented propagationStopped
       with_dom with_activeElement with_buttonTimeouts with_buttonOriginalContent
       with_dropdownItemCache with_openDropdowns with_now with_nextTimerId
       with_timers with_frames with_promises with_dispatched
       with_defaultPrevented with_propagationStopped
       update_element setTimeout clearTimeout _dispatchEvent focus
       preventDefault stopPropagation settle discardBookkeeping applyLoadingState
       timer_id timer_due timer_callback].

(** ** Duration parsing *)

Lemma digit_not_space c : isDigit c = true -> isStrWhiteSpaceChar c = false.
Proof.
  destruct c as [[] [] [] [] [] [] [] []]; intros H; try reflexivity;
    vm_compute in H; discriminate H.
Qed.

Lemma readDigits_some a s :
  allChars isDigit s = true ->
  readDigits (Some a) s = Some (a * 10 ^ Z.of_nat (String.length s) + decimal_value s).
Proof.
  revert a. induction s as [|c r IH]; intros a H.
  - simpl. f_equal. lia.
  - cbn [allChars] in H. apply andb_true_iff in H as [Hc Hr].
    cbn [readDigits decimal_value String.length]. rewrite Hc.
    rewrite IH by exact Hr. f_equal. simpl default.
    rewrite Nat2Z.inj_succ, Z.pow_succ_r by lia. ring.
Qed.

Lemma readDigits_digits s :
  is_digits s -> readDigits None s = Some (decimal_value s).
Proof.
  intros [Hne H]. destruct s as [|c r]; [done|].
  cbn [allChars] in H. apply andb_true_iff in H as [Hc Hr].
  cbn [readDigits]. rewrite Hc. simpl default.
  rewrite readDigits_some by exact Hr. cbn [decimal_value]. f_equal; ring.
Qed.

Lemma parseInt_digits s : is_digits s -> parseInt s = Some (decimal_value s).
Proof.
  intros Hs. pose proof (readDigits_digits s Hs) as Hr.
  destruct Hs as [Hne H]. destruct s as [|c r]; [done|].
  cbn [allChars] in H. apply andb_true_iff in H as [Hc _].
  unfold parseInt. cbn [trimStart]. rewrite (digit_not_space c Hc).
  destruct c as [[] [] [] [] [] [] [] []];
    try (vm_compute in Hc; discriminate Hc);
    rewrite Hr; f_equal; apply Z.mul_1_l.
Qed.

Lemma parseInt_negative ds :
  is_digits ds -> parseInt ("-" +:+ ds) = Some (- decimal_value ds).
Proof.
  intros Hs. change ("-" +:+ ds) with (String "-"%char ds).
  unfold parseInt. cbn [trimStart].
  change (isStrWhiteSpaceChar "-"%char) with false. cbv iota beta.
  rewrite (readDigits_digits ds Hs). f_equal; lia.
Qed.

Lemma decimal_value_nonneg s : allChars isDigit s = true -> 0 <= decimal_value s.
Proof.
  induction s as [|c r IH]; intros H; [simpl; lia|].
  cbn [allChars] in H. apply andb_true_iff in H as [Hc Hr].
  cbn [decimal_value]. specialize (IH Hr).
  assert (0 <= digitValue c).
  { unfold isDigit in Hc. apply andb_true_iff in Hc as [Hc _].
    apply Nat.leb_le in Hc. unfold digitValue. lia. }
  assert (0 <= 10 ^ Z.of_nat (String.length r)) by (apply Z.pow_nonneg; lia).
  nia.
Qed.

Lemma trimStart_no_digit s : has_no_digit s -> has_no_digit (trimStart s).
Proof.
  unfold has_no_digit. induction s as [|c r IH]; intros H; [done|].
  cbn [trimStart]. destruct (isStrWhiteSpaceChar c); [|exact H].
  cbn [allChars] in H. apply andb_true_iff in H as [_ Hr]. auto.
Qed.

Lemma readDigits_no_digit s : has_no_digit s -> readDigits None s = None.
Proof.
  unfold has_no_digit. destruct s as [|c r]; intros H; [done|].
  cbn [allChars] in H. apply andb_true_iff in H as [Hc _].
  cbn [readDigits]. by destruct (isDigit c).
Qed.

Lemma parseInt_no_digit s : has_no_digit s -> parseInt s = None.
Proof.
  intros H. apply trimStart_no_digit in H. unfold parseInt.
  destruct (trimStart s) as [|c r] eqn:E.
  - reflexivity.
  - assert (Hr : has_no_digit r).
    { unfold has_no_digit in *. cbn [allChars] in H.
      by apply andb_true_iff in H as [_ Hr]. }
    pose proof (readDigits_no_digit _ H) as H1.
    pose proof (readDigits_no_digit _ Hr) as H2.
    destruct c as [[] [] [] [] [] [] [] []];
      first [ by rewrite H1 | by rewrite H2 ].
Qed.

Lemma append_String c r s : String c r +:+ s = String c (r +:+ s).
Proof. reflexivity. Qed.

Lemma append_empty s : "" +:+ s = s.
Proof. reflexivity. Qed.

Lemma trimStart_white ws s : is_white ws -> trimStart (ws +:+ s) = trimStart s.
Proof.
  unfold is_white. induction ws as [|c r IH]; intros H; [done|].
  cbn [allChars] in H. apply andb_true_iff in H as [Hc Hr].
  rewrite append_String. cbn [trimStart]. rewrite Hc. by apply IH.
Qed.

Lemma readDigits_rest acc s : no_digit_ahead s -> readDigits acc s = acc.
Proof. destruct s as [|c r]; [done|]. cbn. by intros ->. Qed.

Lemma readDigits_app a ds rest :
  allChars isDigit ds = true -> no_digit_ahead rest ->
  readDigits (Some a) (ds +:+ rest)
  = Some (a * 10 ^ Z.of_nat (String.length ds) + decimal_value ds).
Proof.
  intros H Hrest. revert a. induction ds as [|c r IH]; intros a.
  - rewrite append_empty, readDigits_rest by done. simpl. f_equal. lia.
  - cbn [allChars] in H. apply andb_true_iff in H as [Hc Hr].
    rewrite append_String. cbn [readDigits decimal_value String.length]. rewrite Hc.
    rewrite IH by exact Hr. f_equal. simpl default.
    rewrite Nat2Z.inj_succ, Z.pow_succ_r by lia. ring.
Qed.

Lemma readDigits_number ds rest :
  is_digits ds -> no_digit_ahead rest ->
  readDigits None (ds +:+ rest) = Some (decimal_value ds).
Proof.
  intros [Hne H] Hrest. destruct ds as [|c r]; [done|].
  cbn [allChars] in H. apply andb_true_iff in H as [Hc Hr].
  rewrite append_String. cbn [readDigits]. rewrite Hc. simpl default.
  rewrite readDigits_app by done. cbn [decimal_value]. f_equal; ring.
Qed.

Lemma digit_not_sign c : isDigit c = true -> c ≠ "+"%char ∧ c ≠ "-"%char.
Proof. intros H. split; intros ->; vm_compute in H; discriminate H. Qed.

Lemma parseInt_minus r :
  parseInt (String "-" r) = (fun n => - n) <$> readDigits None r.
Proof.
  unfold parseInt. cbn [trimStart].
  change (isStrWhiteSpaceChar "-"%char) with false. cbv iota beta.
  by destruct (readDigits None r) as [[|n|n]|].
Qed.

Lemma parseInt_plus r : parseInt (String "+" r) = readDigits None r.
Proof.
  unfold parseInt. cbn [trimStart].
  change (isStrWhiteSpaceChar "+"%char) with false. cbv iota beta.
  by destruct (readDigits None r) as [[|n|n]|].
Qed.

Lemma parseInt_plain c r :
  isStrWhiteSpaceChar c = false -> c ≠ "+"%char -> c ≠ "-"%char ->
  parseInt (String c r) = readDigits None (String c r).
Proof.
  intros Hw Hp Hm. unfold parseInt. cbn [trimStart]. rewrite Hw.
  destruct c as [[] [] [] [] [] [] [] []]; try done;
    (destruct (readDigits None _) as [n|]; [f_equal; lia|done]).
Qed.

Lemma parseInt_no_number s : no_number s -> parseInt s = None.
Proof.
  intros (ws & sign & rest & -> & Hws & Hsign & Hrest & Hplain).
  unfold parseInt at 1. rewrite trimStart_white by done. fold (parseInt (sign +:+ rest)).
  destruct Hsign as [-> | [-> | ->]].
  - rewrite append_empty. specialize (Hplain eq_refl).
    destruct rest as [|c r]; [done|]. destruct Hplain as (Hw & Hp & Hm & Hd).
    rewrite parseInt_plain by done. cbn [readDigits]. by rewrite Hd.
  - rewrite append_String, append_empty, parseInt_plus. by apply readDigits_rest.
  - rewrite append_String, append_empty, parseInt_minus.
    by rewrite (readDigits_rest None rest Hrest).
Qed.

Lemma parseInt_reads_number s sign ds :
  reads_number s sign ds ->
  parseInt s = Some (if bool_decide (sign = "-") then - decimal_value ds
                     else decimal_value ds).
Proof.
  intros (ws & rest & -> & Hws & Hsign & Hds & Hrest).
  unfold parseInt at 1. rewrite trimStart_white by done.
  fold (parseInt (sign +:+ ds +:+ rest)).
  pose proof (readDigits_number ds rest Hds Hrest) as Hread.
  destruct Hsign as [-> | [-> | ->]]; rewrite ?append_String, ?append_empty.
  - rewrite bool_decide_eq_false_2 by done.
    destruct Hds as [Hne Hall]. destruct ds as [|c r]; [done|].
    cbn [allChars] in Hall. apply andb_true_iff in Hall as [Hc _].
    destruct (digit_not_sign c Hc) as [Hp Hm].
    rewrite append_String in *.
    by rewrite parseInt_plain by (try done; by apply digit_not_space).
  - rewrite bool_decide_eq_false_2 by done. by rewrite parseInt_plus.
  - rewrite bool_decide_eq_true_2 by done. by rewrite parseInt_minus, Hread.
Qed.

Lemma takeWhile_dropWhile p s : s = takeWhile p s +:+ dropWhile p s.
Proof.
  induction s as [|c r IH]; [done|]. cbn [takeWhile dropWhile].
  destruct (p c); [|done]. rewrite append_String. by rewrite <- IH.
Qed.

Lemma takeWhile_all p s : allChars p (takeWhile p s) = true.
Proof.
  induction s as [|c r IH]; [done|]. cbn [takeWhile].
  destruct (p c) eqn:E; [|done]. cbn [allChars]. by rewrite E, IH.
Qed.

Lemma dropWhile_head p s :
  match dropWhile p s with
  | String c _ => p c = false
  | EmptyString => True
  end.
Proof.
  induction s as [|c r IH]; [done|]. cbn [dropWhile].
  by destruct (p c) eqn:E.
Qed.

Lemma takeWhile_empty p s : takeWhile p s = "" -> dropWhile p s = s.
Proof. destruct s as [|c r]; [done|]. cbn. by destruct (p c). Qed.

(** Every string either holds no number or holds exactly the number its
    sign and its first run of digits spell. *)
Lemma number_or_not s : no_number s ∨ ∃ sign ds, reads_number s sign ds.
Proof.
  pose proof (takeWhile_dropWhile isStrWhiteSpaceChar s) as Hs.
  pose proof (takeWhile_all isStrWhiteSpaceChar s) as Hws.
  pose proof (dropWhile_head isStrWhiteSpaceChar s) as Hhead.
  set (ws := takeWhile isStrWhiteSpaceChar s) in *.
  destruct (dropWhile isStrWhiteSpaceChar s) as [|c r].
  { left. exists ws, "", "". repeat split; try done. by left. }
  assert (Hsigned : ∀ sign, is_sign sign -> sign ≠ "" ->
            s = ws +:+ sign +:+ r ->
            no_number s ∨ ∃ sign ds, reads_number s sign ds).
  { intros sign Hsign Hne Hs'.
    pose proof (takeWhile_dropWhile isDigit r) as Hr.
    pose proof (takeWhile_all isDigit r) as Hd.
    pose proof (dropWhile_head isDigit r) as Hrest.
    destruct (takeWhile isDigit r) as [|c' r'] eqn:E.
    - left. exists ws, sign, r. repeat split; try done.
      rewrite <- (takeWhile_empty _ _ E). exact Hrest.
    - right. exists sign, (String c' r'), ws, (dropWhile isDigit r).
      repeat split; try done. by rewrite <- Hr. }
  destruct (ascii_dec c "+") as [->|Hp]; [apply (Hsigned "+"); [right; by left|done|done]|].
  destruct (ascii_dec c "-") as [->|Hm]; [apply (Hsigned "-"); [right; by right|done|done]|].
  pose proof (takeWhile_dropWhile isDigit (String c r)) as Hr.
  pose proof (takeWhile_all isDigit (String c r)) as Hd.
  pose proof (dropWhile_head isDigit (String c r)) as Hrest.
  destruct (takeWhile isDigit (String c r)) as [|c' r'] eqn:E.
  - left. exists ws, "", (String c r). repeat split; try done; [by left| |].
    + rewrite (takeWhile_empty _ _ E) in Hrest. exact Hrest.
    + rewrite (takeWhile_empty _ _ E) in Hrest. exact Hrest.
  - right. exists "", (String c' r'), ws, (dropWhile isDigit (String c r)).
    repeat split; try done; [|by left]. rewrite append_empty. by rewrite <- Hr.
Qed.

Lemma clamp_bounds v lo hi : lo <= hi -> lo <= clamp v lo hi <= hi.
Proof. unfold clamp. lia. Qed.

(** C6 as stated fails on a value that is not numeric but begins with a
    number: "12abc" is no integer, yet the parser does not return the
    default; it reads the leading 12 and clamps it to the lower bound.
    In the same way the negative value "-0.5" does not give the default:
    its integer part is read as zero, which is not below zero. *)
Lemma parseDuration_numeric_prefix_not_default :
  is_integer_numeral "12abc" = false
  ∧ parseDuration (Some "12abc") 2000 = 100
  ∧ parseDuration (Some "12abc") 2000 ≠ 2000
  ∧ parseDuration (Some "-0.5") 2000 = 100.
Proof. vm_compute. repeat split; discriminate. Qed.

(** C6, amended. The duration parser returns the default for a missing
    attribute and for a value from which no integer can be read: after the
    leading white space and an optional sign no digit follows (so for the
    empty string and for a value such as "abc").  From any other value it
    reads the sign and the first run of digits, ignoring whatever comes
    after the digits: it returns the default when the sign is "-" and the
    digits denote a number above zero, and otherwise the number the digits
    denote, clamped into [[minDuration, maxDuration]].  Every value is of
    one of the two kinds, so the result is fixed for every input; and the
    parser is a total function, so no input makes it fail. *)
Theorem parseDuration_policy (d : Z) :
  parseDuration None d = d
  ∧ (∀ s, no_number s -> parseDuration (Some s) d = d)
  ∧ (∀ s sign ds, reads_number s sign ds ->
       parseDuration (Some s) d
       = if bool_decide (sign = "-") && (0 <? decimal_value ds) then d
         else clamp (decimal_value ds) DEFAULTS.minDuration DEFAULTS.maxDuration)
  ∧ (∀ s, no_number s ∨ ∃ sign ds, reads_number s sign ds).
Proof.
  split; [reflexivity|]. split; [|split; [|exact number_or_not]].
  - intros s H. unfold parseDuration. destruct s as [|c r]; [done|].
    by rewrite (parseInt_no_number _ H).
  - intros s sign ds H. pose proof (parseInt_reads_number s sign ds H) as E.
    destruct H as (ws & rest & Hs & _ & _ & [Hne Hall] & _).
    pose proof (decimal_value_nonneg _ Hall) as Hpos.
    assert (Hnonempty : s ≠ "").
    { intros ->. destruct ws; [|done]. destruct sign; [|done].
      destruct ds; done. }
    unfold parseDuration. destruct s as [|c r]; [done|]. rewrite E.
    destruct (bool_decide (sign = "-")); cbn [andb].
    + destruct (Z.ltb_spec 0 (decimal_value ds)).
      * destruct (Z.ltb_spec (- decimal_value ds) 0); [done|lia].
      * assert (decimal_value ds = 0) as -> by lia. done.
    + destruct (Z.ltb_spec (decimal_value ds) 0); [lia|done].
Qed.

Lemma parseDuration_policy_witness :
  parseDuration (Some "abc") 2000 = 2000
  ∧ parseDuration (Some "-5") 2000 = 2000
  ∧ parseDuration (Some "150") 2000 = 150
  ∧ parseDuration (Some " 12abc") 2000 = 100.
Proof.
  destruct (parseDuration_policy 2000) as (_ & Hnone & Hnum & _).
  assert (H1 : no_number "abc").
  { exists "", "", "abc". vm_compute. repeat split; [by left|discriminate|discriminate]. }
  assert (H2 : reads_number "-5" "-" "5").
  { exists "", "". vm_compute. repeat split; [right; by right|discriminate]. }
  assert (H3 : reads_number "150" "" "150").
  { exists "", "". vm_compute. repeat split; [by left|discriminate]. }
  assert (H4 : reads_number " 12abc" "" "12").
  { exists " ", "abc". vm_compute. repeat split; [by left|discriminate]. }
  split; [exact (Hnone _ H1)|]. split; [exact (Hnum _ _ _ H2)|].
  split; [exact (Hnum _ _ _ H3)|exact (Hnum _ _ _ H4)].
Defined.

(** ** The store under updates of single nodes *)

Lemma foldl_update_lookup (skip : nat -> bool) (h : nat -> element -> element)
    (l : list nat) (w : world) (i : nat) :
  NoDup l ->
  dom (foldl (fun w b => if skip b then w else update_element b (h b) w) w l) !! i
  = (if bool_decide (i ∈ l) && negb (skip i) then h i else id) <$> dom w !! i.
Proof.
  revert w. induction l as [|a l IH]; intros w Hnd.
  - cbn [foldl]. rewrite bool_decide_eq_false_2 by apply not_elem_of_nil.
    by rewrite option_fmap_id.
  - apply NoDup_cons in Hnd as [Ha Hnd]. cbn [foldl]. rewrite IH by done.
    destruct (decide (i = a)) as [->|Hne].
    + rewrite (bool_decide_eq_false_2 (a ∈ l)) by done.
      rewrite (bool_decide_eq_true_2 (a ∈ a :: l)) by apply list_elem_of_here.
      cbn [andb]. rewrite option_fmap_id.
      destruct (skip a); cbn [negb]; [by rewrite option_fmap_id|].
      apply list_lookup_alter_eq.
    + assert (E : bool_decide (i ∈ a :: l) = bool_decide (i ∈ l)).
      { apply bool_decide_ext. rewrite elem_of_cons.
        split; [by intros [?|?]|by right]. }
      rewrite E. f_equal.
      destruct (skip a); [done|]. by apply list_lookup_alter_ne.
Qed.

Lemma isConnected_is_Some d i : isConnected d i = true -> is_Some (d !! i).
Proof.
  unfold isConnected. destruct (length d); [done|]. cbn [isConnected_from].
  destruct (d !! i); [eauto|done].
Qed.

Lemma isConnected_same_place d d' i :
  Forall2 same_place d d' -> isConnected d' i = isConnected d i.
Proof.
  intros HF. unfold isConnected. rewrite <-(Forall2_length _ _ _ HF).
  generalize (length d) as fuel. intros fuel. revert i.
  induction fuel as [|fuel IH]; intros i; [done|].
  cbn [isConnected_from]. rewrite Forall2_lookup in HF.
  destruct (HF i) as [e e' [Hp _]|]; [|done].
  rewrite Hp. destruct (parentNode e); auto.
Qed.

Lemma group_members_same_place w w' g :
  Forall2 same_place (dom w) (dom w') -> group_members w' g = group_members w g.
Proof.
  intros HF. unfold group_members, document_querySelectorAll.
  rewrite <-(Forall2_length _ _ _ HF). apply list_filter_iff. intros i.
  rewrite (isConnected_same_place _ _ i HF).
  assert (E : matches_at (dom w') (SelAttrEq DATA_ATTRS.toggleGroup g) i
              = matches_at (dom w) (SelAttrEq DATA_ATTRS.toggleGroup g) i).
  { unfold matches_at. rewrite Forall2_lookup in HF.
    destruct (HF i) as [e e' [_ Hg]|]; [|done].
    cbn [matches]. unfold attr_is. by rewrite Hg. }
  by rewrite E.
Qed.

Lemma group_members_spec w g i :
  i ∈ group_members w g
  <-> isConnected (dom w) i = true
      ∧ ∃ e, dom w !! i = Some e ∧ getAttribute DATA_ATTRS.toggleGroup e = Some g.
Proof.
  unfold group_members, document_querySelectorAll.
  rewrite list_elem_of_filter, elem_of_seq, andb_true_iff.
  unfold matches_at. split.
  - intros [[Hc Hm] _]. split; [done|].
    destruct (dom w !! i) as [e|]; [|done]. exists e. split; [done|].
    cbn [matches] in Hm. by apply bool_decide_eq_true in Hm.
  - intros [Hc (e & He & Hg)]. split.
    + split; [done|]. rewrite He. cbn [matches]. by apply bool_decide_eq_true.
    + apply lookup_lt_Some in He. lia.
Qed.

Lemma group_members_NoDup w g : NoDup (group_members w g).
Proof. apply NoDup_filter, NoDup_seq. Qed.

(** ** Toggle groups *)

Local Abbreviation unpress :=
  (fun b => classList_remove "btn--selected" (setAttribute ARIA.pressed "false" b)).
Local Abbreviation press :=
  (fun b => classList_add "btn--selected" (setAttribute ARIA.pressed "true" b)).
Local Abbreviation press_as isActive :=
  (fun b => classList_toggle "btn--selected" isActive
              (setAttribute ARIA.pressed (String_of_bool isActive) b)).

Lemma same_place_refl e : same_place e e.
Proof. by split. Qed.

Lemma classList_add_attributes c e : attributes (classList_add c e) = attributes e.
Proof. unfold classList_add. by destruct (classList_contains c e). Qed.

Lemma classList_add_parentNode c e : parentNode (classList_add c e) = parentNode e.
Proof. unfold classList_add. by destruct (classList_contains c e). Qed.

Lemma classList_toggle_attributes c b e :
  attributes (classList_toggle c b e) = attributes e.
Proof. destruct b; [apply classList_add_attributes|done]. Qed.

Lemma classList_toggle_parentNode c b e :
  parentNode (classList_toggle c b e) = parentNode e.
Proof. destruct b; [apply classList_add_parentNode|done]. Qed.

Lemma press_as_same_place b e : same_place e (press_as b e).
Proof.
  split.
  - by rewrite classList_toggle_parentNode.
  - unfold getAttribute. rewrite classList_toggle_attributes.
    cbn. by rewrite lookup_insert_ne.
Qed.

Lemma press_as_pressed b e :
  getAttribute ARIA.pressed (press_as b e) = Some (String_of_bool b).
Proof.
  unfold getAttribute. rewrite classList_toggle_attributes.
  cbn. by rewrite lookup_insert_eq.
Qed.

Lemma _handleToggle_group_lookup w m e g i :
  dom w !! m = Some e ->
  getAttribute DATA_ATTRS.toggleGroup e = Some g ->
  isValidGroupName g = true ->
  dom (_handleToggle m w) !! i
  = (if decide (i = m) then press
     else if bool_decide (i ∈ group_members w g) then unpress else id)
    <$> dom w !! i.
Proof.
  intros He Hg Hv. unfold _handleToggle. rewrite He, Hg.
  destruct g as [|c r]; [done|]. rewrite Hv. cbn [negb].
  cbn [_dispatchEvent with_dispatched dom update_element with_dom].
  destruct (decide (i = m)) as [->|Hne].
  - rewrite list_lookup_alter_eq.
    rewrite (foldl_update_lookup (fun b => (b =? m)%nat) (fun _ => unpress))
      by apply group_members_NoDup.
    rewrite Nat.eqb_refl, andb_false_r. by rewrite option_fmap_id.
  - rewrite list_lookup_alter_ne by done.
    rewrite (foldl_update_lookup (fun b => (b =? m)%nat) (fun _ => unpress))
      by apply group_members_NoDup.
    apply Nat.eqb_neq in Hne. rewrite Hne. cbn [negb]. by rewrite andb_true_r.
Qed.

(** C1. A toggle on a member [m] of a group with a valid name leaves [m]
    pressed and every other member of the group unpressed; the group has
    the same members as before, and no two of them are pressed. *)
Theorem toggle_group_exclusive (w : world) (g : string) (m : nat) :
  isValidGroupName g = true ->
  m ∈ group_members w g ->
  let w' := _handleToggle m w in
  group_members w' g = group_members w g
  ∧ pressed_of w' m = Some "true"
  ∧ (∀ i, i ∈ group_members w g -> i ≠ m -> pressed_of w' i = Some "false")
  ∧ (∀ i j, i ∈ group_members w' g -> j ∈ group_members w' g ->
       is_pressed w' i = true -> is_pressed w' j = true -> i = j).
Proof.
  intros Hv Hm w'.
  apply group_members_spec in Hm as Hm'. destruct Hm' as [_ (e & He & Hg)].
  pose proof (fun i => _handleToggle_group_lookup w m e g i He Hg Hv) as L.
  fold w' in L.
  assert (Hpm : pressed_of w' m = Some "true").
  { unfold pressed_of. rewrite L, He. rewrite decide_True by done. cbn.
    unfold getAttribute. rewrite classList_add_attributes. cbn.
    by rewrite lookup_insert_eq. }
  assert (Hoff : ∀ i, i ∈ group_members w g -> i ≠ m ->
                      pressed_of w' i = Some "false").
  { intros i Hi Hne. unfold pressed_of. rewrite L.
    rewrite decide_False by done. rewrite bool_decide_eq_true_2 by done.
    apply group_members_spec in Hi as [_ (ei & Hei & _)]. rewrite Hei. cbn.
    unfold getAttribute. cbn. by rewrite lookup_insert_eq. }
  assert (Hsame : group_members w' g = group_members w g).
  { apply group_members_same_place. apply Forall2_lookup. intros i. rewrite L.
    destruct (dom w !! i) as [ei|]; [|constructor]. cbn. constructor.
    destruct (decide (i = m)).
    - apply (press_as_same_place true).
    - destruct (bool_decide _); [apply (press_as_same_place false)|apply same_place_refl]. }
  split; [done|]. split; [done|]. split; [done|].
  intros i j Hi Hj Hpi Hpj. rewrite Hsame in Hi, Hj.
  assert (P : ∀ k, k ∈ group_members w g -> is_pressed w' k = true -> k = m).
  { intros k Hk Hp. destruct (decide (k = m)) as [|Hne]; [done|].
    specialize (Hoff k Hk Hne). unfold pressed_of, is_pressed in *.
    destruct (dom w' !! k) as [ek|]; [|done]. cbn in Hoff.
    unfold attr_is in Hp. apply bool_decide_eq_true in Hp.
    unfold getAttribute, ARIA.pressed in Hp. congruence. }
  rewrite (P i Hi Hpi), (P j Hj Hpj). done.
Qed.

Lemma toggle_group_exclusive_witness :
  pressed_of (_handleToggle 1 toggle_page) 1 = Some "true"
  ∧ pressed_of (_handleToggle 1 toggle_page) 2 = Some "false"
  ∧ pressed_of (_handleToggle 1 toggle_page) 3 = Some "false".
Proof.
  assert (Hv : isValidGroupName "size" = true) by reflexivity.
  assert (Hm : 1%nat ∈ group_members toggle_page "size")
    by (vm_compute; apply list_elem_of_here).
  destruct (toggle_group_exclusive toggle_page "size" 1 Hv Hm) as (_ & H1 & H2 & _).
  split; [exact H1|].
  split; apply H2; try (intros E; discriminate E);
    vm_compute; repeat constructor.
Defined.

(** The members of an invalid group cannot be queried: the toggle on a
    widget whose non-empty group name fails the whitelist returns before
    any mutation. *)
Lemma _handleToggle_invalid_group w m e g :
  dom w !! m = Some e ->
  getAttribute DATA_ATTRS.toggleGroup e = Some g ->
  g ≠ "" -> isValidGroupName g = false ->
  _handleToggle m w = w.
Proof.
  intros He Hg Hne Hv. unfold _handleToggle. rewrite He, Hg.
  destruct g as [|c r]; [done|]. by rewrite Hv.
Qed.

(** C7 as stated fails at the empty group name: it fails the whitelist,
    yet the toggle takes the ungrouped path, presses the widget and emits
    a [toggle] event. *)
Lemma toggle_empty_group_name_not_noop :
  isValidGroupName "" = false
  ∧ (dom toggle_page !! 4%nat ≫= getAttribute DATA_ATTRS.toggleGroup) = Some ""
  ∧ pressed_of toggle_page 4 = None
  ∧ pressed_of (_handleToggle 4 toggle_page) 4 = Some "true"
  ∧ dispatched toggle_page = []
  ∧ dispatched (_handleToggle 4 toggle_page)
    = [mkEvent 4 "toggle" (DetailToggle true)]
  ∧ _handleToggle 4 toggle_page ≠ toggle_page.
Proof.
  repeat split; try reflexivity.
  intros E. apply (f_equal dispatched) in E. vm_compute in E. discriminate E.
Qed.

(** C7, amended. For a group name that fails the whitelist,
    [setGroupValue] changes nothing, and so does the toggle on a widget
    carrying that name when the name is not empty: the world after the
    call is the world before it (no attribute changed, no event emitted). *)
Theorem invalid_group_name_noop (w : world) (g : string) :
  isValidGroupName g = false ->
  (∀ activeButton, setGroupValue g activeButton w = w)
  ∧ (g ≠ "" -> ∀ m e, dom w !! m = Some e ->
       getAttribute DATA_ATTRS.toggleGroup e = Some g ->
       _handleToggle m w = w).
Proof.
  intros Hv. split.
  - intros a. unfold setGroupValue. by rewrite Hv.
  - intros Hne m e He Hg. by apply (_handleToggle_invalid_group w m e g).
Qed.

(** A page on which node 1 carries the group name "a b". *)
Lemma invalid_group_name_noop_witness :
  let w := update_element 1 (setAttribute DATA_ATTRS.toggleGroup "a b") toggle_page in
  setGroupValue "a b" (Some 1%nat) w = w ∧ _handleToggle 1 w = w.
Proof.
  intros w.
  destruct (invalid_group_name_noop w "a b") as [H1 H2]; [reflexivity|].
  split; [apply H1|].
  eapply H2; [intros E; discriminate E|reflexivity|reflexivity].
Defined.

Lemma setGroupValue_lookup w g a i :
  isValidGroupName g = true ->
  dom (setGroupValue g a w) !! i
  = (if bool_decide (i ∈ group_members w g)
     then press_as (bool_decide (Some i = a)) else id)
    <$> dom w !! i.
Proof.
  intros Hv. unfold setGroupValue. rewrite Hv. cbn [negb].
  pose proof (foldl_update_lookup (fun _ => false)
                (fun btn => press_as (bool_decide (Some btn = a)))
                (group_members w g) w i (group_members_NoDup w g)) as E.
  cbn beta iota in E. rewrite andb_true_r in E.
  destruct a as [a|]; exact E.
Qed.

(** C8 as stated fails when the handle is no member of the group: every
    member ends up unpressed (here the member 2 was pressed before), and a
    [toggle] event claiming [pressed = true] is emitted on the handle. *)
Lemma setGroupValue_non_member_presses_none :
  let w' := setGroupValue "size" (Some 5%nat) toggle_page in
  isValidGroupName "size" = true
  ∧ group_members toggle_page "size" = [1; 2; 3]%nat
  ∧ group_members w' "size" = [1; 2; 3]%nat
  ∧ is_pressed toggle_page 2 = true
  ∧ filter (fun i => is_pressed w' i = true) (group_members w' "size") = []
  ∧ pressed_of w' 5 = None
  ∧ dispatched w' = [mkEvent 5 "toggle" (DetailToggle true)].
Proof. vm_compute. repeat split. Qed.

(** C8, amended. For a valid group name [g] and a handle [m] that is a
    member of the group, [setGroupValue g m] leaves [m] pressed and every
    other member unpressed: exactly one member of the group is pressed. *)
Theorem setGroupValue_exclusive (w : world) (g : string) (m : nat) :
  isValidGroupName g = true ->
  m ∈ group_members w g ->
  let w' := setGroupValue g (Some m) w in
  group_members w' g = group_members w g
  ∧ pressed_of w' m = Some "true"
  ∧ (∀ i, i ∈ group_members w g -> i ≠ m -> pressed_of w' i = Some "false")
  ∧ (∀ i, i ∈ group_members w' g -> is_pressed w' i = true -> i = m).
Proof.
  intros Hv Hm w'.
  pose proof (fun i => setGroupValue_lookup w g (Some m) i Hv) as L. fold w' in L.
  assert (Hon : pressed_of w' m = Some "true").
  { unfold pressed_of. rewrite L. rewrite bool_decide_eq_true_2 by done.
    apply group_members_spec in Hm as [_ (e & He & _)]. rewrite He. cbn [fmap option_fmap option_map mbind option_bind].
    rewrite press_as_pressed. by rewrite bool_decide_eq_true_2. }
  assert (Hoff : ∀ i, i ∈ group_members w g -> i ≠ m ->
                      pressed_of w' i = Some "false").
  { intros i Hi Hne. unfold pressed_of. rewrite L.
    rewrite bool_decide_eq_true_2 by done.
    apply group_members_spec in Hi as [_ (e & He & _)]. rewrite He. cbn [fmap option_fmap option_map mbind option_bind].
    rewrite press_as_pressed. rewrite bool_decide_eq_false_2; [done|congruence]. }
  assert (Hsame : group_members w' g = group_members w g).
  { apply group_members_same_place. apply Forall2_lookup. intros i. rewrite L.
    destruct (dom w !! i) as [ei|]; [|constructor]. cbn. constructor.
    destruct (bool_decide _); [apply press_as_same_place|apply same_place_refl]. }
  split; [done|]. split; [done|]. split; [done|].
  intros i Hi Hp. rewrite Hsame in Hi.
  destruct (decide (i = m)) as [|Hne]; [done|].
  specialize (Hoff i Hi Hne). unfold pressed_of, is_pressed in *.
  destruct (dom w' !! i) as [ei|]; [|done]. cbn in Hoff.
  unfold attr_is in Hp. apply bool_decide_eq_true in Hp.
  unfold getAttribute, ARIA.pressed in Hp. congruence.
Qed.

Lemma setGroupValue_exclusive_witness :
  let w' := setGroupValue "size" (Some 3%nat) toggle_page in
  pressed_of w' 3 = Some "true" ∧ pressed_of w' 2 = Some "false".
Proof.
  intros w'.
  assert (Hv : isValidGroupName "size" = true) by reflexivity.
  assert (Hm : 3%nat ∈ group_members toggle_page "size")
    by (vm_compute; repeat constructor).
  destruct (setGroupValue_exclusive toggle_page "size" 3 Hv Hm) as (_ & H1 & H2 & _).
  split; [exact H1|].
  apply H2; [vm_compute; repeat constructor|intros E; discriminate E].
Defined.

(** ** Detached widgets *)

Lemma elem_of_filter_timers (P : timer -> Prop) `{∀ t, Decision (P t)}
    (ts : list timer) (t : timer) :
  t ∈ filter P ts -> t ∈ ts.
Proof. rewrite list_elem_of_filter. tauto. Qed.

(** C5. When the widget [b] has left the tree, the expiry of its loading
    or auto-disable timer and the cancellation of its loading leave the
    store as it is (no attribute, disabled flag or markup of any node
    changes), dispatch no event and schedule nothing; they only discard
    bookkeeping of [b].  The expiry of a loading timer (the one of a click
    or the one of [setLoading]) and [cancelLoading] delete the timer entry
    and the snapshot of [b]; the expiry of the auto-disable timer, which
    belongs to a handler that takes no snapshot, deletes the timer entry
    and leaves the snapshot table alone.  All paths are total functions,
    so they cannot fail. *)
Theorem detached_only_discards (w : world) (b : nat) :
  isConnected (dom w) b = false ->
  (∀ t, timer_callback t = LoadingTimeout b
        ∨ (∃ p, timer_callback t = SetLoadingTimeout b p) ->
        only_bookkeeping_changed b true w (fire t w))
  ∧ (∀ t, timer_callback t = AutoDisableTimeout b ->
          only_bookkeeping_changed b false w (fire t w))
  ∧ only_bookkeeping_changed b true w (cancelLoading (Some b) w).
Proof.
  intros Hc. split; [|split].
  - intros [id due cb] Hcb. unfold fire. cbn [timer_callback timer_id timer_due] in *.
    destruct Hcb as [->|[p ->]];
      unfold run_callback, isElementConnected;
      cbn [dom with_now with_timers]; rewrite Hc;
      repeat split; cbn; intros t; apply elem_of_filter_timers.
  - intros [id due cb] Hcb. unfold fire. cbn [timer_callback timer_id timer_due] in *.
    subst cb. unfold run_callback, isElementConnected.
    cbn [dom with_now with_timers]. rewrite Hc.
    repeat split; cbn; intros t; apply elem_of_filter_timers.
  - unfold cancelLoading, clearExisting.
    destruct (buttonTimeouts w !! b) as [id|];
      unfold isElementConnected; cbn [dom clearTimeout with_timers]; rewrite Hc;
      repeat split; cbn; intros t; [apply elem_of_filter_timers|done].
Qed.

Lemma detached_only_discards_witness :
  let w := remove_node 1 (_handleLoading 1 loading_page) in
  buttonTimeouts w !! 1%nat = Some 2%positive
  ∧ buttonOriginalContent w !! 1%nat = Some (mkLoadingState "Save" false)
  ∧ only_bookkeeping_changed 1 true w (cancelLoading (Some 1%nat) w)
  ∧ buttonOriginalContent (cancelLoading (Some 1%nat) w) !! 1%nat = None
  ∧ only_bookkeeping_changed 1 true w
      (fire (mkTimer 2 150 (LoadingTimeout 1)) w)
  ∧ only_bookkeeping_changed 1 false w
      (fire (mkTimer 2 150 (AutoDisableTimeout 1)) w)
  ∧ buttonOriginalContent (fire (mkTimer 2 150 (AutoDisableTimeout 1)) w) !! 1%nat
    = Some (mkLoadingState "Save" false).
Proof.
  intros w.
  assert (Hc : isConnected (dom w) 1 = false) by reflexivity.
  destruct (detached_only_discards w 1 Hc) as (Hfire & Hauto & Hcancel).
  split; [reflexivity|]. split; [reflexivity|]. split; [exact Hcancel|].
  split; [reflexivity|]. split; [apply Hfire; by left|].
  split; [by apply Hauto|reflexivity].
Defined.

(** ** Cancelling without a session *)

Lemma classList_remove_not_contains c e :
  classList_contains c (classList_remove c e) = false.
Proof.
  unfold classList_contains, classList_remove. cbn.
  apply bool_decide_eq_false. rewrite list_elem_of_filter. tauto.
Qed.

(** The fields of a button after the reset without snapshot. *)
Local Ltac reset_fields :=
  cbn; eexists; split; [reflexivity|];
  split; [apply classList_remove_not_contains|];
  split; [|reflexivity];
  unfold getAttribute; cbn; by rewrite lookup_insert_eq.

(** C10. On a connected widget without a loading session (no snapshot,
    no timer entry) [cancelLoading] is not a no-op: the loading class is
    removed, [aria-busy] becomes "false", the widget is enabled whatever
    its disabled flag was, the completion announcement is scheduled on the
    live region, and a [loadingComplete] event is dispatched on it. *)
Theorem cancelLoading_without_session (w : world) (b : nat) (e : element) :
  dom w !! b = Some e ->
  isConnected (dom w) b = true ->
  buttonOriginalContent w !! b = None ->
  buttonTimeouts w !! b = None ->
  let w' := cancelLoading (Some b) w in
  (∃ e', dom w' !! b = Some e'
         ∧ classList_contains "btn--loading" e' = false
         ∧ getAttribute ARIA.busy e' = Some "false"
         ∧ disabled e' = false)
  ∧ (∀ r, liveRegion w = Some r ->
       timers w' = timers w ++ [mkTimer (nextTimerId w)
                                  (now w + DEFAULTS.announceDelay)
                                  (AnnounceTimeout (i18n_complete w))])
  ∧ dispatched w' = dispatched w ++ [mkEvent b "loadingComplete" DetailEmpty]
  ∧ w' ≠ w.
Proof.
  intros He Hc Hs Ht w'.
  assert (Hd : dispatched w'
               = dispatched w ++ [mkEvent b "loadingComplete" DetailEmpty]).
  { subst w'. unfold cancelLoading, clearExisting. rewrite Ht.
    unfold isElementConnected. rewrite Hc.
    unfold _resetLoadingState, _announce. rewrite Hs. world_simpl.
    by destruct (liveRegion w). }
  split; [|split; [|split; [exact Hd|]]].
  - subst w'. unfold cancelLoading, clearExisting. rewrite Ht.
    unfold isElementConnected. rewrite Hc.
    unfold _resetLoadingState, _announce. rewrite Hs. world_simpl.
    destruct (liveRegion w) as [r|]; world_simpl.
    + destruct (decide (r = b)) as [->|Hne].
      * rewrite !list_lookup_alter_eq, He. reset_fields.
      * rewrite list_lookup_alter_ne by done.
        rewrite !list_lookup_alter_eq, He. reset_fields.
    + rewrite !list_lookup_alter_eq, He. reset_fields.
  - intros r Hr. subst w'. unfold cancelLoading, clearExisting. rewrite Ht.
    unfold isElementConnected. rewrite Hc.
    unfold _resetLoadingState, _announce. rewrite Hs. world_simpl.
    rewrite Hr. world_simpl. reflexivity.
  - intros E. rewrite E in Hd. apply (f_equal length) in Hd.
    rewrite length_app in Hd. cbn in Hd. lia.
Qed.

Lemma cancelLoading_without_session_witness :
  let w' := cancelLoading (Some 1%nat) loading_page in
  dispatched w' = [mkEvent 1 "loadingComplete" DetailEmpty]
  ∧ timers w' = [mkTimer 1 150 (AnnounceTimeout "Action completed")].
Proof.
  intros w'.
  destruct (cancelLoading_without_session loading_page 1
              (set_innerHTML "Save"
                 (node "button" (ParentElement 0)
                    [("data-loading-text", "Saving"); ("data-loading-duration", "150")]
                    ["btn"])))
    as (_ & Ht & Hd & _); try reflexivity.
  split; [exact Hd|]. apply (Ht 2%nat). reflexivity.
Defined.

(** ** Announcements *)









(** The first message is on display in the meantime: its timer expires
    150 ms after the first call, 100 ms before the timer of the second. *)
Example announce_first_shows_meanwhile :
  let w2 := _announce "second" (advance 100 (_announce "first" loading_page)) in
  text_of (advance 49 w2) 2 = Some ""
  ∧ text_of (advance 50 w2) 2 = Some "first"
  ∧ text_of (advance 149 w2) 2 = Some "first"
  ∧ text_of (advance 150 w2) 2 = Some "second".
Proof. vm_compute. repeat split. Qed.

(** ** Loading sessions *)

Lemma loadingComplete_count_dispatch w b :
  loadingComplete_count (_dispatchEvent b "loadingComplete" DetailEmpty w) b
  = S (loadingComplete_count w b).
Proof.
  unfold loadingComplete_count. world_simpl. rewrite filter_app, length_app.
  rewrite filter_cons_True by done. cbn. lia.
Qed.

Lemma _announce_dispatched m w : dispatched (_announce m w) = dispatched w.
Proof. unfold _announce. by destruct (liveRegion w). Qed.

Lemma _announce_buttonTimeouts m w : buttonTimeouts (_announce m w) = buttonTimeouts w.
Proof. unfold _announce. by destruct (liveRegion w). Qed.

Lemma _announce_timers m w t :
  t ∈ timers (_announce m w) -> t ∈ timers w ∨ timer_id t = nextTimerId w.
Proof.
  unfold _announce. destruct (liveRegion w); world_simpl; [|by left].
  rewrite elem_of_app, list_elem_of_singleton. intros [?| ->]; [by left|by right].
Qed.

Lemma _announce_nextTimerId m w :
  (nextTimerId w <= nextTimerId (_announce m w))%positive.
Proof. unfold _announce. destruct (liveRegion w); world_simpl; lia. Qed.

Lemma _resetLoadingState_count w b :
  loadingComplete_count (_resetLoadingState b w) b = S (loadingComplete_count w b).
Proof.
  unfold _resetLoadingState. rewrite loadingComplete_count_dispatch. f_equal.
  unfold loadingComplete_count. rewrite _announce_dispatched.
  by destruct (buttonOriginalContent w !! b).
Qed.

Lemma _resetLoadingState_buttonTimeouts w b :
  buttonTimeouts (_resetLoadingState b w) = delete b (buttonTimeouts w).
Proof.
  unfold _resetLoadingState. world_simpl. rewrite _announce_buttonTimeouts.
  by destruct (buttonOriginalContent w !! b).
Qed.

Lemma _resetLoadingState_timers w b t :
  t ∈ timers (_resetLoadingState b w) ->
  t ∈ timers w ∨ timer_id t = nextTimerId w.
Proof.
  unfold _resetLoadingState. world_simpl. intros H.
  apply _announce_timers in H. by destruct (buttonOriginalContent w !! b).
Qed.

Lemma not_elem_of_clear (id : positive) (ts : list timer) (t : timer) :
  timer_id t = id -> t ∉ filter (fun t' => timer_id t' ≠ id) ts.
Proof. intros E. rewrite list_elem_of_filter. tauto. Qed.

Lemma no_session_without_entry w b :
  buttonTimeouts w !! b = None -> ∀ t, ¬ loading_session w b t.
Proof. intros H t (_ & Ht & _). congruence. Qed.

Lemma setLoading_element w b e d :
  dom w !! b = Some e ->
  (setLoading (HElement b) d w).1
  = let p := length (promises w) in
    let w := with_promises (fun l => l ++ [Pending]) w in
    let w := with_buttonOriginalContent (insert b (snapshot e)) w in
    let w := applyLoadingState b (clearExisting b w) in
    let w := _announce (i18n_loading w) w in
    with_buttonTimeouts (insert b (nextTimerId w))
      (setTimeout (SetLoadingTimeout b p)
         (timeout_delay
            (clamp_number d DEFAULTS.minDuration DEFAULTS.maxDuration)) w).
Proof. intros He. unfold setLoading. world_simpl. rewrite He. reflexivity. Qed.

(** While the loading class is on the button, a click starts no second
    countdown. *)
Lemma _handleLoading_while_loading w b e :
  dom w !! b = Some e ->
  classList_contains "btn--loading" e = true ->
  _handleLoading b w = preventDefault w.
Proof. intros He Hl. unfold _handleLoading. by rewrite He, Hl. Qed.

(** Both entry points open a session whose timer is due after the
    validated duration. *)
Lemma setLoading_opens_session w b e d :
  dom w !! b = Some e ->
  loading_session (setLoading (HElement b) d w).1 b
    (mkTimer (nextTimerId (_announce (i18n_loading w) w))
             (now w + timeout_delay
                        (clamp_number d DEFAULTS.minDuration DEFAULTS.maxDuration))
             (SetLoadingTimeout b (length (promises w)))).
Proof.
  intros He. rewrite (setLoading_element w b e d He). cbn zeta.
  set (w0 := applyLoadingState b _).
  assert (Hw0 : nextTimerId (_announce (i18n_loading w0) w0)
                = nextTimerId (_announce (i18n_loading w) w)
                ∧ now (_announce (i18n_loading w0) w0) = now w).
  { subst w0. unfold _announce, clearExisting. world_simpl.
    destruct (buttonTimeouts w !! b); world_simpl; by destruct (liveRegion w). }
  destruct Hw0 as [Hn Ht]. split; [|split].
  - world_simpl. rewrite Hn, Ht. rewrite elem_of_app, list_elem_of_singleton. by right.
  - world_simpl. by rewrite lookup_insert_eq, Hn.
  - right. by eexists.
Qed.

Lemma _handleLoading_opens_session w b e :
  dom w !! b = Some e ->
  classList_contains "btn--loading" e = false ->
  loading_session (_handleLoading b w) b
    (mkTimer (nextTimerId (_announce (i18n_loading w) w))
             (now w + parseDuration (getAttribute DATA_ATTRS.loadingDuration e)
                                    DEFAULTS.loadingDuration)
             (LoadingTimeout b)).
Proof.
  intros He Hl. unfold _handleLoading. rewrite He, Hl.
  set (w0 := applyLoadingState b _).
  assert (Hw0 : nextTimerId (clearExisting b (_announce (i18n_loading w0) w0))
                = nextTimerId (_announce (i18n_loading w) w)
                ∧ now (clearExisting b (_announce (i18n_loading w0) w0)) = now w).
  { subst w0. unfold _announce, clearExisting. world_simpl.
    destruct (liveRegion w); world_simpl;
      by destruct (buttonTimeouts w !! b). }
  destruct Hw0 as [Hn Ht]. split; [|split].
  - world_simpl. rewrite Hn, Ht. rewrite elem_of_app, list_elem_of_singleton. by right.
  - world_simpl. by rewrite lookup_insert_eq, Hn.
  - by left.
Qed.

(** C4 as stated fails for a cancellation that arrives after the expiry:
    the click starts one session on node 1, the expiry emits its
    [loadingComplete], and the late [cancelLoading] emits a second one. *)
Lemma cancel_after_expiry_emits_again :
  let w1 := _handleEvent 1 loading_page in
  let w2 := advance 150 w1 in
  let w3 := cancelLoading (Some 1%nat) w2 in
  buttonTimeouts w1 !! 1%nat = Some 2%positive
  ∧ loadingComplete_count w1 1 = 0%nat
  ∧ loadingComplete_count w2 1 = 1%nat
  ∧ buttonTimeouts w2 !! 1%nat = None
  ∧ loadingComplete_count w3 1 = 2%nat.
Proof. vm_compute. repeat split. Qed.

(** C4, amended. Let a loading session be open on an attached widget [b]
    with timer [t].  Starting loading again, with [setLoading] or with a
    click that finds the loading class absent, cancels [t] without any
    [loadingComplete] and opens a session with a timer of its own.  The
    expiry of [t] emits exactly one [loadingComplete] on [b] and closes the
    session; so does [cancelLoading] before the expiry, after which [t] is
    no longer pending and cannot expire. *)
Theorem loading_session_single_event (w : world) (b : nat) (t : timer) :
  loading_session w b t ->
  isConnected (dom w) b = true ->
  (timer_id t < nextTimerId w)%positive ->
  (∀ d, let w' := (setLoading (HElement b) d w).1 in
        (t ∉ timers w')
        ∧ loadingComplete_count w' b = loadingComplete_count w b
        ∧ ∃ t', loading_session w' b t')
  ∧ (∀ e, dom w !! b = Some e -> classList_contains "btn--loading" e = false ->
        let w' := _handleLoading b w in
        (t ∉ timers w')
        ∧ loadingComplete_count w' b = loadingComplete_count w b
        ∧ ∃ t', loading_session w' b t')
  ∧ (let w' := fire t w in
     loadingComplete_count w' b = S (loadingComplete_count w b)
     ∧ (t ∉ timers w')
     ∧ ∀ t', ¬ loading_session w' b t')
  ∧ (let w' := cancelLoading (Some b) w in
     loadingComplete_count w' b = S (loadingComplete_count w b)
     ∧ (t ∉ timers w')
     ∧ ∀ t', ¬ loading_session w' b t').
Proof.
  intros (Hin & Hslot & Hcb) Hc Hlt.
  destruct (isConnected_is_Some _ _ Hc) as [e He].
  split; [|split; [|split]].
  - intros d w'. subst w'. split; [|split].
    + rewrite (setLoading_element w b e d He). cbn zeta.
      unfold clearExisting. world_simpl. rewrite Hslot.
      set (w0 := applyLoadingState b _). set (msg := i18n_loading _).
      assert (Hw0 : timers w0 = filter (fun t' => timer_id t' ≠ timer_id t) (timers w)
                    ∧ nextTimerId w0 = nextTimerId w) by done.
      destruct Hw0 as (Hts & Hnid).
      rewrite elem_of_app, list_elem_of_singleton. intros [H|H].
      * apply _announce_timers in H as [H|H].
        -- rewrite Hts in H. by apply not_elem_of_clear in H.
        -- rewrite Hnid in H. lia.
      * pose proof (_announce_nextTimerId msg w0) as Hle.
        rewrite Hnid in Hle. rewrite H in Hlt. cbn [timer_id] in Hlt. lia.
    + rewrite (setLoading_element w b e d He). cbn zeta.
      unfold loadingComplete_count. world_simpl. rewrite _announce_dispatched.
      unfold clearExisting. world_simpl. by rewrite Hslot.
    + eexists. by apply (setLoading_opens_session w b e d).
  - intros e' He' Hl w'. subst w'. split; [|split].
    + unfold _handleLoading. rewrite He', Hl.
      set (w0 := applyLoadingState b _). set (msg := i18n_loading _).
      assert (Hw0 : nextTimerId w0 = nextTimerId w
                    ∧ buttonTimeouts w0 = buttonTimeouts w) by done.
      destruct Hw0 as (Hnid & Hbt).
      unfold clearExisting. rewrite _announce_buttonTimeouts, Hbt, Hslot.
      world_simpl. rewrite elem_of_app, list_elem_of_singleton. intros [H|H].
      * by apply not_elem_of_clear in H.
      * pose proof (_announce_nextTimerId msg w0) as Hle.
        rewrite Hnid in Hle. rewrite H in Hlt. cbn [timer_id] in Hlt. lia.
    + unfold _handleLoading. rewrite He', Hl.
      unfold loadingComplete_count, clearExisting. world_simpl.
      rewrite _announce_buttonTimeouts. world_simpl. rewrite Hslot. world_simpl.
      by rewrite _announce_dispatched.
    + eexists. by apply (_handleLoading_opens_session w b e').
  - intros w'. subst w'. unfold fire.
    set (w0 := with_now _ _).
    assert (Hw0 : dom w0 = dom w
                  ∧ timers w0 = filter (fun t' => timer_id t' ≠ timer_id t) (timers w)
                  ∧ nextTimerId w0 = nextTimerId w
                  ∧ loadingComplete_count w0 b = loadingComplete_count w b)
      by done.
    destruct Hw0 as (Hdom & Hts & Hnid & Hcnt).
    assert (Hreset : ∀ w1, w1 = _resetLoadingState b w0 ->
              loadingComplete_count w1 b = S (loadingComplete_count w b)
              ∧ (t ∉ timers w1) ∧ buttonTimeouts w1 !! b = None).
    { intros w1 ->. rewrite _resetLoadingState_count, Hcnt.
      split; [done|]. split.
      - intros H. apply _resetLoadingState_timers in H as [H|H].
        + rewrite Hts in H. by apply not_elem_of_clear in H.
        + rewrite Hnid in H. lia.
      - rewrite _resetLoadingState_buttonTimeouts. apply lookup_delete_eq. }
    destruct Hcb as [Hcb|[p Hcb]]; rewrite Hcb;
      unfold run_callback, isElementConnected; rewrite Hdom, Hc;
      destruct (Hreset _ eq_refl) as (H1 & H2 & H3).
    + split; [done|]. split; [done|]. by apply no_session_without_entry.
    + split; [done|]. split; [done|]. by apply no_session_without_entry.
  - intros w'. subst w'. unfold cancelLoading, clearExisting. rewrite Hslot.
    unfold isElementConnected. world_simpl. rewrite Hc.
    rewrite _resetLoadingState_count. split; [done|]. split.
    + intros H. apply _resetLoadingState_timers in H as [H|H].
      * world_simpl. by apply not_elem_of_clear in H.
      * world_simpl. cbn in H. lia.
    + apply no_session_without_entry.
      rewrite _resetLoadingState_buttonTimeouts. apply lookup_delete_eq.
Qed.

Lemma loading_session_single_event_witness :
  let w := _handleEvent 1 loading_page in
  let t := mkTimer 2 150 (LoadingTimeout 1) in
  loadingComplete_count (fire t w) 1 = 1%nat
  ∧ loadingComplete_count (cancelLoading (Some 1%nat) w) 1 = 1%nat.
Proof.
  intros w t.
  assert (Hs : loading_session w 1 t).
  { split; [vm_compute; repeat constructor|]. split; [reflexivity|by left]. }
  assert (Hc : isConnected (dom w) 1 = true) by reflexivity.
  assert (Hlt : (timer_id t < nextTimerId w)%positive) by reflexivity.
  destruct (loading_session_single_event w 1 t Hs Hc Hlt)
    as (_ & _ & (H1 & _) & (H2 & _)).
  split; [exact H1|exact H2].
Defined.

(** ** The completion signal of [setLoading] *)

(** A handle that is no widget: the promise is rejected and nothing else
    happens. *)
Lemma setLoading_rejects w d h :
  h = HNull ∨ h = HNonElement ->
  let '(w', p) := setLoading h d w in
  promises w' !! p = Some (Rejected "TypeError")
  ∧ w' = with_promises (fun l => l ++ [Rejected "TypeError"]) w.
Proof.
  intros [-> | ->]; unfold setLoading; world_simpl.
  all: assert (E : alter (fun old => match old with
                                     | Pending => Rejected "TypeError"
                                     | _ => old
                                     end)
                     (length (promises w)) (promises w ++ [Pending])
                   = promises w ++ [Rejected "TypeError"])
         by (rewrite alter_app_r_alt by done; by rewrite Nat.sub_diag).
  all: split; [rewrite list_lookup_alter_eq, lookup_app_r, Nat.sub_diag by done; done|].
  all: unfold settle, with_promises; world_simpl; by rewrite E.
Qed.

(** On natural expiry the callback of [setLoading] fulfils its promise,
    whether the button is attached or not. *)
Lemma setLoading_expiry_resolves w b p id due :
  promises w !! p = Some Pending ->
  promises (fire (mkTimer id due (SetLoadingTimeout b p)) w) !! p = Some Fulfilled.
Proof.
  intros Hp. unfold fire. world_simpl. unfold run_callback.
  set (w0 := with_now _ _).
  assert (E : ∀ w1, promises w1 = promises w ->
                    promises (settle p Fulfilled w1) !! p = Some Fulfilled).
  { intros w1 E. world_simpl. by rewrite list_lookup_alter_eq, E, Hp. }
  apply E. destruct (isElementConnected w0 b); [|done].
  subst w0. unfold _resetLoadingState, _announce. world_simpl.
  destruct (buttonOriginalContent w !! b); world_simpl;
    by destruct (liveRegion w).
Qed.

(** C3 at its failing input: [setLoading] on node 1, then [cancelLoading]
    100 ms later.  The reset runs (the loading class is gone and
    [loadingComplete] is dispatched), but the promise is still pending, and
    it stays pending when all timers have run out. *)
Theorem setLoading_cancel_never_resolves :
  let '(w1, p) := setLoading (HElement 1) 500 loading_page in
  let w2 := cancelLoading (Some 1%nat) (advance 100 w1) in
  let w3 := advance 100000 w2 in
  promises w1 !! p = Some Pending
  ∧ loadingComplete_count w2 1 = 1%nat
  ∧ matches_at (dom w2) (SelClass "btn--loading") 1 = false
  ∧ buttonTimeouts w2 !! 1%nat = None
  ∧ promises w2 !! p = Some Pending
  ∧ promises w3 !! p = Some Pending
  ∧ timers w3 = [].
Proof. vm_compute. repeat split. Qed.

(** The same session left to expire: the promise is fulfilled. *)
Example setLoading_expiry_fulfils :
  let '(w1, p) := setLoading (HElement 1) 500 loading_page in
  let w2 := advance 500 w1 in
  loadingComplete_count w2 1 = 1%nat ∧ promises w2 !! p = Some Fulfilled.
Proof. vm_compute. repeat split. Qed.

(** ** Dropdowns: the single-open policy *)

Lemma _closeAllDropdowns_openDropdowns w : openDropdowns (_closeAllDropdowns w) = [].
Proof. reflexivity. Qed.

(** The public operation closes every tracked dropdown before it opens
    its own. *)
Lemma openDropdown_single_open w d :
  is_Some (querySelector (dom w) d SELECTORS.dropdownTrigger) ->
  is_Some (querySelector (dom w) d SELECTORS.dropdownMenu) ->
  openDropdowns (openDropdown (Some d) w) = [d].
Proof.
  intros [t Ht] [m Hm]. unfold openDropdown. rewrite Ht, Hm.
  unfold _openDropdown. world_simpl. reflexivity.
Qed.

(** So does the click on the trigger of a closed dropdown. *)
Lemma _handleDropdown_single_open w dropdown trigger menu :
  querySelector (dom w) dropdown SELECTORS.dropdownTrigger = Some trigger ->
  querySelector (dom w) dropdown SELECTORS.dropdownMenu = Some menu ->
  matches_at (dom w) (SelClass "btn-dropdown__item") trigger = false ->
  is_expanded w trigger = false ->
  openDropdowns (_handleDropdown trigger dropdown w) = [dropdown].
Proof.
  intros Ht Hm Hi He. unfold _handleDropdown. rewrite Ht, Hm, Hi.
  rewrite Nat.eqb_refl. cbn [orb].
  assert (E : is_expanded (stopPropagation w) trigger = false) by exact He.
  rewrite E. cbn [negb]. unfold _openDropdown. world_simpl. reflexivity.
Qed.

(** C2 at its failing input: the first dropdown is opened by a click on
    its trigger (node 2), then ArrowDown is pressed on the trigger of the
    second, closed dropdown (node 6).  The keyboard path opens the second
    dropdown without closing the first: both are tracked as open and both
    carry [aria-expanded="true"]. *)
Theorem keyboard_open_keeps_other_open :
  let w1 := _handleEvent 2 dropdown_page in
  let w2 := _handleKeydown 6 KEYS.ARROW_DOWN w1 in
  openDropdowns w1 = [1%nat]
  ∧ is_expanded w1 1 = true
  ∧ is_expanded w1 5 = false
  ∧ openDropdowns w2 = [1%nat; 5%nat]
  ∧ is_expanded w2 1 = true ∧ is_expanded w2 2 = true
  ∧ is_expanded w2 5 = true ∧ is_expanded w2 6 = true.
Proof. vm_compute. repeat split. Qed.

(** From the same state, the click on the second trigger and the public
    [openDropdown] close the first dropdown. *)
Example other_paths_close_first :
  let w1 := _handleEvent 2 dropdown_page in
  let byClick := _handleEvent 6 w1 in
  let byCall := openDropdown (Some 5%nat) w1 in
  openDropdowns byClick = [5%nat]
  ∧ is_expanded byClick 1 = false ∧ is_expanded byClick 5 = true
  ∧ openDropdowns byCall = [5%nat]
  ∧ is_expanded byCall 1 = false ∧ is_expanded byCall 5 = true.
Proof. vm_compute. repeat split. Qed.

(** ** Running the timers *)

Lemma next_due_elem target ts t : next_due target ts = Some t -> t ∈ ts.
Proof.
  revert t. induction ts as [|t0 ts IH]; intros t; [done|].
  cbn [next_due]. destruct (next_due target ts) as [t'|].
  - destruct (_ && _); intros [= <-]; [left|right; by apply IH].
  - destruct (_ <=? _); intros [= <-]. left.
Qed.

Lemma weight_pos t : (1 <= weight t)%nat.
Proof. unfold weight. destruct (timer_callback t); lia. Qed.

Lemma total_weight_app ts ts' :
  total_weight (ts ++ ts') = (total_weight ts + total_weight ts')%nat.
Proof.
  unfold total_weight. induction ts as [|t ts IH]; [done|].
  cbn [app foldr]. lia.
Qed.

Lemma total_weight_filter (P : timer -> Prop) `{∀ t, Decision (P t)} ts :
  (total_weight (filter P ts) <= total_weight ts)%nat.
Proof.
  unfold total_weight. induction ts as [|t ts IH]; [done|]. rewrite filter_cons.
  destruct (decide (P t)); cbn [foldr]; lia.
Qed.

Lemma total_weight_clear t ts :
  t ∈ ts ->
  (total_weight (filter (fun t' => timer_id t' ≠ timer_id t) ts) + weight t
   <= total_weight ts)%nat.
Proof.
  induction 1 as [t ts|t t0 ts Hin IH].
  - rewrite filter_cons_False by (intros H; by apply H).
    pose proof (total_weight_filter (fun t' => timer_id t' ≠ timer_id t) ts).
    unfold total_weight in *. cbn [foldr]. lia.
  - rewrite filter_cons. unfold total_weight in *.
    destruct (decide _); cbn [foldr]; lia.
Qed.

Lemma _announce_total_weight m w :
  (total_weight (timers (_announce m w)) <= total_weight (timers w) + 1)%nat.
Proof.
  unfold _announce. destruct (liveRegion w); world_simpl; [|lia].
  rewrite total_weight_app. unfold total_weight at 2. cbn [foldr weight timer_callback]. lia.
Qed.

Lemma _resetLoadingState_total_weight b w :
  (total_weight (timers (_resetLoadingState b w)) <= total_weight (timers w) + 1)%nat.
Proof.
  unfold _resetLoadingState. world_simpl.
  etrans; [apply _announce_total_weight|].
  by destruct (buttonOriginalContent w !! b).
Qed.

Lemma run_callback_total_weight cb w :
  (total_weight (timers (run_callback cb w)) + 1
   <= total_weight (timers w) + match cb with
                                | LoadingTimeout _ | SetLoadingTimeout _ _ => 2
                                | _ => 1
                                end)%nat.
Proof.
  destruct cb as [b|b p|b|m]; unfold run_callback.
  - destruct (isElementConnected w b).
    + pose proof (_resetLoadingState_total_weight b w). lia.
    + world_simpl. lia.
  - world_simpl. destruct (isElementConnected w b).
    + pose proof (_resetLoadingState_total_weight b w). lia.
    + world_simpl. lia.
  - world_simpl. destruct (isElementConnected w b); world_simpl; lia.
  - destruct (liveRegion w) as [r|]; [|lia].
    destruct (isElementConnected w r); world_simpl; lia.
Qed.

Lemma fire_total_weight t w :
  t ∈ timers w ->
  (total_weight (timers (fire t w)) < total_weight (timers w))%nat.
Proof.
  intros Hin. unfold fire.
  pose proof (total_weight_clear t (timers w) Hin) as H1.
  set (w0 := with_now _ _).
  assert (E : timers w0 = filter (fun t' => timer_id t' ≠ timer_id t) (timers w))
    by done.
  pose proof (run_callback_total_weight (timer_callback t) w0) as H2.
  rewrite E in H2. unfold weight in H1.
  destruct (timer_callback t); lia.
Qed.

Lemma run_timers_complete fuel target w :
  (total_weight (timers w) <= fuel)%nat ->
  next_due target (timers (run_timers fuel target w)) = None.
Proof.
  revert w. induction fuel as [|fuel IH]; intros w Hle.
  - cbn [run_timers]. destruct (timers w) as [|t ts]; [done|].
    pose proof (weight_pos t). unfold total_weight in Hle. cbn [foldr] in Hle. lia.
  - cbn [run_timers]. destruct (next_due target (timers w)) as [t|] eqn:E; [|done].
    apply IH. apply next_due_elem in E.
    pose proof (fire_total_weight t w E). lia.
Qed.

(** The fuel of [advance] is enough: when [dt] milliseconds have passed,
    no pending timer is due any more. *)
Lemma advance_complete dt w :
  next_due (now w + dt) (timers (advance dt w)) = None.
Proof. unfold advance. world_simpl. by apply run_timers_complete. Qed.

(** ** Scenarios *)

(** A numeric prefix is read and the rest of the value ignored, as
    [parseInt] does. *)
Example parseDuration_reads_prefix :
  parseDuration (Some "250ms") 2000 = 250
  ∧ parseDuration (Some " 12abc") 2000 = 100
  ∧ parseDuration (Some "1e9") 2000 = 100
  ∧ parseDuration (Some "-0") 2000 = 100
  ∧ parseDuration (Some "99999999999999999999999") 2000 = 30000.
Proof. vm_compute. repeat split. Qed.

(** Group "size": a toggle on node 1, then on node 3. *)
Example toggle_group_scenario :
  let w1 := _handleEvent 1 toggle_page in
  let w2 := _handleEvent 3 w1 in
  (pressed_of w1 <$> [1; 2; 3]%nat) = [Some "true"; Some "false"; Some "false"]
  ∧ (pressed_of w2 <$> [1; 2; 3]%nat) = [Some "false"; Some "false"; Some "true"]
  ∧ dispatched w2 = [ mkEvent 1 "toggle" (DetailToggle true);
                      mkEvent 3 "toggle" (DetailToggle true) ].
Proof. vm_compute. repeat split. Qed.

(** A click on the loading button with [data-loading-duration="150"]:
    after 150 ms the button is idle again, with its markup, and
    [loadingComplete] was observed once. *)
Example loading_scenario :
  let w1 := _handleEvent 1 loading_page in
  let w2 := advance 150 w1 in
  matches_at (dom w1) (SelClass "btn--loading") 1 = true
  ∧ (dom w1 !! 1%nat ≫= getAttribute ARIA.busy) = Some "true"
  ∧ (disabled <$> dom w1 !! 1%nat) = Some true
  ∧ loadingComplete_count (advance 149 w1) 1 = 0%nat
  ∧ matches_at (dom w2) (SelClass "btn--loading") 1 = false
  ∧ (dom w2 !! 1%nat ≫= getAttribute ARIA.busy) = Some "false"
  ∧ (disabled <$> dom w2 !! 1%nat) = Some false
  ∧ (innerHTML <$> dom w2 !! 1%nat) = Some "Save"
  ∧ loadingComplete_count w2 1 = 1%nat.
Proof. vm_compute. repeat split. Qed.

(** ArrowDown inside an open menu of three items moves the focus from
    item to item and wraps around; ArrowUp on the first item goes to the
    last. *)
Example arrow_keys_cycle :
  let w0 := focus 4 (openDropdown (Some 1%nat) menu_page) in
  let w1 := _handleKeydown 4 KEYS.ARROW_DOWN w0 in
  let w2 := _handleKeydown 5 KEYS.ARROW_DOWN w1 in
  let w3 := _handleKeydown 6 KEYS.ARROW_DOWN w2 in
  activeElement w1 = Some 5%nat
  ∧ activeElement w2 = Some 6%nat
  ∧ activeElement w3 = Some 4%nat
  ∧ activeElement (_handleKeydown 4 KEYS.ARROW_UP w3) = Some 6%nat
  ∧ openDropdowns w3 = [1%nat].
Proof. vm_compute. repeat split. Qed.

(** A widget that carries both the loading and the auto-disable marker:
    the click stores the loading timer and the auto-disable handler, which
    shares the timer table, clears it at once. *)
Example auto_disable_clears_loading_timer :
  let w := update_element 1 (setAttribute DATA_ATTRS.autoDisable "") loading_page in
  let w1 := _handleEvent 1 w in
  timer_callback <$> timers w1
  = [AnnounceTimeout "Loading, please wait"; AutoDisableTimeout 1].
Proof. vm_compute. reflexivity. Qed.

(** * Further properties *)

(** ** Tree queries under attribute updates *)

Lemma same_outline_refl e : same_outline e e.
Proof. by repeat split. Qed.

Lemma same_outline_trans e1 e2 e3 :
  same_outline e1 e2 -> same_outline e2 e3 -> same_outline e1 e3.
Proof. intros (?&?&?&?) (?&?&?&?). repeat split; congruence. Qed.

Lemma same_outline_length d d' : Forall2 same_outline d d' -> length d' = length d.
Proof. intros H. symmetry. by eapply Forall2_length. Qed.

Lemma matches_same_outline sel e e' :
  structural sel -> same_outline e e' -> matches sel e' = matches sel e.
Proof.
  intros Hs (Ht & _ & Hc & Hr). destruct sel as [|c|n v]; [| |done].
  - cbn. unfold attr_is. by rewrite Ht, Hr.
  - cbn. unfold classList_contains. by rewrite Hc.
Qed.

Lemma matches_at_same_outline d d' sel i :
  structural sel -> Forall2 same_outline d d' ->
  matches_at d' sel i = matches_at d sel i.
Proof.
  intros Hs HF. unfold matches_at. rewrite Forall2_lookup in HF.
  destruct (HF i) as [e e' He|]; [|done]. by apply matches_same_outline.
Qed.

Lemma isConnected_same_outline d d' i :
  Forall2 same_outline d d' -> isConnected d' i = isConnected d i.
Proof.
  intros HF. unfold isConnected. rewrite (same_outline_length _ _ HF).
  generalize (length d) as fuel. intros fuel. revert i.
  induction fuel as [|fuel IH]; intros i; [done|].
  cbn [isConnected_from]. rewrite Forall2_lookup in HF.
  destruct (HF i) as [e e' (_ & Hp & _)|]; [|done].
  rewrite Hp. destruct (parentNode e); auto.
Qed.

Lemma contains_same_outline d d' a b :
  Forall2 same_outline d d' -> contains d' a b = contains d a b.
Proof.
  intros HF. unfold contains. rewrite (same_outline_length _ _ HF).
  generalize (length d) as fuel. intros fuel. revert b.
  induction fuel as [|fuel IH]; intros b; [done|].
  cbn [contains_from]. rewrite Forall2_lookup in HF.
  destruct (HF b) as [e e' (_ & Hp & _)|].
  - rewrite Hp. destruct (a =? b)%nat; [done|]. destruct (parentNode e); auto.
  - done.
Qed.

Lemma closest_same_outline d d' sel i :
  structural sel -> Forall2 same_outline d d' ->
  closest d' sel i = closest d sel i.
Proof.
  intros Hs HF. unfold closest. rewrite (same_outline_length _ _ HF).
  generalize (length d) as fuel. intros fuel. revert i.
  induction fuel as [|fuel IH]; intros i; [done|].
  cbn [closest_from]. rewrite Forall2_lookup in HF.
  destruct (HF i) as [e e' He|]; [|done].
  rewrite (matches_same_outline sel e e' Hs He).
  destruct He as (_ & Hp & _). rewrite Hp.
  destruct (matches sel e); [done|]. destruct (parentNode e); auto.
Qed.

Lemma querySelectorAll_same_outline d d' root sel :
  structural sel -> Forall2 same_outline d d' ->
  querySelectorAll d' root sel = querySelectorAll d root sel.
Proof.
  intros Hs HF. unfold querySelectorAll. rewrite (same_outline_length _ _ HF).
  apply list_filter_iff. intros i.
  by rewrite (contains_same_outline _ _ root i HF),
             (matches_at_same_outline _ _ sel i Hs HF).
Qed.

Lemma querySelector_same_outline d d' root sel :
  structural sel -> Forall2 same_outline d d' ->
  querySelector d' root sel = querySelector d root sel.
Proof.
  intros Hs HF. unfold querySelector.
  by rewrite (querySelectorAll_same_outline _ _ root sel Hs HF).
Qed.

Lemma alter_Forall2 (R : element -> element -> Prop) (f : element -> element)
    (i : nat) (d : list element) :
  (∀ e, R e e) -> (∀ e, R e (f e)) -> Forall2 R d (alter f i d).
Proof.
  intros Hrefl Hf. apply Forall2_lookup. intros j.
  destruct (decide (i = j)) as [->|Hne].
  - rewrite list_lookup_alter_eq. destruct (d !! j); constructor. apply Hf.
  - rewrite list_lookup_alter_ne by done. destruct (d !! j); constructor. apply Hrefl.
Qed.

Lemma Forall2_trans_elements (R : element -> element -> Prop) d1 d2 d3 :
  (∀ e1 e2 e3, R e1 e2 -> R e2 e3 -> R e1 e3) ->
  Forall2 R d1 d2 -> Forall2 R d2 d3 -> Forall2 R d1 d3.
Proof.
  intros Ht H12. revert d3. induction H12 as [|e1 e2 d1 d2 He H12 IH]; intros d3 H23.
  - by inversion H23.
  - inversion H23 as [|? e3 ? d3' He' H23']; subst. constructor; eauto.
Qed.

(** ** Closing dropdowns *)

Lemma closed_from_fields e e' :
  closed_from e e' ->
  tagName e' = tagName e ∧ parentNode e' = parentNode e
  ∧ classList e' = classList e ∧ disabled e' = disabled e
  ∧ innerHTML e' = innerHTML e ∧ textContent e' = textContent e
  ∧ hidden e' = hidden e.
Proof. intros [-> _]. by repeat split. Qed.

Lemma closed_from_refl e : closed_from e e.
Proof. split; [by destruct e|]. split; [done|]. split; by left. Qed.

Lemma closed_from_trans e1 e2 e3 :
  closed_from e1 e2 -> closed_from e2 e3 -> closed_from e1 e3.
Proof.
  intros H12 H23.
  pose proof (closed_from_fields _ _ H12) as (?&?&?&?&?&?&?).
  pose proof (closed_from_fields _ _ H23) as (?&?&?&?&?&?&?).
  destruct H12 as (_ & Hk & He & Hp), H23 as (_ & Hk' & He' & Hp').
  split; [|split; [|split]].
  - destruct e1, e2, e3; cbn in *. unfold with_attributes. cbn. f_equal; congruence.
  - intros k ??. rewrite Hk', Hk by done. done.
  - destruct He' as [->| ->]; [exact He|by right].
  - destruct Hp' as [->| ->]; [exact Hp|by right].
Qed.

Lemma closed_from_outline e e' : closed_from e e' -> same_outline e e'.
Proof.
  intros H. pose proof (closed_from_fields _ _ H) as (?&?&?&_).
  destruct H as (_ & Hk & _). repeat split; try done.
  unfold getAttribute. by apply Hk.
Qed.

Lemma closed_from_collapse e :
  closed_from e (setAttribute ARIA.expanded "false" e).
Proof.
  split; [done|]. split; [|split].
  - intros k Hk _. cbn. by rewrite lookup_insert_ne.
  - right. cbn. by rewrite lookup_insert_eq.
  - left. cbn. by rewrite lookup_insert_ne.
Qed.

Lemma closed_from_unplace e :
  closed_from e (removeAttribute DATA_ATTRS.position e).
Proof.
  split; [done|]. split; [|split].
  - intros k _ Hk. cbn. by rewrite lookup_delete_ne.
  - left. cbn. by rewrite lookup_delete_ne.
  - right. cbn. by rewrite lookup_delete_eq.
Qed.

Lemma alter_opt_Forall2 (R : element -> element -> Prop) f o d :
  (∀ e, R e e) -> (∀ e, R e (f e)) -> Forall2 R d (alter_opt f o d).
Proof.
  intros Hrefl Hf. destruct o as [i|]; cbn.
  - by apply alter_Forall2.
  - apply Forall2_lookup. intros j. destruct (d !! j); constructor. apply Hrefl.
Qed.

Lemma alter_opt_lookup f o (l : list element) i :
  alter_opt f o l !! i = (if bool_decide (o = Some i) then f else id) <$> l !! i.
Proof.
  destruct o as [j|]; cbn.
  - destruct (decide (j = i)) as [->|Hne].
    + rewrite bool_decide_eq_true_2 by done. apply list_lookup_alter_eq.
    + rewrite bool_decide_eq_false_2 by congruence.
      rewrite list_lookup_alter_ne by done. by rewrite option_fmap_id.
  - by rewrite option_fmap_id.
Qed.

Lemma Forall2_closed_outline d d' :
  Forall2 closed_from d d' -> Forall2 same_outline d d'.
Proof.
  intros H. eapply Forall2_impl; [exact H|]. apply closed_from_outline.
Qed.

(** [_closeDropdown] written out: the trigger, the container and the
    menu are updated in the store, and the container leaves the set. *)
Lemma _closeDropdown_unfold w d t :
  _closeDropdown d t w
  = with_openDropdowns (set_delete d)
      (with_dom
         (fun l =>
            alter_opt (removeAttribute DATA_ATTRS.position)
              (querySelector (dom w) d SELECTORS.dropdownMenu)
              (alter (setAttribute ARIA.expanded "false") d
                 (alter_opt (setAttribute ARIA.expanded "false")
                    (resolve_trigger w d t) l)))
         w).
Proof.
  unfold _closeDropdown. fold (resolve_trigger w d t).
  set (w1 := with_openDropdowns _ _).
  assert (HF : Forall2 same_outline (dom w) (dom w1)).
  { subst w1. apply Forall2_closed_outline.
    eapply Forall2_trans_elements; [apply closed_from_trans| |].
    - apply (alter_opt_Forall2 closed_from (setAttribute ARIA.expanded "false")
               (resolve_trigger w d t));
        [apply closed_from_refl|apply closed_from_collapse].
    - destruct (resolve_trigger w d t); world_simpl;
        apply alter_Forall2; auto using closed_from_refl, closed_from_collapse. }
  rewrite (querySelector_same_outline _ _ d SELECTORS.dropdownMenu I HF).
  subst w1.
  destruct (resolve_trigger w d t), (querySelector (dom w) d SELECTORS.dropdownMenu);
    reflexivity.
Qed.

Lemma _closeDropdown_closed_from w d t :
  Forall2 closed_from (dom w) (dom (_closeDropdown d t w)).
Proof.
  rewrite _closeDropdown_unfold. world_simpl.
  eapply Forall2_trans_elements; [apply closed_from_trans| |].
  - apply (alter_opt_Forall2 closed_from (setAttribute ARIA.expanded "false")
             (resolve_trigger w d t));
      [apply closed_from_refl|apply closed_from_collapse].
  - eapply Forall2_trans_elements; [apply closed_from_trans| |].
    + apply alter_Forall2; [apply closed_from_refl|apply closed_from_collapse].
    + apply alter_opt_Forall2; [apply closed_from_refl|apply closed_from_unplace].
Qed.

Lemma alter_lookup_bool f (l : list element) i j :
  alter f i l !! j = (if bool_decide (i = j) then f else id) <$> l !! j.
Proof.
  destruct (decide (i = j)) as [->|Hne].
  - rewrite bool_decide_eq_true_2 by done. apply list_lookup_alter_eq.
  - rewrite bool_decide_eq_false_2 by done.
    rewrite list_lookup_alter_ne by done. by rewrite option_fmap_id.
Qed.

(** What [_closeDropdown] does to a node, given whether the node is the
    trigger, the container and the menu. *)
Lemma _closeDropdown_lookup w d t i :
  dom (_closeDropdown d t w) !! i
  = (fun e =>
       (if bool_decide (querySelector (dom w) d SELECTORS.dropdownMenu = Some i)
        then removeAttribute DATA_ATTRS.position else id)
         ((if bool_decide (d = i) then setAttribute ARIA.expanded "false" else id)
            ((if bool_decide (resolve_trigger w d t = Some i)
              then setAttribute ARIA.expanded "false" else id) e)))
    <$> dom w !! i.
Proof.
  rewrite _closeDropdown_unfold. world_simpl.
  rewrite alter_opt_lookup, alter_lookup_bool, alter_opt_lookup.
  by destruct (dom w !! i).
Qed.

(** Each of the three updates, applied twice, is the update applied once,
    and so is any of their combinations. *)
Lemma close_updates_idempotent (b1 b2 b3 : bool) e :
  let F := fun e =>
    (if b3 then removeAttribute DATA_ATTRS.position else id)
      ((if b2 then setAttribute ARIA.expanded "false" else id)
         ((if b1 then setAttribute ARIA.expanded "false" else id) e)) in
  F (F e) = F e.
Proof.
  destruct b1, b2, b3; cbn; unfold setAttribute, removeAttribute, with_attributes;
    cbn; f_equal; apply map_eq; intros k;
    repeat first [rewrite lookup_insert | rewrite lookup_delete];
    repeat case_decide; congruence.
Qed.

Lemma set_delete_idempotent x s : set_delete x (set_delete x s) = set_delete x s.
Proof.
  unfold set_delete. rewrite list_filter_filter. apply list_filter_iff. tauto.
Qed.

Lemma collapsed_stays_collapsed (b : bool) e :
  getAttribute ARIA.expanded
    ((if b then removeAttribute DATA_ATTRS.position else id)
       (setAttribute ARIA.expanded "false" e))
  = Some "false".
Proof.
  unfold getAttribute. destruct b; cbn.
  - rewrite lookup_delete_ne by done. by rewrite lookup_insert_eq.
  - by rewrite lookup_insert_eq.
Qed.

Lemma _closeDropdown_spec (w : world) (d : nat) (t : option nat) :
  let w' := _closeDropdown d t w in
  (∀ x, x ∈ openDropdowns w' <-> x ∈ openDropdowns w ∧ x ≠ d)
  ∧ (is_Some (dom w !! d) -> expanded_of w' d = Some "false")
  ∧ (∀ t', resolve_trigger w d t = Some t' -> is_Some (dom w !! t') ->
           expanded_of w' t' = Some "false")
  ∧ (∀ m, querySelector (dom w) d SELECTORS.dropdownMenu = Some m ->
          (dom w' !! m ≫= getAttribute DATA_ATTRS.position) = None)
  ∧ Forall2 closed_from (dom w) (dom w')
  ∧ _closeDropdown d t w' = w'.
Proof.
  intros w'.
  assert (HF : Forall2 closed_from (dom w) (dom w'))
    by apply _closeDropdown_closed_from.
  split; [|split; [|split; [|split; [|split; [exact HF|]]]]].
  - intros x. subst w'. rewrite _closeDropdown_unfold. world_simpl.
    unfold set_delete. rewrite list_elem_of_filter. tauto.
  - intros [e He]. unfold expanded_of. subst w'.
    rewrite _closeDropdown_lookup, He. rewrite (bool_decide_eq_true_2 (d = d)) by done.
    cbn. apply collapsed_stays_collapsed.
  - intros t' Ht [e He]. unfold expanded_of. subst w'.
    rewrite _closeDropdown_lookup, He, Ht.
    rewrite (bool_decide_eq_true_2 (Some t' = Some t')) by done.
    cbn. destruct (bool_decide (d = t')); apply collapsed_stays_collapsed.
  - intros m Hm. subst w'. rewrite _closeDropdown_lookup, Hm.
    rewrite (bool_decide_eq_true_2 (Some m = Some m)) by done.
    destruct (dom w !! m) as [e|]; [|done]. cbn.
    unfold getAttribute. cbn. by rewrite lookup_delete_eq.
  - assert (HO : Forall2 same_outline (dom w) (dom w'))
      by by apply Forall2_closed_outline.
    rewrite (_closeDropdown_unfold w' d t).
    assert (Ht : resolve_trigger w' d t = resolve_trigger w d t).
    { unfold resolve_trigger. destruct t; [done|].
      apply (querySelector_same_outline _ _ d SELECTORS.dropdownTrigger I HO). }
    rewrite Ht, (querySelector_same_outline _ _ d SELECTORS.dropdownMenu I HO).
    subst w'. rewrite _closeDropdown_unfold.
    unfold with_openDropdowns, with_dom. world_simpl.
    rewrite set_delete_idempotent. f_equal.
    apply list_eq. intros i.
    repeat first [rewrite alter_opt_lookup | rewrite alter_lookup_bool].
    destruct (dom w !! i) as [e|]; [|done]. cbn. f_equal.
    apply (close_updates_idempotent
             (bool_decide (resolve_trigger w d t = Some i))
             (bool_decide (d = i))
             (bool_decide (querySelector (dom w) d SELECTORS.dropdownMenu = Some i))).
Qed.

(** Closing a dropdown takes the container out of the set of open
    dropdowns and leaves every other member in; the container and the
    trigger end with [aria-expanded="false"] and the menu without
    [data-position]; the store changes in those attributes only; and
    closing once more changes nothing. *)
Theorem _closeDropdown_effect (w : world) (d : nat) (t : option nat) :
  let w' := _closeDropdown d t w in
  (∀ x, x ∈ openDropdowns w' <-> x ∈ openDropdowns w ∧ x ≠ d)
  ∧ (is_Some (dom w !! d) -> expanded_of w' d = Some "false")
  ∧ (∀ t', resolve_trigger w d t = Some t' -> is_Some (dom w !! t') ->
           expanded_of w' t' = Some "false")
  ∧ (∀ m, querySelector (dom w) d SELECTORS.dropdownMenu = Some m ->
          (dom w' !! m ≫= getAttribute DATA_ATTRS.position) = None)
  ∧ Forall2 closed_from (dom w) (dom w')
  ∧ _closeDropdown d t w' = w'.
Proof. exact (_closeDropdown_spec w d t). Qed.

Lemma _closeDropdown_effect_witness :
  let w := _handleEvent 2 dropdown_page in
  expanded_of w 1 = Some "true"
  ∧ expanded_of (_closeDropdown 1 None w) 1 = Some "false"
  ∧ expanded_of (_closeDropdown 1 None w) 2 = Some "false".
Proof.
  intros w. split; [reflexivity|].
  destruct (_closeDropdown_effect w 1 None) as (_ & Hd & Ht & _).
  split.
  - apply Hd. eexists. reflexivity.
  - apply Ht; [reflexivity|]. eexists. reflexivity.
Defined.

Lemma closed_from_keeps_collapsed w w' i :
  Forall2 closed_from (dom w) (dom w') ->
  expanded_of w i = Some "false" -> expanded_of w' i = Some "false".
Proof.
  intros HF. unfold expanded_of. rewrite Forall2_lookup in HF.
  destruct (HF i) as [e e' (_ & _ & He & _)|]; [|done].
  cbn [mbind option_bind]. unfold getAttribute.
  intros H. destruct He as [He|He]; congruence.
Qed.

Lemma closed_from_never_expands w w' i :
  Forall2 closed_from (dom w) (dom w') ->
  is_expanded w' i = true -> is_expanded w i = true.
Proof.
  intros HF. unfold is_expanded. rewrite Forall2_lookup in HF.
  destruct (HF i) as [e e' (_ & _ & He & _)|]; [|done].
  unfold attr_is, getAttribute. rewrite !bool_decide_eq_true.
  intros H. destruct He as [He|He]; congruence.
Qed.

Lemma world_eta_dom_open w :
  w = with_openDropdowns (fun _ => openDropdowns w) (with_dom (fun _ => dom w) w).
Proof. by destruct w. Qed.

(** The loop of [_closeAllDropdowns] over any list of containers. *)
Lemma close_loop_effect (l : list nat) (w : world) :
  let w' := foldl (fun w dropdown =>
                     if isElementConnected w dropdown
                     then _closeDropdown dropdown None w else w) w l in
  w' = with_openDropdowns (fun _ => openDropdowns w') (with_dom (fun _ => dom w') w)
  ∧ Forall2 closed_from (dom w) (dom w')
  ∧ (∀ d, d ∈ l -> isConnected (dom w) d = true ->
          expanded_of w' d = Some "false"
          ∧ ∀ t, querySelector (dom w) d SELECTORS.dropdownTrigger = Some t ->
                 expanded_of w' t = Some "false").
Proof.
  revert w. induction l as [|a l IH]; intros w; cbn [foldl].
  - split; [apply world_eta_dom_open|]. split.
    + apply Forall2_lookup. intros i. destruct (dom w !! i); constructor.
      apply closed_from_refl.
    + intros d Hd. by apply not_elem_of_nil in Hd.
  - set (w1 := if isElementConnected w a then _closeDropdown a None w else w).
    destruct (IH w1) as (Hframe & HF & Hin).
    set (w' := foldl _ w1 l) in *.
    assert (HF1 : Forall2 closed_from (dom w) (dom w1)).
    { subst w1. destruct (isElementConnected w a).
      - apply _closeDropdown_closed_from.
      - apply Forall2_lookup. intros i. destruct (dom w !! i); constructor.
        apply closed_from_refl. }
    assert (HO1 : Forall2 same_outline (dom w) (dom w1))
      by by apply Forall2_closed_outline.
    split; [|split].
    + rewrite Hframe at 1. subst w1. destruct (isElementConnected w a); [|done].
      by rewrite _closeDropdown_unfold.
    + eapply Forall2_trans_elements; [apply closed_from_trans|exact HF1|exact HF].
    + intros d Hd Hc. apply elem_of_cons in Hd as [->|Hd].
      * assert (E : w1 = _closeDropdown a None w).
        { subst w1. unfold isElementConnected. by rewrite Hc. }
        destruct (_closeDropdown_spec w a None) as (_ & Ha & Ht & _).
        rewrite <-E in Ha, Ht.
        pose proof (isConnected_is_Some _ _ Hc) as Hsome. split.
        -- apply (closed_from_keeps_collapsed w1 w' a HF). by apply Ha.
        -- intros t Hq. apply (closed_from_keeps_collapsed w1 w' t HF).
           apply Ht; [exact Hq|].
           unfold querySelector in Hq. apply head_Some_elem_of in Hq.
           unfold querySelectorAll in Hq. apply list_elem_of_filter in Hq as [_ Hq].
           apply elem_of_seq in Hq. apply lookup_lt_is_Some. lia.
      * destruct (Hin d Hd) as [H1 H2].
        { by rewrite (isConnected_same_outline _ _ d HO1). }
        split; [exact H1|]. intros t Hq. apply H2.
        by rewrite (querySelector_same_outline _ _ d SELECTORS.dropdownTrigger I HO1).
Qed.

Lemma _closeAllDropdowns_spec (w : world) :
  let w' := _closeAllDropdowns w in
  w' = with_openDropdowns (fun _ => []) (with_dom (fun _ => dom w') w)
  ∧ Forall2 closed_from (dom w) (dom w')
  ∧ (∀ d, d ∈ openDropdowns w -> isConnected (dom w) d = true ->
          expanded_of w' d = Some "false"
          ∧ ∀ t, querySelector (dom w) d SELECTORS.dropdownTrigger = Some t ->
                 expanded_of w' t = Some "false")
  ∧ (∀ i, is_expanded w' i = true -> is_expanded w i = true).
Proof.
  intros w'. destruct (close_loop_effect (openDropdowns w) w) as (Hframe & HF & Hin).
  split; [|split; [exact HF|split; [exact Hin|]]].
  - subst w'. unfold _closeAllDropdowns. rewrite Hframe at 1. reflexivity.
  - intros i. by apply closed_from_never_expands.
Qed.

(** [_closeAllDropdowns] empties the set of open dropdowns; every tracked
    container that is attached, and its trigger, end with
    [aria-expanded="false"]; no node becomes expanded; and nothing but the
    store and the set changes, the store only in [aria-expanded] and
    [data-position]. *)
Theorem _closeAllDropdowns_effect (w : world) :
  let w' := _closeAllDropdowns w in
  w' = with_openDropdowns (fun _ => []) (with_dom (fun _ => dom w') w)
  ∧ Forall2 closed_from (dom w) (dom w')
  ∧ (∀ d, d ∈ openDropdowns w -> isConnected (dom w) d = true ->
          expanded_of w' d = Some "false"
          ∧ ∀ t, querySelector (dom w) d SELECTORS.dropdownTrigger = Some t ->
                 expanded_of w' t = Some "false")
  ∧ (∀ i, is_expanded w' i = true -> is_expanded w i = true).
Proof. exact (_closeAllDropdowns_spec w). Qed.

Lemma _closeAllDropdowns_effect_witness :
  let w := _handleKeydown 6 KEYS.ARROW_DOWN (_handleEvent 2 dropdown_page) in
  openDropdowns w = [1; 5]%nat
  ∧ expanded_of (_closeAllDropdowns w) 1 = Some "false"
  ∧ expanded_of (_closeAllDropdowns w) 5 = Some "false".
Proof.
  intros w. split; [reflexivity|].
  destruct (_closeAllDropdowns_effect w) as (_ & _ & H & _).
  assert (H1 : 1%nat ∈ openDropdowns w) by (vm_compute; repeat constructor).
  assert (H5 : 5%nat ∈ openDropdowns w) by (vm_compute; repeat constructor).
  split.
  - exact (proj1 (H 1%nat H1 eq_refl)).
  - exact (proj1 (H 5%nat H5 eq_refl)).
Defined.

(** ** Opening dropdowns *)

Lemma contains_is_Some d a b : contains d a b = true -> is_Some (d !! a).
Proof.
  unfold contains. generalize (length d) as fuel. intros fuel. revert b.
  induction fuel as [|fuel IH]; intros b; [done|].
  cbn [contains_from]. destruct (Nat.eqb_spec a b) as [->|Hne].
  - by rewrite bool_decide_eq_true.
  - destruct (d !! b) as [e|]; [|done].
    destruct (parentNode e); try done. apply IH.
Qed.

Lemma querySelector_Some d root sel i :
  querySelector d root sel = Some i ->
  is_Some (d !! i) ∧ is_Some (d !! root) ∧ i ≠ root
  ∧ contains d root i = true ∧ matches_at d sel i = true.
Proof.
  unfold querySelector. intros H. apply head_Some_elem_of in H.
  unfold querySelectorAll in H. apply list_elem_of_filter in H as [H Hi].
  apply andb_true_iff in H as [H Hm]. apply andb_true_iff in H as [Hne Hc].
  apply negb_true_iff, Nat.eqb_neq in Hne. apply elem_of_seq in Hi.
  split; [apply lookup_lt_is_Some; lia|].
  split; [by apply (contains_is_Some d root i)|]. done.
Qed.

Lemma _openDropdown_lookup w t d m i :
  dom (_openDropdown t d m w) !! i
  = (if bool_decide (i = d ∨ i = t) then setAttribute ARIA.expanded "true" else id)
    <$> dom w !! i.
Proof.
  unfold _openDropdown. world_simpl. rewrite !alter_lookup_bool.
  destruct (dom w !! i) as [e|]; [|done]. cbn. f_equal.
  destruct (decide (i = d)) as [Hd|Hd], (decide (i = t)) as [Ht|Ht].
  - subst d t. rewrite !bool_decide_eq_true_2 by auto.
    unfold setAttribute, with_attributes. cbn. f_equal. apply insert_insert_eq.
  - subst d. rewrite (bool_decide_eq_true_2 (i = i)) by done.
    rewrite (bool_decide_eq_false_2 (t = i)) by done.
    by rewrite bool_decide_eq_true_2 by auto.
  - subst t. rewrite (bool_decide_eq_true_2 (i = i)) by done.
    rewrite (bool_decide_eq_false_2 (d = i)) by done.
    by rewrite bool_decide_eq_true_2 by auto.
  - rewrite (bool_decide_eq_false_2 (d = i)) by done.
    rewrite (bool_decide_eq_false_2 (t = i)) by done.
    by rewrite bool_decide_eq_false_2 by tauto.
Qed.

(** The public [openDropdown] on a container with a trigger and a menu:
    afterwards the container is the only tracked dropdown, the container
    and the trigger carry [aria-expanded="true"], every other dropdown
    that was tracked and attached carries "false", one frame callback is
    requested, and no event is dispatched and no timer started.  On a null
    handle, or when the trigger or the menu is missing, nothing happens. *)
Theorem openDropdown_effect (w : world) (d : nat) :
  openDropdown None w = w
  ∧ (querySelector (dom w) d SELECTORS.dropdownTrigger = None
     ∨ querySelector (dom w) d SELECTORS.dropdownMenu = None ->
     openDropdown (Some d) w = w)
  ∧ (∀ t m,
       querySelector (dom w) d SELECTORS.dropdownTrigger = Some t ->
       querySelector (dom w) d SELECTORS.dropdownMenu = Some m ->
       let w' := openDropdown (Some d) w in
       openDropdowns w' = [d]
       ∧ expanded_of w' d = Some "true"
       ∧ expanded_of w' t = Some "true"
       ∧ (∀ d', d' ∈ openDropdowns w -> isConnected (dom w) d' = true ->
                d' ≠ d -> d' ≠ t -> expanded_of w' d' = Some "false")
       ∧ frames w' = frames w ++ [mkFrame d m]
       ∧ dispatched w' = dispatched w
       ∧ timers w' = timers w).
Proof.
  split; [reflexivity|]. split.
  - intros [H|H]; unfold openDropdown; rewrite H; [done|].
    by destruct (querySelector (dom w) d SELECTORS.dropdownTrigger).
  - intros t m Ht Hm w'.
    destruct (_closeAllDropdowns_spec w) as (Hframe & HF & Hclosed & _).
    destruct (querySelector_Some _ _ _ _ Ht) as ([et Het] & [ed Hed] & _).
    assert (E : w' = _openDropdown t d m (_closeAllDropdowns w)).
    { subst w'. unfold openDropdown. by rewrite Ht, Hm. }
    rewrite Forall2_lookup in HF.
    split; [|split; [|split; [|split; [|split; [|split]]]]].
    + rewrite E. reflexivity.
    + unfold expanded_of. rewrite E, _openDropdown_lookup.
      rewrite bool_decide_eq_true_2 by auto.
      destruct (HF d) as [e e' _|]; [|congruence]. cbn.
      unfold getAttribute. cbn. by rewrite lookup_insert_eq.
    + unfold expanded_of. rewrite E, _openDropdown_lookup.
      rewrite bool_decide_eq_true_2 by auto.
      destruct (HF t) as [e e' _|]; [|congruence]. cbn.
      unfold getAttribute. cbn. by rewrite lookup_insert_eq.
    + intros d' Hin Hc Hd Hnt. destruct (Hclosed d' Hin Hc) as [H _].
      unfold expanded_of in *. rewrite E, _openDropdown_lookup.
      rewrite bool_decide_eq_false_2 by tauto.
      by rewrite option_fmap_id.
    + rewrite E. unfold _openDropdown. world_simpl. by rewrite Hframe.
    + rewrite E. unfold _openDropdown. world_simpl. by rewrite Hframe.
    + rewrite E. unfold _openDropdown. world_simpl. by rewrite Hframe.
Qed.

Lemma openDropdown_effect_witness :
  let w := _handleEvent 2 dropdown_page in
  let w' := openDropdown (Some 5%nat) w in
  openDropdowns w' = [5%nat]
  ∧ expanded_of w' 5 = Some "true"
  ∧ expanded_of w' 1 = Some "false".
Proof.
  intros w w'.
  destruct (openDropdown_effect w 5) as (_ & _ & H).
  assert (Ht : querySelector (dom w) 5 SELECTORS.dropdownTrigger = Some 6%nat)
    by (vm_compute; reflexivity).
  assert (Hm : querySelector (dom w) 5 SELECTORS.dropdownMenu = Some 7%nat)
    by (vm_compute; reflexivity).
  destruct (H 6%nat 7%nat Ht Hm) as (H1 & H2 & _ & H4 & _).
  split; [exact H1|]. split; [exact H2|].
  apply H4; [vm_compute; repeat constructor|vm_compute; reflexivity|lia|lia].
Defined.



(** ** The item cache *)

Lemma _getDropdownItems_hit w menu c :
  dropdownItemCache w !! menu = Some c ->
  now w - dc_timestamp c < DEFAULTS.cacheMaxAge ->
  _getDropdownItems menu w = (dc_items c, w).
Proof.
  intros Hc Hf. unfold _getDropdownItems. rewrite Hc.
  destruct (Z.ltb_spec (now w - dc_timestamp c) DEFAULTS.cacheMaxAge); [done|lia].
Qed.

Lemma _getDropdownItems_miss w menu :
  (∀ c, dropdownItemCache w !! menu = Some c ->
        DEFAULTS.cacheMaxAge <= now w - dc_timestamp c) ->
  _getDropdownItems menu w
  = (querySelectorAll (dom w) menu SELECTORS.dropdownItem,
     with_dropdownItemCache
       (insert menu (mkDropdownCache
                       (querySelectorAll (dom w) menu SELECTORS.dropdownItem) (now w)))
       w).
Proof.
  intros H. unfold _getDropdownItems.
  destruct (dropdownItemCache w !! menu) as [c|]; [|done].
  specialize (H c eq_refl).
  destruct (Z.ltb_spec (now w - dc_timestamp c) DEFAULTS.cacheMaxAge); [lia|done].
Qed.

Lemma _getDropdownItems_spec (w : world) (menu : nat) :
  let r := _getDropdownItems menu w in
  (∃ c, dropdownItemCache r.2 !! menu = Some c
        ∧ dc_items c = r.1
        ∧ (∀ w2, dropdownItemCache w2 !! menu = Some c ->
                 now w2 - dc_timestamp c < DEFAULTS.cacheMaxAge ->
                 _getDropdownItems menu w2 = (r.1, w2)))
  ∧ r.2 = with_dropdownItemCache (fun _ => dropdownItemCache r.2) w
  ∧ _getDropdownItems menu r.2 = r
  ∧ (_getDropdownItems menu (_invalidateDropdownCache menu w)).1
    = querySelectorAll (dom w) menu SELECTORS.dropdownItem
  ∧ (∀ c, dropdownItemCache w !! menu = Some c ->
          DEFAULTS.cacheMaxAge <= now w - dc_timestamp c ->
          r.1 = querySelectorAll (dom w) menu SELECTORS.dropdownItem).
Proof.
  intros r.
  assert (Hcases :
    (∃ c, dropdownItemCache w !! menu = Some c
          ∧ now w - dc_timestamp c < DEFAULTS.cacheMaxAge)
    ∨ (∀ c, dropdownItemCache w !! menu = Some c ->
            DEFAULTS.cacheMaxAge <= now w - dc_timestamp c)).
  { destruct (dropdownItemCache w !! menu) as [c|]; [|right; by intros].
    destruct (Z.lt_ge_cases (now w - dc_timestamp c) DEFAULTS.cacheMaxAge);
      [left; eauto|right; by intros ? [= <-]]. }
  assert (Hpost : ∃ c, dropdownItemCache r.2 !! menu = Some c
                       ∧ dc_items c = r.1
                       ∧ now r.2 - dc_timestamp c < DEFAULTS.cacheMaxAge).
  { destruct Hcases as [(c & Hc & Hf)|Hmiss]; subst r.
    - rewrite (_getDropdownItems_hit w menu c Hc Hf). by exists c.
    - rewrite (_getDropdownItems_miss w menu Hmiss). eexists. split; [|split].
      + world_simpl. apply lookup_insert_eq.
      + reflexivity.
      + world_simpl. cbn. unfold DEFAULTS.cacheMaxAge. lia. }
  split; [|split; [|split; [|split]]].
  - destruct Hpost as (c & Hc & Hi & _). exists c. split; [done|]. split; [done|].
    intros w2 Hc2 Hf2. rewrite <-Hi. by apply _getDropdownItems_hit.
  - destruct Hcases as [(c & Hc & Hf)|Hmiss]; subst r.
    + rewrite (_getDropdownItems_hit w menu c Hc Hf). by destruct w.
    + by rewrite (_getDropdownItems_miss w menu Hmiss).
  - destruct Hpost as (c & Hc & Hi & Hf).
    rewrite (_getDropdownItems_hit r.2 menu c Hc Hf), Hi. by destruct r.
  - rewrite _getDropdownItems_miss; [done|].
    intros c. unfold _invalidateDropdownCache. world_simpl.
    by rewrite lookup_delete_eq.
  - intros c Hc Hold. subst r. rewrite _getDropdownItems_miss; [done|].
    intros c' Hc'. congruence.
Qed.



(** ** Keyboard navigation *)

Lemma indexOf_lookup (items : list nat) (k x : nat) :
  NoDup items -> items !! k = Some x -> indexOf (Some x) items = Z.of_nat k.
Proof.
  revert k. induction items as [|y items IH]; intros k Hnd Hk; [done|].
  apply NoDup_cons in Hnd as [Hy Hnd]. cbn [indexOf].
  destruct k as [|k]; cbn in Hk.
  - injection Hk as ->. by rewrite bool_decide_eq_true_2.
  - rewrite bool_decide_eq_false_2.
    + rewrite (IH k Hnd Hk). destruct (Z.ltb_spec (Z.of_nat k) 0); lia.
    + intros [= ->]. apply Hy. by eapply list_elem_of_lookup_2.
Qed.

Lemma indexOf_absent (items : list nat) (o : option nat) :
  (∀ x, o = Some x -> x ∉ items) -> indexOf o items = -1.
Proof.
  induction items as [|y items IH]; intros H; [done|]. cbn [indexOf].
  rewrite bool_decide_eq_false_2.
  - rewrite IH; [done|]. intros x Hx Hin. apply (H x Hx). by right.
  - intros Hy. apply (H y Hy). by left.
Qed.

Lemma _getDropdownItems_frame w menu :
  dom (_getDropdownItems menu w).2 = dom w
  ∧ activeElement (_getDropdownItems menu w).2 = activeElement w
  ∧ openDropdowns (_getDropdownItems menu w).2 = openDropdowns w
  ∧ dispatched (_getDropdownItems menu w).2 = dispatched w.
Proof.
  destruct (_getDropdownItems_spec w menu) as (_ & -> & _). done.
Qed.

(** What the four navigation keys do in an open dropdown with items: the
    default action is prevented and the focus goes to the item at the
    index the key selects. *)
Lemma navigation_key w target d t m key idx :
  querySelector (dom w) d SELECTORS.dropdownTrigger = Some t ->
  querySelector (dom w) d SELECTORS.dropdownMenu = Some m ->
  is_expanded w t = true ->
  (_getDropdownItems m w).1 ≠ [] ->
  let items := (_getDropdownItems m w).1 in
  let c := indexOf (activeElement w) items in
  let len := Z.of_nat (length items) in
  (key = KEYS.ARROW_DOWN ∧ idx = (if c <? len - 1 then c + 1 else 0)
   ∨ key = KEYS.ARROW_UP ∧ idx = (if 0 <? c then c - 1 else len - 1)
   ∨ key = KEYS.HOME ∧ idx = 0
   ∨ key = KEYS.END_ ∧ idx = len - 1) ->
  _handleDropdownKeyboard target key d w
  = focus_item items idx (preventDefault (_getDropdownItems m w).2).
Proof.
  intros Ht Hm He Hne items c len Hkey.
  destruct (_getDropdownItems_frame w m) as (Hdom & Hact & _).
  unfold _handleDropdownKeyboard. rewrite Ht, Hm.
  destruct (_getDropdownItems m w) as [items' w1] eqn:E. cbn [fst snd] in *.
  subst items c len.
  assert (He1 : is_expanded w1 t = true) by (unfold is_expanded; by rewrite Hdom).
  assert (Hlen : (0 <? Z.of_nat (length items')) = true).
  { apply Z.ltb_lt. destruct items'; [done|cbn; lia]. }
  rewrite He1, Hact, Hlen.
  destruct Hkey as [[-> ->]|[[-> ->]|[[-> ->]|[-> ->]]]]; reflexivity.
Qed.

Lemma can_focus_true d y :
  can_focus d y = true ->
  isConnected d y = true ∧ ∀ e, d !! y = Some e -> actually_disabled e = false.
Proof.
  unfold can_focus. destruct (d !! y) as [e|]; [|done].
  rewrite !andb_true_iff, negb_true_iff. intros [[[Hc Hd] _] _].
  split; [done|]. by intros ? [= <-].
Qed.

Lemma focus_cases i w :
  focus i w = with_activeElement (fun _ => Some i) w ∨ focus i w = w.
Proof. unfold focus. destruct (can_focus (dom w) i); auto. Qed.

Lemma rendered_closed d d' i :
  Forall2 closed_from d d' -> rendered d' i = rendered d i.
Proof.
  intros HF. unfold rendered. rewrite <- (Forall2_length _ _ _ HF).
  generalize (length d) as fuel. intros fuel. revert i.
  induction fuel as [|fuel IH]; intros i; [done|].
  cbn [rendered_from]. rewrite Forall2_lookup in HF.
  destruct (HF i) as [e e' Hcl|]; [|done].
  destruct (closed_from_fields _ _ Hcl) as (_ & -> & _ & _ & _ & _ & ->).
  destruct (parentNode e); by rewrite ?IH.
Qed.

(** Closing dropdowns does not change which nodes can take the focus. *)
Lemma can_focus_closed d d' i :
  Forall2 closed_from d d' -> can_focus d' i = can_focus d i.
Proof.
  intros HF. unfold can_focus.
  rewrite (rendered_closed _ _ i HF),
          (isConnected_same_outline _ _ i (Forall2_closed_outline _ _ HF)).
  rewrite Forall2_lookup in HF. destruct (HF i) as [e e' Hcl|]; [|done].
  destruct (closed_from_fields _ _ Hcl) as (Ht & _ & _ & Hd & _).
  destruct Hcl as (_ & Hk & _).
  unfold actually_disabled, focusable_kind, is_form_control, hasAttribute,
    getAttribute.
  by rewrite Ht, Hd, !Hk.
Qed.

(** The focus after [focus()] in a world where the same nodes can take
    the focus as in [w] and the focus is where it is in [w]. *)
Lemma focus_outcome_focus w w0 y :
  can_focus (dom w0) y = can_focus (dom w) y ->
  activeElement w0 = activeElement w ->
  focus_outcome w y (activeElement (focus y w0)).
Proof.
  intros Hd Ha. unfold focus. rewrite Hd.
  destruct (can_focus (dom w) y) eqn:E; split.
  - done.
  - intros H. destruct (can_focus_true _ _ E) as [Hc Hdis].
    destruct H as [H|(e & He & H)]; [congruence|]. by rewrite (Hdis e He) in H.
  - intros H. congruence.
  - intros _. exact Ha.
Qed.

(** In an open dropdown whose items are [items], with the focus on the
    item at index [k], ArrowDown aims at the next item and from the last
    one at the first, ArrowUp at the previous item and from the first one
    at the last; with the focus on no item, ArrowDown aims at the first
    item and ArrowUp at the last.  Home and End aim at the first and the
    last item.  The focus moves to the item aimed at when that item can
    take the focus; when the item is detached or disabled the focus stays
    where it was: the handler tries no further item. *)
Theorem arrow_keys_move_focus (w : world) (target d t m : nat) :
  querySelector (dom w) d SELECTORS.dropdownTrigger = Some t ->
  querySelector (dom w) d SELECTORS.dropdownMenu = Some m ->
  is_expanded w t = true ->
  let items := (_getDropdownItems m w).1 in
  let n := length items in
  let press key := activeElement (_handleDropdownKeyboard target key d w) in
  let aims key k := ∀ y, items !! k = Some y -> focus_outcome w y (press key) in
  NoDup items ->
  items ≠ [] ->
  (∀ k x, items !! k = Some x -> activeElement w = Some x ->
          aims KEYS.ARROW_DOWN ((k + 1) mod n)%nat
          ∧ aims KEYS.ARROW_UP ((k + n - 1) mod n)%nat)
  ∧ ((∀ x, activeElement w = Some x -> x ∉ items) ->
     aims KEYS.ARROW_DOWN 0%nat
     ∧ aims KEYS.ARROW_UP (n - 1)%nat)
  ∧ aims KEYS.HOME 0%nat
  ∧ aims KEYS.END_ (n - 1)%nat.
Proof.
  intros Ht Hm He items n press aims Hnd Hne.
  assert (Hn : (0 < n)%nat) by (subst n; destruct items; [done|cbn; lia]).
  assert (Hfocus : ∀ key idx j,
    (key = KEYS.ARROW_DOWN
       ∧ idx = (if indexOf (activeElement w) items <? Z.of_nat n - 1
                then indexOf (activeElement w) items + 1 else 0)
     ∨ key = KEYS.ARROW_UP
       ∧ idx = (if 0 <? indexOf (activeElement w) items
                then indexOf (activeElement w) items - 1 else Z.of_nat n - 1)
     ∨ key = KEYS.HOME ∧ idx = 0
     ∨ key = KEYS.END_ ∧ idx = Z.of_nat n - 1) ->
    idx = Z.of_nat j -> (j < n)%nat -> aims key j).
  { intros key idx j Hkey -> Hj y Hy. subst press. cbn beta.
    rewrite (navigation_key w target d t m key (Z.of_nat j) Ht Hm He Hne Hkey).
    fold items. unfold focus_item.
    destruct (Z.ltb_spec (Z.of_nat j) 0); [lia|]. rewrite Nat2Z.id, Hy.
    destruct (_getDropdownItems_frame w m) as (Hdom & Hact & _).
    apply focus_outcome_focus; [|done].
    change (dom (preventDefault ?x)) with (dom x). by rewrite Hdom. }
  split; [|split; [|split]].
  - intros k x Hk Hx. pose proof (lookup_lt_Some _ _ _ Hk) as Hlt. fold n in Hlt.
    pose proof (indexOf_lookup items k x Hnd Hk) as Hidx. rewrite <-Hx in Hidx.
    split.
    + destruct (decide (k + 1 < n)%nat) as [Hs|Hs].
      * apply (Hfocus _ (Z.of_nat k + 1)); [|rewrite Nat.mod_small by done; lia
                                            |by apply Nat.mod_upper_bound, Nat.neq_0_lt_0].
        left. split; [done|]. rewrite Hidx.
        destruct (Z.ltb_spec (Z.of_nat k) (Z.of_nat n - 1)); [done|lia].
      * assert (k + 1 = n)%nat as -> by lia. rewrite Nat.Div0.mod_same.
        apply (Hfocus _ 0); [|done|done].
        left. split; [done|]. rewrite Hidx.
        destruct (Z.ltb_spec (Z.of_nat k) (Z.of_nat n - 1)); [lia|done].
    + destruct k as [|k].
      * rewrite Nat.add_0_l, Nat.mod_small by lia.
        apply (Hfocus _ (Z.of_nat n - 1)); [|lia|lia].
        right. left. split; [done|]. by rewrite Hidx.
      * replace (S k + n - 1)%nat with (k + 1 * n)%nat by lia.
        rewrite Nat.Div0.mod_add, Nat.mod_small by lia.
        apply (Hfocus _ (Z.of_nat (S k) - 1)); [|lia|lia].
        right. left. split; [done|]. rewrite Hidx.
        destruct (Z.ltb_spec 0 (Z.of_nat (S k))); [done|lia].
  - intros Habs. pose proof (indexOf_absent items _ Habs) as Hidx. split.
    + apply (Hfocus _ 0); [|done|done]. left. split; [done|]. rewrite Hidx.
      destruct (Z.ltb_spec (-1) (Z.of_nat n - 1)); [done|lia].
    + apply (Hfocus _ (Z.of_nat n - 1)); [|lia|lia].
      right. left. split; [done|]. by rewrite Hidx.
  - apply (Hfocus _ 0); [|done|done]. right. right. left. done.
  - apply (Hfocus _ (Z.of_nat n - 1)); [|lia|lia]. right. right. right. done.
Qed.

Lemma arrow_keys_move_focus_witness :
  let w := focus 4 (openDropdown (Some 1%nat) menu_page) in
  let w' := update_element 5 (set_disabled true) w in
  activeElement (_handleDropdownKeyboard 4 KEYS.ARROW_DOWN 1 w) = Some 5%nat
  ∧ activeElement (_handleDropdownKeyboard 4 KEYS.ARROW_UP 1 w) = Some 6%nat
  ∧ activeElement (_handleDropdownKeyboard 4 KEYS.ARROW_DOWN 1 w') = Some 4%nat.
Proof.
  intros w w'.
  assert (Facts : ∀ v, dom v = dom w ∨ dom v = dom w' ->
            activeElement v = Some 4%nat ->
            dropdownItemCache v = ∅ ->
            querySelector (dom v) 1 SELECTORS.dropdownTrigger = Some 2%nat
            ∧ querySelector (dom v) 1 SELECTORS.dropdownMenu = Some 3%nat
            ∧ is_expanded v 2 = true
            ∧ (_getDropdownItems 3 v).1 = [4; 5; 6]%nat).
  { intros v Hv Ha Hcache. unfold _getDropdownItems, is_expanded.
    rewrite Hcache, lookup_empty. cbn [fst].
    destruct Hv as [-> | ->]; vm_compute; done. }
  assert (Hrun : ∀ v, dom v = dom w ∨ dom v = dom w' ->
            activeElement v = Some 4%nat ->
            dropdownItemCache v = ∅ ->
            ∀ y, [4; 5; 6]%nat !! 1%nat = Some y ->
                 focus_outcome v y
                   (activeElement (_handleDropdownKeyboard 4 KEYS.ARROW_DOWN 1 v))
                 ∧ ∀ z, [4; 5; 6]%nat !! 2%nat = Some z ->
                        focus_outcome v z
                          (activeElement (_handleDropdownKeyboard 4 KEYS.ARROW_UP 1 v))).
  { intros v Hv Ha Hcache y Hy.
    destruct (Facts v Hv Ha Hcache) as (Ht & Hm & He & Hitems).
    assert (Hnd : NoDup (_getDropdownItems 3 v).1).
    { rewrite Hitems. apply (bool_decide_unpack _). vm_compute. exact I. }
    assert (Hne : (_getDropdownItems 3 v).1 ≠ []) by (by rewrite Hitems).
    destruct (arrow_keys_move_focus v 4 1 2 3 Ht Hm He Hnd Hne) as (H & _).
    assert (H0 : (_getDropdownItems 3 v).1 !! 0%nat = Some 4%nat)
      by (by rewrite Hitems).
    destruct (H 0%nat 4%nat H0 Ha) as [Hdown Hup].
    rewrite Hitems in Hdown, Hup. split; [by apply Hdown|].
    intros z Hz. by apply Hup. }
  assert (Hw : dom w = dom w ∨ dom w = dom w') by (by left).
  assert (Hw' : dom w' = dom w ∨ dom w' = dom w') by (by right).
  assert (Ha : activeElement w = Some 4%nat) by (vm_compute; reflexivity).
  assert (Ha' : activeElement w' = Some 4%nat) by (vm_compute; reflexivity).
  assert (Hc : dropdownItemCache w = ∅) by (vm_compute; reflexivity).
  assert (Hc' : dropdownItemCache w' = ∅) by (vm_compute; reflexivity).
  destruct (Hrun w Hw Ha Hc 5%nat eq_refl) as [[Hdown _] Hup].
  destruct (Hup 6%nat eq_refl) as [Hup' _].
  destruct (Hrun w' Hw' Ha' Hc' 5%nat eq_refl) as [[_ Hstay] _].
  assert (F5 : can_focus (dom w) 5 = true) by (vm_compute; reflexivity).
  assert (F6 : can_focus (dom w) 6 = true) by (vm_compute; reflexivity).
  assert (D5 : actually_disabled <$> dom w' !! 5%nat = Some true)
    by (vm_compute; reflexivity).
  split; [exact (Hdown F5)|]. split; [exact (Hup' F6)|].
  rewrite Hstay; [exact Ha'|]. right.
  destruct (dom w' !! 5%nat) as [e|]; [|discriminate D5].
  exists e. split; [reflexivity|]. by injection D5.
Defined.

(** Escape and Tab in a dropdown.  On an open dropdown both close it;
    Escape also calls [focus()] on the trigger, prevents the default
    action and stops the propagation: the focus moves to the trigger when
    the trigger can take it and stays where it was when the trigger is
    detached or disabled.  Tab leaves the focus and both flags alone, so
    the browser moves the focus on.  On a closed dropdown neither key
    changes the store, the set of open dropdowns or the focus.  No custom
    event is dispatched in either case. *)
Theorem escape_and_tab (w : world) (target d t m : nat) (key : string) :
  closest (dom w) SELECTORS.dropdown target = Some d ->
  querySelector (dom w) d SELECTORS.dropdownTrigger = Some t ->
  querySelector (dom w) d SELECTORS.dropdownMenu = Some m ->
  key = KEYS.ESCAPE ∨ key = KEYS.TAB ->
  let w' := _handleKeydown target key w in
  dispatched w' = dispatched w
  ∧ (is_expanded w t = false ->
     dom w' = dom w ∧ openDropdowns w' = openDropdowns w
     ∧ activeElement w' = activeElement w
     ∧ defaultPrevented w' = false ∧ propagationStopped w' = false)
  ∧ (is_expanded w t = true ->
     (d ∉ openDropdowns w')
     ∧ expanded_of w' d = Some "false" ∧ expanded_of w' t = Some "false"
     ∧ (key = KEYS.ESCAPE -> focus_outcome w t (activeElement w'))
     ∧ (key = KEYS.TAB -> activeElement w' = activeElement w)
     ∧ defaultPrevented w' = bool_decide (key = KEYS.ESCAPE)
     ∧ propagationStopped w' = bool_decide (key = KEYS.ESCAPE)).
Proof.
  intros Hd Ht Hm Hkey w'.
  set (w0 := new_event w).
  destruct (_getDropdownItems_spec w0 m) as (_ & Hframe & _).
  destruct (_getDropdownItems m w0) as [items w1] eqn:E. cbn [fst snd] in Hframe.
  assert (Hw1 : dom w1 = dom w ∧ openDropdowns w1 = openDropdowns w
                ∧ activeElement w1 = activeElement w
                ∧ dispatched w1 = dispatched w
                ∧ defaultPrevented w1 = false ∧ propagationStopped w1 = false)
    by (by rewrite Hframe).
  destruct Hw1 as (Hdom & Hopen & Hact & Hdis & Hdp & Hps).
  assert (Hexp : is_expanded w1 t = is_expanded w t)
    by (unfold is_expanded; by rewrite Hdom).
  set (wc := _closeDropdown d (Some t) w1).
  assert (Ew : w' = if is_expanded w t
                    then (if bool_decide (key = KEYS.ESCAPE)
                          then stopPropagation (preventDefault (focus t wc))
                          else wc)
                    else w1).
  { subst w' wc. unfold _handleKeydown. fold w0.
    change (dom w0) with (dom w). rewrite Hd.
    unfold _handleDropdownKeyboard. change (dom w0) with (dom w).
    rewrite Ht, Hm, E, Hexp. by destruct Hkey as [-> | ->]. }
  destruct (_closeDropdown_spec w1 d (Some t)) as (Hin & Hcd & Hct & _ & HF & _).
  fold wc in Hin, Hcd, Hct, HF.
  destruct (querySelector_Some _ _ _ _ Ht) as (Hte & Hde & _).
  rewrite <-Hdom in Hte, Hde.
  specialize (Hcd Hde). specialize (Hct t eq_refl Hte).
  assert (Hcdis : dispatched wc = dispatched w
                  ∧ activeElement wc = activeElement w
                  ∧ defaultPrevented wc = false
                  ∧ propagationStopped wc = false).
  { subst wc. rewrite _closeDropdown_unfold.
    cbn [dispatched activeElement defaultPrevented propagationStopped
         with_openDropdowns with_dom]. done. }
  destruct Hcdis as (Hc1 & Hc2 & Hc3 & Hc4).
  assert (Hfo : focus_outcome w t (activeElement (focus t wc))).
  { apply focus_outcome_focus; [|exact Hc2].
    rewrite <- Hdom. by apply can_focus_closed. }
  assert (Hnotin : d ∉ openDropdowns wc) by (intros H; by apply Hin in H as [_ H]).
  assert (Hfocused : dom (focus t wc) = dom wc
                     ∧ openDropdowns (focus t wc) = openDropdowns wc
                     ∧ dispatched (focus t wc) = dispatched wc)
    by (destruct (focus_cases t wc) as [-> | ->]; done).
  destruct Hfocused as (Hf1 & Hf2 & Hf3).
  split; [|split].
  - rewrite Ew. destruct (is_expanded w t); [|done].
    destruct (bool_decide (key = KEYS.ESCAPE)); [|done].
    cbn [dispatched stopPropagation preventDefault with_propagationStopped
         with_defaultPrevented]. by rewrite Hf3.
  - intros He. rewrite Ew, He. done.
  - intros He. rewrite Ew, He.
    destruct (bool_decide_reflect (key = KEYS.ESCAPE)) as [Hk|Hk].
    + unfold expanded_of.
      cbn [dom openDropdowns activeElement defaultPrevented propagationStopped
           stopPropagation preventDefault with_propagationStopped
           with_defaultPrevented].
      rewrite Hf1, Hf2. fold (expanded_of wc d). fold (expanded_of wc t).
      split; [done|]. split; [done|]. split; [done|]. split; [done|].
      split; [|done]. intros ->. done.
    + split; [done|]. split; [done|]. split; [done|]. split; [done|].
      split; [done|]. by rewrite Hc3, Hc4.
Qed.

Lemma escape_and_tab_witness :
  let w := _handleEvent 2 dropdown_page in
  let w2 := update_element 2 (set_disabled true) (focus 4 w) in
  activeElement (_handleKeydown 4 KEYS.ESCAPE w) = Some 2%nat
  ∧ defaultPrevented (_handleKeydown 4 KEYS.TAB w) = false
  ∧ expanded_of (_handleKeydown 4 KEYS.TAB w) 1 = Some "false"
  ∧ activeElement (_handleKeydown 4 KEYS.ESCAPE w2) = Some 4%nat.
Proof.
  intros w w2.
  assert (Facts : ∀ v, dom v = dom w ∨ dom v = dom w2 ->
            closest (dom v) SELECTORS.dropdown 4 = Some 1%nat
            ∧ querySelector (dom v) 1 SELECTORS.dropdownTrigger = Some 2%nat
            ∧ querySelector (dom v) 1 SELECTORS.dropdownMenu = Some 3%nat
            ∧ is_expanded v 2 = true).
  { intros v Hv. unfold is_expanded. destruct Hv as [-> | ->]; vm_compute; done. }
  destruct (Facts w (or_introl eq_refl)) as (Hd & Hq & Hm & Hx).
  destruct (Facts w2 (or_intror eq_refl)) as (Hd2 & Hq2 & Hm2 & Hx2).
  destruct (escape_and_tab w 4 1 2 3 KEYS.ESCAPE Hd Hq Hm (or_introl eq_refl))
    as (_ & _ & He).
  destruct (escape_and_tab w 4 1 2 3 KEYS.TAB Hd Hq Hm (or_intror eq_refl))
    as (_ & _ & Ht).
  destruct (escape_and_tab w2 4 1 2 3 KEYS.ESCAPE Hd2 Hq2 Hm2 (or_introl eq_refl))
    as (_ & _ & He2).
  destruct (He Hx) as (_ & _ & _ & H1 & _).
  destruct (Ht Hx) as (_ & H2 & _ & _ & _ & H3 & _).
  destruct (He2 Hx2) as (_ & _ & _ & H4 & _).
  assert (F : can_focus (dom w) 2 = true) by (vm_compute; reflexivity).
  assert (A2 : activeElement w2 = Some 4%nat) by (vm_compute; reflexivity).
  assert (D2 : actually_disabled <$> dom w2 !! 2%nat = Some true)
    by (vm_compute; reflexivity).
  split; [exact (proj1 (H1 eq_refl) F)|]. split; [exact H3|]. split; [exact H2|].
  rewrite (proj2 (H4 eq_refl)); [exact A2|]. right.
  destruct (dom w2 !! 2%nat) as [e|]; [|discriminate D2].
  exists e. split; [reflexivity|]. by injection D2.
Defined.

(** ** Selecting an item *)

(** [_handleDropdownItemClick] written out. *)
Lemma _handleDropdownItemClick_unfold w item d t :
  _handleDropdownItemClick item d t w
  = let value :=
      match dom w !! item with
      | Some e =>
          match getAttribute DATA_ATTRS.value e with
          | Some (String _ _ as v) => v
          | _ => trim (textContent e)
          end
      | None => ""
      end in
    let w1 := _closeDropdown d (Some t)
                (_dispatchEvent d "select" (DetailSelect value item) w) in
    if isConnected (dom w) t then focus t w1 else w1.
Proof.
  unfold _handleDropdownItemClick. cbn zeta.
  set (w0 := _dispatchEvent _ _ _ w).
  assert (HO : Forall2 same_outline (dom w) (dom (_closeDropdown d (Some t) w0))).
  { apply Forall2_closed_outline. apply (_closeDropdown_closed_from w0). }
  unfold isElementConnected. by rewrite (isConnected_same_outline _ _ t HO).
Qed.

(** No call of [focus()] on a detached node is a call without effect. *)
Lemma focus_outcome_skip w y :
  isConnected (dom w) y = false -> focus_outcome w y (activeElement w).
Proof.
  intros Hc. split; [|done]. intros H.
  destruct (can_focus_true _ _ H) as [Hc' _]. congruence.
Qed.

(** Selecting an item dispatches exactly one [select] event on the
    container, carrying the item and its value: the [data-value]
    attribute when it is present and not empty, the trimmed text
    otherwise.  The dropdown is closed, and the handler calls [focus()] on
    the trigger when the trigger is attached: the focus moves to the
    trigger when the trigger can take it, and stays where it was when the
    trigger is detached or disabled. *)
Theorem item_selection (w : world) (item d t : nat) (e : element) :
  dom w !! item = Some e ->
  let w' := _handleDropdownItemClick item d t w in
  (∃ value,
     dispatched w' = dispatched w ++ [mkEvent d "select" (DetailSelect value item)]
     ∧ (∀ v, getAttribute DATA_ATTRS.value e = Some v -> v ≠ "" -> value = v)
     ∧ (getAttribute DATA_ATTRS.value e = None
        ∨ getAttribute DATA_ATTRS.value e = Some "" ->
        value = trim (textContent e)))
  ∧ (d ∉ openDropdowns w')
  ∧ (is_Some (dom w !! d) -> expanded_of w' d = Some "false")
  ∧ (is_Some (dom w !! t) -> expanded_of w' t = Some "false")
  ∧ focus_outcome w t (activeElement w')
  ∧ timers w' = timers w.
Proof.
  intros He w'. subst w'. rewrite _handleDropdownItemClick_unfold. rewrite He.
  cbn zeta.
  set (value := match getAttribute DATA_ATTRS.value e with
                | Some (String _ _ as v) => v
                | _ => trim (textContent e)
                end).
  set (w0 := _dispatchEvent _ _ _ w).
  destruct (_closeDropdown_spec w0 d (Some t)) as (Hin & Hd & Ht & _ & HF & _).
  set (w1 := _closeDropdown d (Some t) w0) in *.
  assert (Hfr : dispatched w1
                = dispatched w ++ [mkEvent d "select" (DetailSelect value item)]
                ∧ activeElement w1 = activeElement w
                ∧ timers w1 = timers w).
  { subst w1. rewrite _closeDropdown_unfold. done. }
  destruct Hfr as (H1 & H2 & H3).
  assert (Hnotin : d ∉ openDropdowns w1) by (intros H; by apply Hin in H as [_ H]).
  set (w2 := if isConnected (dom w) t then focus t w1 else w1).
  assert (Hw2 : dom w2 = dom w1 ∧ openDropdowns w2 = openDropdowns w1
                ∧ dispatched w2 = dispatched w1 ∧ timers w2 = timers w1).
  { subst w2. destruct (isConnected (dom w) t); [|done].
    by destruct (focus_cases t w1) as [-> | ->]. }
  destruct Hw2 as (E1 & E2 & E3 & E4).
  split; [|split; [|split; [|split; [|split]]]].
  - exists value. split; [|split].
    + by rewrite E3.
    + intros v Hv Hne. subst value. rewrite Hv. by destruct v.
    + intros [Hv|Hv]; subst value; by rewrite Hv.
  - by rewrite E2.
  - intros Hs. unfold expanded_of. rewrite E1. by apply Hd.
  - intros Hs. unfold expanded_of. rewrite E1. by apply (Ht t eq_refl).
  - subst w2. destruct (isConnected (dom w) t) eqn:Hc.
    + apply focus_outcome_focus; [|exact H2].
      by apply (can_focus_closed (dom w0) (dom w1)).
    + rewrite H2. by apply focus_outcome_skip.
  - by rewrite E4.
Qed.

Lemma item_selection_witness :
  let w := _handleEvent 2 dropdown_page in
  let w' := _handleDropdownItemClick 4 1 2 w in
  let v := update_element 2 (set_disabled true) (focus 4 w) in
  activeElement w' = Some 2%nat ∧ expanded_of w' 1 = Some "false"
  ∧ activeElement (_handleDropdownItemClick 4 1 2 v) = Some 4%nat.
Proof.
  intros w w' v.
  assert (He : ∀ u, dom u = dom w ∨ dom u = dom v ->
            ∃ e, dom u !! 4%nat = Some e ∧ is_Some (dom u !! 1%nat)).
  { intros u [-> | ->]; eexists; split; try (vm_compute; reflexivity);
      eexists; vm_compute; reflexivity. }
  destruct (He w (or_introl eq_refl)) as (e & Hew & Hd1).
  destruct (He v (or_intror eq_refl)) as (e' & Hev & _).
  destruct (item_selection w 4 1 2 _ Hew) as (_ & _ & Hd & _ & Ha & _).
  destruct (item_selection v 4 1 2 _ Hev) as (_ & _ & _ & _ & Ha' & _).
  assert (F : can_focus (dom w) 2 = true) by (vm_compute; reflexivity).
  assert (A : activeElement v = Some 4%nat) by (vm_compute; reflexivity).
  assert (D2 : actually_disabled <$> dom v !! 2%nat = Some true)
    by (vm_compute; reflexivity).
  split; [exact (proj1 Ha F)|]. split; [exact (Hd Hd1)|].
  rewrite (proj2 Ha'); [exact A|]. right.
  destruct (dom v !! 2%nat) as [e2|]; [|discriminate D2].
  exists e2. split; [reflexivity|]. by injection D2.
Defined.



(** ** Single toggles and [setPressed] *)

Lemma classList_add_contains c e : classList_contains c (classList_add c e) = true.
Proof.
  unfold classList_add. destruct (classList_contains c e) eqn:E; [done|].
  unfold classList_contains. cbn. apply bool_decide_eq_true.
  rewrite elem_of_app, list_elem_of_singleton. by right.
Qed.

Lemma classList_toggle_contains c b e :
  classList_contains c (classList_toggle c b e) = b.
Proof.
  destruct b; [apply classList_add_contains|apply classList_remove_not_contains].
Qed.

Lemma press_as_fields b e :
  attr_is ARIA.pressed "true" (press_as b e) = b
  ∧ classList_contains "btn--selected" (press_as b e) = b.
Proof.
  split; [|apply classList_toggle_contains].
  unfold attr_is. rewrite press_as_pressed. by destruct b.
Qed.

Lemma press_as_idempotent b e : press_as b (press_as b e) = press_as b e.
Proof.
  destruct b; cbn.
  - unfold classList_add, classList_contains, setAttribute, with_attributes,
      with_classList. cbn.
    destruct (bool_decide ("btn--selected" ∈ classList e)) eqn:E; cbn.
    + rewrite E. f_equal. apply insert_insert_eq.
    + rewrite bool_decide_eq_true_2.
      * f_equal. apply insert_insert_eq.
      * rewrite elem_of_app, list_elem_of_singleton. by right.
  - unfold classList_remove, setAttribute, with_attributes, with_classList. cbn.
    f_equal; [apply insert_insert_eq|].
    rewrite list_filter_filter. apply list_filter_iff. tauto.
Qed.

(** A toggle on a widget without group (no group attribute, or an empty
    one) flips its pressed state, keeps the class [btn--selected] in step
    with it, dispatches one [toggle] event carrying the new state and
    touches no other node; a second toggle brings the pressed state
    back. *)
Theorem ungrouped_toggle_flips (w : world) (b : nat) (e : element) :
  dom w !! b = Some e ->
  getAttribute DATA_ATTRS.toggleGroup e = None
  ∨ getAttribute DATA_ATTRS.toggleGroup e = Some "" ->
  let w' := _handleToggle b w in
  is_pressed w' b = negb (is_pressed w b)
  ∧ pressed_of w' b = Some (String_of_bool (negb (is_pressed w b)))
  ∧ matches_at (dom w') (SelClass "btn--selected") b = is_pressed w' b
  ∧ dispatched w'
    = dispatched w ++ [mkEvent b "toggle" (DetailToggle (negb (is_pressed w b)))]
  ∧ (∀ i, i ≠ b -> dom w' !! i = dom w !! i)
  ∧ is_pressed (_handleToggle b w') b = is_pressed w b.
Proof.
  intros He Hg w'.
  assert (Hstep : ∀ w0 e0, dom w0 !! b = Some e0 ->
            (getAttribute DATA_ATTRS.toggleGroup e0 = None
             ∨ getAttribute DATA_ATTRS.toggleGroup e0 = Some "") ->
            let ns := negb (is_pressed w0 b) in
            dom (_handleToggle b w0) = alter (fun x => press_as ns x) b (dom w0)
            ∧ dispatched (_handleToggle b w0)
              = dispatched w0 ++ [mkEvent b "toggle" (DetailToggle ns)]).
  { intros w0 e0 He0 Hg0 ns. subst ns. unfold _handleToggle, is_pressed.
    rewrite He0.
    destruct Hg0 as [-> | ->]; world_simpl; (split; [reflexivity|]);
      rewrite list_lookup_alter_eq, He0; cbn;
      by rewrite (proj1 (press_as_fields _ _)). }
  destruct (Hstep w e He Hg) as [Hdom Hdis]. fold w' in Hdom, Hdis.
  assert (He' : dom w' !! b = Some (press_as (negb (is_pressed w b)) e))
    by (by rewrite Hdom, list_lookup_alter_eq, He).
  assert (Hp : is_pressed w' b = negb (is_pressed w b)).
  { unfold is_pressed at 1. rewrite He'. apply press_as_fields. }
  split; [exact Hp|]. split; [|split; [|split; [exact Hdis|split]]].
  - unfold pressed_of. rewrite He'. cbn. apply press_as_pressed.
  - unfold matches_at. rewrite He', Hp. cbn. apply press_as_fields.
  - intros i Hi. rewrite Hdom. by apply list_lookup_alter_ne.
  - assert (Hg' : getAttribute DATA_ATTRS.toggleGroup
                    (press_as (negb (is_pressed w b)) e) = None
                  ∨ getAttribute DATA_ATTRS.toggleGroup
                      (press_as (negb (is_pressed w b)) e) = Some "").
    { destruct (press_as_same_place (negb (is_pressed w b)) e) as [_ ->]. exact Hg. }
    destruct (Hstep w' _ He' Hg') as [Hdom2 _].
    unfold is_pressed at 1. rewrite Hdom2, list_lookup_alter_eq, He'. cbn.
    rewrite (proj1 (press_as_fields _ _)), Hp. apply negb_involutive.
Qed.

Lemma ungrouped_toggle_flips_witness :
  let w := update_element 5 (setAttribute DATA_ATTRS.toggle "") toggle_page in
  is_pressed (_handleToggle 5 w) 5 = true
  ∧ is_pressed (_handleToggle 5 (_handleToggle 5 w)) 5 = false.
Proof.
  intros w.
  assert (He : dom w !! 5%nat
               = Some (setAttribute DATA_ATTRS.toggle ""
                         (node "button" (ParentElement 0) [] [])))
    by (vm_compute; reflexivity).
  destruct (ungrouped_toggle_flips w 5 _ He (or_introl eq_refl))
    as (H1 & _ & _ & _ & _ & H2).
  split; [rewrite H1|rewrite H2]; vm_compute; reflexivity.
Defined.

(** [setPressed] sets the pressed state of the widget to the value it is
    given, keeps the class [btn--selected] in step with it, dispatches one
    [toggle] event carrying that value and touches no other node;
    repeating the call leaves the store as it is.  On a null handle it does
    nothing. *)
Theorem setPressed_effect (w : world) (b : nat) (e : element) (p : bool) :
  dom w !! b = Some e ->
  let w' := setPressed (Some b) p w in
  setPressed None p w = w
  ∧ is_pressed w' b = p
  ∧ matches_at (dom w') (SelClass "btn--selected") b = p
  ∧ dispatched w' = dispatched w ++ [mkEvent b "toggle" (DetailToggle p)]
  ∧ (∀ i, i ≠ b -> dom w' !! i = dom w !! i)
  ∧ dom (setPressed (Some b) p w') = dom w'.
Proof.
  intros He w'.
  assert (He' : dom w' !! b = Some (press_as p e)).
  { subst w'. unfold setPressed. world_simpl. by rewrite list_lookup_alter_eq, He. }
  split; [reflexivity|]. split; [|split; [|split; [reflexivity|split]]].
  - unfold is_pressed. rewrite He'. apply press_as_fields.
  - unfold matches_at. rewrite He'. cbn. apply press_as_fields.
  - intros i Hi. subst w'. unfold setPressed. world_simpl.
    by apply list_lookup_alter_ne.
  - subst w'. unfold setPressed. world_simpl. apply list_eq. intros i.
    destruct (decide (i = b)) as [->|Hi].
    + rewrite !list_lookup_alter_eq, He. cbn. f_equal. apply press_as_idempotent.
    + by rewrite !list_lookup_alter_ne.
Qed.

Lemma setPressed_effect_witness :
  is_pressed (setPressed (Some 2%nat) false toggle_page) 2 = false
  ∧ is_pressed toggle_page 2 = true.
Proof.
  assert (He : dom toggle_page !! 2%nat
               = Some (node "button" (ParentElement 0)
                         [("data-toggle", ""); ("data-toggle-group", "size");
                          ("aria-pressed", "true")] ["btn--selected"]))
    by (vm_compute; reflexivity).
  destruct (setPressed_effect toggle_page 2 _ false He) as (_ & H & _).
  split; [exact H|vm_compute; reflexivity].
Defined.

(** ** Loading and auto-disable: the widget comes back *)

Local Abbreviation load :=
  (fun x => set_disabled true
              (setAttribute ARIA.busy "true" (classList_add "btn--loading" x))).
Local Abbreviation unload :=
  (fun x => setAttribute ARIA.busy "false" (classList_remove "btn--loading" x)).
Local Abbreviation restore o :=
  (fun x => set_innerHTML (ls_innerHTML o) (set_disabled (ls_disabled o) x)).

Lemma isConnected_alter (f : element -> element) i d j :
  (∀ e, parentNode (f e) = parentNode e) ->
  isConnected (alter f i d) j = isConnected d j.
Proof.
  intros Hf. unfold isConnected. rewrite length_alter.
  generalize (length d) as fuel. intros fuel. revert j.
  induction fuel as [|fuel IH]; intros j; [done|].
  cbn [isConnected_from]. rewrite alter_lookup_bool.
  destruct (d !! j) as [e|]; [|done]. cbn.
  assert (E : parentNode ((if bool_decide (i = j) then f else id) e) = parentNode e)
    by (destruct (bool_decide (i = j)); [apply Hf|done]).
  rewrite E. destruct (parentNode e); auto.
Qed.

Lemma isConnected_alter_opt (f : element -> element) o d j :
  (∀ e, parentNode (f e) = parentNode e) ->
  isConnected (alter_opt f o d) j = isConnected d j.
Proof. intros Hf. destruct o; [by apply isConnected_alter|done]. Qed.

Lemma _announce_fields m w :
  dom (_announce m w) = alter_opt (set_textContent "") (liveRegion w) (dom w)
  ∧ liveRegion (_announce m w) = liveRegion w
  ∧ buttonOriginalContent (_announce m w) = buttonOriginalContent w
  ∧ now (_announce m w) = now w.
Proof.
  unfold _announce. destruct (liveRegion w) eqn:E; world_simpl; by rewrite ?E.
Qed.

Lemma filter_out_appended (c : string) (l : list string) :
  c ∉ l -> filter (fun x => x ≠ c) (l ++ [c]) = l.
Proof.
  intros Hc. rewrite filter_app, filter_cons_False, filter_nil, app_nil_r
    by (intros H; by apply H).
  induction l as [|x l IH]; [done|].
  apply not_elem_of_cons in Hc as [Hx Hl].
  rewrite filter_cons_True by done. f_equal. by apply IH.
Qed.

(** Loading applied and taken back on an element that was not loading. *)
Lemma restore_unload_load e :
  classList_contains "btn--loading" e = false ->
  restore (snapshot e) (unload (load e)) = setAttribute ARIA.busy "false" e.
Proof.
  intros Hl. unfold classList_add. rewrite Hl.
  unfold classList_contains in Hl. apply bool_decide_eq_false in Hl.
  destruct e as [tg pa at_ cl di ih tc hi].
  cbv [setAttribute classList_remove with_attributes with_classList
       set_disabled set_innerHTML snapshot tagName parentNode attributes
       classList disabled innerHTML textContent hidden ls_innerHTML
       ls_disabled] in *.
  f_equal; [apply insert_insert_eq|by apply filter_out_appended].
Qed.

(** The store, the snapshot and the timer entry after
    [_resetLoadingState] on a button with a snapshot. *)
Lemma _resetLoadingState_fields w b o :
  buttonOriginalContent w !! b = Some o ->
  dom (_resetLoadingState b w)
  = alter_opt (set_textContent "") (liveRegion w)
      (alter (restore o) b (alter unload b (dom w)))
  ∧ buttonOriginalContent (_resetLoadingState b w) !! b = None
  ∧ buttonTimeouts (_resetLoadingState b w) !! b = None.
Proof.
  intros Ho. unfold _resetLoadingState. rewrite Ho. world_simpl.
  set (w0 := with_buttonTimeouts _ _).
  destruct (_announce_fields (i18n_complete w) w0) as (Hd & _ & Hb & _).
  rewrite Hd, Hb, _announce_buttonTimeouts. subst w0. world_simpl.
  split; [done|]. split; apply lookup_delete_eq.
Qed.

Lemma loading_started w b e d w1 :
  dom w !! b = Some e ->
  (w1 = _handleLoading b w ∧ classList_contains "btn--loading" e = false)
  ∨ w1 = (setLoading (HElement b) d w).1 ->
  dom w1 = alter_opt (set_textContent "") (liveRegion w) (alter load b (dom w))
  ∧ buttonOriginalContent w1 !! b = Some (snapshot e)
  ∧ liveRegion w1 = liveRegion w.
Proof.
  intros He [[-> Hl] | ->].
  - unfold _handleLoading. rewrite He, Hl. unfold clearExisting.
    set (w0 := applyLoadingState b _).
    destruct (_announce_fields (i18n_loading w0) w0) as (Hd & Hr & Hb & _).
    rewrite _announce_buttonTimeouts.
    destruct (buttonTimeouts w0 !! b); world_simpl; rewrite Hd, Hr, Hb;
      subst w0; world_simpl; by rewrite lookup_insert_eq.
  - rewrite (setLoading_element w b e d He). cbn zeta.
    set (w0 := applyLoadingState b _).
    destruct (_announce_fields (i18n_loading w0) w0) as (Hd & Hr & Hb & _).
    world_simpl. rewrite Hd, Hr, Hb. subst w0. unfold clearExisting. world_simpl.
    destruct (buttonTimeouts w !! b); world_simpl; by rewrite lookup_insert_eq.
Qed.

(** The widget while its session runs, whichever way it started. *)
Lemma loading_running w b e d w1 :
  dom w !! b = Some e ->
  isConnected (dom w) b = true ->
  liveRegion w ≠ Some b ->
  (w1 = _handleLoading b w ∧ classList_contains "btn--loading" e = false)
  ∨ w1 = (setLoading (HElement b) d w).1 ->
  dom w1 !! b = Some (load e)
  ∧ buttonOriginalContent w1 !! b = Some (snapshot e)
  ∧ isConnected (dom w1) b = true
  ∧ liveRegion w1 ≠ Some b.
Proof.
  intros He Hc Hr Hstart.
  destruct (loading_started w b e d w1 He Hstart) as (Hdom & Hsnap & Hlive).
  split; [|split; [done|split; [|by rewrite Hlive]]].
  - rewrite Hdom, alter_opt_lookup, list_lookup_alter_eq, He.
    by rewrite bool_decide_eq_false_2.
  - rewrite Hdom, isConnected_alter_opt, isConnected_alter; [done| |done].
    intros x. apply classList_add_parentNode with (c := "btn--loading")
                                                    (e := x).
Qed.

(** The end of a session on an attached widget with a snapshot: by the
    expiry of a loading timer of the widget, or by [cancelLoading]. *)
Lemma session_end w1 b e1 o w2 :
  dom w1 !! b = Some e1 ->
  buttonOriginalContent w1 !! b = Some o ->
  isConnected (dom w1) b = true ->
  liveRegion w1 ≠ Some b ->
  (∃ id due cb, (cb = LoadingTimeout b ∨ ∃ p, cb = SetLoadingTimeout b p)
                ∧ w2 = fire (mkTimer id due cb) w1)
  ∨ w2 = cancelLoading (Some b) w1 ->
  dom w2 !! b = Some (restore o (unload e1))
  ∧ buttonOriginalContent w2 !! b = None
  ∧ buttonTimeouts w2 !! b = None.
Proof.
  intros He Ho Hc Hr Hend.
  assert (Hreset : ∀ w', dom w' = dom w1 ->
            buttonOriginalContent w' = buttonOriginalContent w1 ->
            liveRegion w' = liveRegion w1 ->
            dom (_resetLoadingState b w') !! b = Some (restore o (unload e1))
            ∧ buttonOriginalContent (_resetLoadingState b w') !! b = None
            ∧ buttonTimeouts (_resetLoadingState b w') !! b = None).
  { intros w' Hd' Hb' Hl'.
    assert (Ho' : buttonOriginalContent w' !! b = Some o) by (by rewrite Hb').
    destruct (_resetLoadingState_fields w' b _ Ho') as (-> & H2 & H3).
    split; [|done]. rewrite Hl', Hd', alter_opt_lookup.
    rewrite bool_decide_eq_false_2 by done.
    by rewrite !list_lookup_alter_eq, He. }
  destruct Hend as [(id & due & cb & Hcb & ->)| ->].
  - unfold fire. world_simpl. set (w' := with_now _ _).
    assert (Hcw : isElementConnected w' b = true) by exact Hc.
    destruct (Hreset w' eq_refl eq_refl eq_refl) as (H1 & H2 & H3).
    destruct Hcb as [->|[p ->]]; unfold run_callback; rewrite Hcw; done.
  - unfold cancelLoading, clearExisting.
    destruct (buttonTimeouts w1 !! b) as [id|].
    + assert (Hcw : isElementConnected (clearTimeout id w1) b = true) by exact Hc.
      rewrite Hcw. by apply Hreset.
    + assert (Hcw : isElementConnected w1 b = true) by exact Hc.
      rewrite Hcw. by apply Hreset.
Qed.

(** A loading session on an attached widget that was not loading, started
    by a click or by [setLoading]: while it runs the widget carries the
    loading class, [aria-busy="true"] and the disabled flag; when it ends,
    by the expiry of its timer or by [cancelLoading], the widget is as it
    was before, markup, classes and disabled flag included, except that
    [aria-busy] is "false", and its snapshot and timer entry are gone. *)
Theorem loading_restores_widget (w : world) (b : nat) (e : element) (d : Z) :
  dom w !! b = Some e ->
  classList_contains "btn--loading" e = false ->
  isConnected (dom w) b = true ->
  liveRegion w ≠ Some b ->
  ∀ w1 cb,
    (w1 = _handleLoading b w ∧ cb = LoadingTimeout b)
    ∨ (w1 = (setLoading (HElement b) d w).1
       ∧ cb = SetLoadingTimeout b (length (promises w))) ->
    dom w1 !! b = Some (load e)
    ∧ ∀ w2,
        (∃ id due, w2 = fire (mkTimer id due cb) w1)
        ∨ w2 = cancelLoading (Some b) w1 ->
        dom w2 !! b = Some (setAttribute ARIA.busy "false" e)
        ∧ buttonOriginalContent w2 !! b = None
        ∧ buttonTimeouts w2 !! b = None.
Proof.
  intros He Hl Hc Hr w1 cb Hstart.
  assert (Hw1 : (w1 = _handleLoading b w
                 ∧ classList_contains "btn--loading" e = false)
                ∨ w1 = (setLoading (HElement b) d w).1)
    by (destruct Hstart as [[? _]|[? _]]; auto).
  destruct (loading_running w b e d w1 He Hc Hr Hw1) as (Hb1 & Hs1 & Hc1 & Hr1).
  split; [exact Hb1|]. intros w2 Hend.
  rewrite <- (restore_unload_load e Hl).
  apply (session_end w1 b _ _ w2 Hb1 Hs1 Hc1 Hr1).
  destruct Hend as [(id & due & ->)| ->]; [left|by right].
  exists id, due, cb. split; [|done].
  destruct Hstart as [[_ ->]|[_ ->]]; [by left|right; by eexists].
Qed.

Lemma loading_restores_widget_witness :
  ∃ e, dom loading_page !! 1%nat = Some e
       ∧ dom (cancelLoading (Some 1%nat) (_handleLoading 1 loading_page)) !! 1%nat
         = Some (setAttribute ARIA.busy "false" e).
Proof.
  assert (He : dom loading_page !! 1%nat
               = Some (set_innerHTML "Save"
                         (node "button" (ParentElement 0)
                               [("data-loading-text", "Saving");
                                ("data-loading-duration", "150")] ["btn"])))
    by (vm_compute; reflexivity).
  assert (Hl : classList_contains "btn--loading"
                 (set_innerHTML "Save"
                    (node "button" (ParentElement 0)
                          [("data-loading-text", "Saving");
                           ("data-loading-duration", "150")] ["btn"])) = false)
    by (vm_compute; reflexivity).
  assert (Hc : isConnected (dom loading_page) 1 = true)
    by (vm_compute; reflexivity).
  assert (Hr : liveRegion loading_page ≠ Some 1%nat) by (vm_compute; congruence).
  destruct (loading_restores_widget loading_page 1 _ 0 He Hl Hc Hr _ _
              (or_introl (conj eq_refl eq_refl))) as [_ H].
  destruct (H _ (or_intror eq_refl)) as (H1 & _).
  eexists. split; [exact He|exact H1].
Defined.

(** [setLoading] on a widget whose session is still running snapshots the
    disabled flag the running session has set. When the second session
    ends, by the expiry of its timer or by [cancelLoading], the loading
    class is gone and the markup is the original one, but the widget stays
    disabled, also when it was enabled before the first call. *)
Theorem setLoading_restart_stays_disabled (w : world) (b : nat) (e : element)
    (d1 d2 : Z) :
  dom w !! b = Some e ->
  isConnected (dom w) b = true ->
  liveRegion w ≠ Some b ->
  ∀ w1 w2 p w3,
    w1 = (setLoading (HElement b) d1 w).1 ->
    (w2, p) = setLoading (HElement b) d2 w1 ->
    (∃ id due, w3 = fire (mkTimer id due (SetLoadingTimeout b p)) w2)
    ∨ w3 = cancelLoading (Some b) w2 ->
    ∃ e3, dom w3 !! b = Some e3
          ∧ disabled e3 = true
          ∧ innerHTML e3 = innerHTML e
          ∧ classList_contains "btn--loading" e3 = false.
Proof.
  intros He Hc Hr w1 w2 p w3 Hw1 Hw2 Hend.
  destruct (loading_running w b e d1 w1 He Hc Hr (or_intror Hw1))
    as (Hb1 & _ & Hc1 & Hr1).
  assert (Hw2' : w2 = (setLoading (HElement b) d2 w1).1) by (by rewrite <- Hw2).
  destruct (loading_running w1 b _ d2 w2 Hb1 Hc1 Hr1 (or_intror Hw2'))
    as (Hb2 & Hs2 & Hc2 & Hr2).
  eexists. split.
  - apply (session_end w2 b _ _ w3 Hb2 Hs2 Hc2 Hr2).
    destruct Hend as [(id & due & ->)| ->]; [left|by right].
    exists id, due, (SetLoadingTimeout b p). split; [right; by eexists|done].
  - split; [done|]. split.
    + cbn. unfold classList_add. by destruct (classList_contains _ e).
    + apply classList_remove_not_contains.
Qed.

Lemma setLoading_restart_stays_disabled_witness :
  ∃ e e3, dom loading_page !! 1%nat = Some e ∧ disabled e = false
    ∧ dom (cancelLoading (Some 1%nat)
             (setLoading (HElement 1) 500
                (setLoading (HElement 1) 500 loading_page).1).1) !! 1%nat
      = Some e3
    ∧ disabled e3 = true.
Proof.
  assert (He : dom loading_page !! 1%nat
               = Some (set_innerHTML "Save"
                         (node "button" (ParentElement 0)
                               [("data-loading-text", "Saving");
                                ("data-loading-duration", "150")] ["btn"])))
    by (vm_compute; reflexivity).
  assert (Hc : isConnected (dom loading_page) 1 = true)
    by (vm_compute; reflexivity).
  assert (Hr : liveRegion loading_page ≠ Some 1%nat) by (vm_compute; congruence).
  destruct (setLoading_restart_stays_disabled loading_page 1 _ 500 500 He Hc Hr
              _ _ _ _ eq_refl (eq_sym (surjective_pairing _)) (or_intror eq_refl))
    as (e3 & H1 & H2 & _).
  eexists _, e3. split; [exact He|]. split; [vm_compute; reflexivity|].
  split; [exact H1|exact H2].
Defined.

Lemma _handleAutoDisable_fields w b e :
  dom w !! b = Some e ->
  dom (_handleAutoDisable b w)
  = alter (fun x => setAttribute ARIA.disabled "true" (set_disabled true x)) b (dom w)
  ∧ buttonTimeouts (_handleAutoDisable b w) = <[b:=nextTimerId w]> (buttonTimeouts w)
  ∧ timers (_handleAutoDisable b w)
    = timers (clearExisting b w)
      ++ [mkTimer (nextTimerId w)
            (now w + parseDuration (getAttribute DATA_ATTRS.disableDuration e)
                                   DEFAULTS.disableDuration)
            (AutoDisableTimeout b)].
Proof.
  intros He. unfold _handleAutoDisable. rewrite He. unfold clearExisting.
  by destruct (buttonTimeouts w !! b).
Qed.



Lemma parseDuration_range v dflt :
  DEFAULTS.minDuration <= dflt <= DEFAULTS.maxDuration ->
  DEFAULTS.minDuration <= parseDuration v dflt <= DEFAULTS.maxDuration.
Proof.
  unfold parseDuration, clamp, DEFAULTS.minDuration, DEFAULTS.maxDuration.
  intros H. destruct v as [[|c s]|]; [lia| |lia].
  destruct (parseInt (String c s)) as [parsed|]; [|lia].
  destruct (parsed <? 0); lia.
Qed.

Lemma Qle_bool_inject_Z a b :
  QArith_base.Qle_bool (QArith_base.inject_Z a) (QArith_base.inject_Z b)
  = (a <=? b).
Proof. unfold QArith_base.Qle_bool. cbn. by rewrite !Z.mul_1_r. Qed.

(** On integers the clamp of numbers is the clamp of integers, and an
    integer delay within the 32-bit range is taken as it is. *)
Lemma clamp_number_int (z lo hi : Z) :
  clamp_number z lo hi = number_of_Z (clamp z lo hi).
Proof.
  unfold clamp_number, number_of_Z, clamp. cbn [Math_max].
  rewrite Qle_bool_inject_Z.
  destruct (Z.leb_spec z lo); cbn [Math_min]; rewrite Qle_bool_inject_Z.
  - destruct (Z.leb_spec lo hi); do 2 f_equal; lia.
  - destruct (Z.leb_spec z hi); do 2 f_equal; lia.
Qed.

Lemma timeout_delay_int (z : Z) :
  0 <= z < 2 ^ 31 -> timeout_delay z = z.
Proof.
  intros Hz. unfold timeout_delay, number_of_Z.
  rewrite Qle_bool_inject_Z. destruct (Z.leb_spec 0 z); [|lia].
  rewrite Qround.Qfloor_Z, Z.mod_small by lia. lia.
Qed.

Lemma timeout_delay_between q lo hi :
  0 <= lo -> hi < 2 ^ 31 ->
  QArith_base.Qle (QArith_base.inject_Z lo) q ->
  QArith_base.Qle q (QArith_base.inject_Z hi) ->
  lo <= timeout_delay (Finite q) <= hi.
Proof.
  intros Hlo Hhi H1 H2. unfold timeout_delay.
  assert (H0 : QArith_base.Qle_bool (QArith_base.inject_Z 0) q = true).
  { apply QArith_base.Qle_bool_iff.
    apply (QArith_base.Qle_trans _ (QArith_base.inject_Z lo)); [|done].
    by rewrite <- QArith_base.Zle_Qle. }
  rewrite H0.
  pose proof (Qround.Qfloor_resp_le _ _ H1) as F1.
  pose proof (Qround.Qfloor_resp_le _ _ H2) as F2.
  rewrite Qround.Qfloor_Z in F1, F2.
  rewrite Z.mod_small by lia. lia.
Qed.

(** The delay of the countdown [setLoading] starts: within the bounds for
    every number but NaN, which [clamp] passes on and [setTimeout] takes
    for zero. *)
Lemma timeout_delay_clamp x lo hi :
  0 <= lo -> lo <= hi -> hi < 2 ^ 31 ->
  timeout_delay (clamp_number NaN lo hi) = 0
  ∧ (x ≠ NaN -> lo <= timeout_delay (clamp_number x lo hi) <= hi).
Proof.
  intros H0 Hle Hhi. split; [done|]. intros Hx.
  assert (Hlh : QArith_base.Qle_bool (QArith_base.inject_Z lo)
                  (QArith_base.inject_Z hi) = true)
    by (apply QArith_base.Qle_bool_iff; by rewrite <- QArith_base.Zle_Qle).
  assert (Rlo : QArith_base.Qle (QArith_base.inject_Z lo) (QArith_base.inject_Z lo))
    by apply QArith_base.Qle_refl.
  assert (Rhi : QArith_base.Qle (QArith_base.inject_Z hi) (QArith_base.inject_Z hi))
    by apply QArith_base.Qle_refl.
  assert (Rlh : QArith_base.Qle (QArith_base.inject_Z lo) (QArith_base.inject_Z hi))
    by (by rewrite <- QArith_base.Zle_Qle).
  unfold clamp_number, number_of_Z.
  destruct x as [q| | |]; [| | |done]; cbn [Math_max Math_min].
  - destruct (QArith_base.Qle_bool q (QArith_base.inject_Z lo)) eqn:E1;
      cbn [Math_min].
    + rewrite Hlh. by apply timeout_delay_between.
    + assert (L : QArith_base.Qle (QArith_base.inject_Z lo) q).
      { apply QArith_base.Qlt_le_weak, QArith_base.Qnot_le_lt.
        intros H. apply QArith_base.Qle_bool_iff in H. congruence. }
      destruct (QArith_base.Qle_bool q (QArith_base.inject_Z hi)) eqn:E2.
      * apply QArith_base.Qle_bool_iff in E2. by apply timeout_delay_between.
      * by apply timeout_delay_between.
  - by apply timeout_delay_between.
  - rewrite Hlh. by apply timeout_delay_between.
Qed.

(** Every countdown the controller starts for a button is pending and
    recorded in the timer table of the button.  The countdown of a
    loading click and the one of an auto-disable click are due no sooner
    than 100 ms and no later than 30000 ms after the current time,
    whatever the duration attribute says; so is the countdown of
    [setLoading] for every duration but NaN, be it fractional or
    infinite.  For NaN, which [clamp] passes on, the countdown of
    [setLoading] is due at once. *)
Theorem countdown_within_bounds (w : world) (b : nat) (e : element) :
  dom w !! b = Some e ->
  let started w1 lo hi :=
    ∃ t, t ∈ timers w1
         ∧ buttonTimeouts w1 !! b = Some (timer_id t)
         ∧ is_timeout_of b (timer_callback t)
         ∧ now w + lo <= timer_due t <= now w + hi in
  (classList_contains "btn--loading" e = false ->
   started (_handleLoading b w) 100 30000)
  ∧ started (_handleAutoDisable b w) 100 30000
  ∧ (∀ duration, duration ≠ NaN ->
       started (setLoading (HElement b) duration w).1 100 30000)
  ∧ started (setLoading (HElement b) NaN w).1 0 0.
Proof.
  intros He started.
  assert (Hset : ∀ duration lo hi,
    lo <= timeout_delay
            (clamp_number duration DEFAULTS.minDuration DEFAULTS.maxDuration)
       <= hi ->
    started (setLoading (HElement b) duration w).1 lo hi).
  { intros duration lo hi Hd.
    destruct (setLoading_opens_session w b e duration He) as (Hin & Hb & _).
    eexists. split; [exact Hin|]. split; [exact Hb|]. split; [done|].
    cbn [timer_due]. lia. }
  destruct (timeout_delay_clamp NaN DEFAULTS.minDuration DEFAULTS.maxDuration)
    as [Hnan _]; [done|done|done|].
  split; [|split; [|split]].
  - intros Hl.
    destruct (_handleLoading_opens_session w b e He Hl) as (Hin & Hb & _).
    eexists. split; [exact Hin|]. split; [exact Hb|]. split; [done|].
    cbn [timer_due].
    pose proof (parseDuration_range (getAttribute DATA_ATTRS.loadingDuration e)
                  DEFAULTS.loadingDuration) as H.
    unfold DEFAULTS.minDuration, DEFAULTS.maxDuration, DEFAULTS.loadingDuration in H.
    unfold DEFAULTS.loadingDuration. lia.
  - destruct (_handleAutoDisable_fields w b e He) as (_ & Hb & Ht).
    eexists. split; [|split; [|split]].
    + rewrite Ht, elem_of_app, list_elem_of_singleton. by right.
    + by rewrite Hb, lookup_insert_eq.
    + done.
    + cbn [timer_due].
      pose proof (parseDuration_range (getAttribute DATA_ATTRS.disableDuration e)
                    DEFAULTS.disableDuration) as H.
      unfold DEFAULTS.minDuration, DEFAULTS.maxDuration, DEFAULTS.disableDuration in H.
      unfold DEFAULTS.disableDuration. lia.
  - intros duration Hd. apply Hset.
    destruct (timeout_delay_clamp duration DEFAULTS.minDuration
                DEFAULTS.maxDuration) as [_ H]; [done|done|done|].
    exact (H Hd).
  - apply Hset. rewrite Hnan. lia.
Qed.

Lemma countdown_within_bounds_witness :
  (∃ t, t ∈ timers (setLoading (HElement 1) 5 loading_page).1
        ∧ now loading_page + 100 <= timer_due t <= now loading_page + 30000)
  ∧ (∃ t, t ∈ timers (setLoading (HElement 1) NaN loading_page).1
          ∧ timer_due t = now loading_page).
Proof.
  assert (He : dom loading_page !! 1%nat
               = Some (set_innerHTML "Save"
                         (node "button" (ParentElement 0)
                               [("data-loading-text", "Saving");
                                ("data-loading-duration", "150")] ["btn"])))
    by (vm_compute; reflexivity).
  destruct (countdown_within_bounds loading_page 1 _ He) as (_ & _ & Hnum & Hnan).
  assert (H5 : number_of_Z 5 ≠ NaN) by discriminate.
  destruct (Hnum 5 H5) as (t & H1 & _ & _ & H4).
  destruct Hnan as (t' & H1' & _ & _ & H4').
  split; [exists t; split; [exact H1|exact H4]|].
  exists t'. split; [exact H1'|lia].
Defined.

(** ** The click router *)

Lemma closest_alter (f : element -> element) i d sel j :
  (∀ x, parentNode (f x) = parentNode x ∧ matches sel (f x) = matches sel x) ->
  closest (alter f i d) sel j = closest d sel j.
Proof.
  intros Hf. unfold closest. rewrite length_alter.
  generalize (length d) as fuel. intros fuel. revert j.
  induction fuel as [|fuel IH]; intros j; [done|].
  cbn [closest_from]. rewrite alter_lookup_bool.
  destruct (d !! j) as [e|]; [|done]. cbn.
  assert (E : parentNode ((if bool_decide (i = j) then f else id) e) = parentNode e
              ∧ matches sel ((if bool_decide (i = j) then f else id) e) = matches sel e)
    by (destruct (bool_decide (i = j)); [apply Hf|done]).
  destruct E as [-> ->]. destruct (matches sel e); [done|].
  destruct (parentNode e); auto.
Qed.

Lemma closest_self d sel i e :
  d !! i = Some e -> matches sel e = true -> closest d sel i = Some i.
Proof.
  intros He Hm. unfold closest. pose proof (lookup_lt_Some _ _ _ He) as Hlt.
  destruct (length d); [lia|]. cbn [closest_from]. by rewrite He, Hm.
Qed.

(** The first step of [_handleEvent]: dropdowns are closed when the target
    is outside every dropdown. *)
Lemma click_prelude w target :
  let w0 := match closest (dom (new_event w)) SELECTORS.dropdown target with
            | None => _closeAllDropdowns (new_event w)
            | Some _ => new_event w
            end in
  Forall2 closed_from (dom w) (dom w0)
  ∧ w0 = with_openDropdowns (fun _ => openDropdowns w0)
           (with_dom (fun _ => dom w0) (new_event w))
  ∧ (is_Some (closest (dom w) SELECTORS.dropdown target) ->
     dom w0 = dom w ∧ openDropdowns w0 = openDropdowns w).
Proof.
  change (dom (new_event w)) with (dom w).
  destruct (closest (dom w) SELECTORS.dropdown target) as [x|]; cbv zeta.
  - split; [|split; [apply world_eta_dom_open|done]].
    apply Forall2_lookup. intros i. change (dom (new_event w)) with (dom w).
    destruct (dom w !! i); constructor. apply closed_from_refl.
  - destruct (close_loop_effect (openDropdowns (new_event w)) (new_event w))
      as (Hframe & HF & _).
    split; [exact HF|]. split; [|by intros [? ?]].
    unfold _closeAllDropdowns. rewrite Hframe at 1. reflexivity.
Qed.

(** A click whose nearest button is disabled, by the property or by
    [aria-disabled="true"]. *)
Lemma _handleEvent_disabled w target b e :
  closest (dom w) SELECTORS.button target = Some b ->
  dom w !! b = Some e ->
  disabled e = true ∨ getAttribute ARIA.disabled e = Some "true" ->
  let w' := _handleEvent target w in
  defaultPrevented w' = true
  ∧ propagationStopped w' = true
  ∧ Forall2 closed_from (dom w) (dom w')
  ∧ (timers w' = timers w ∧ dispatched w' = dispatched w
     ∧ buttonTimeouts w' = buttonTimeouts w
     ∧ buttonOriginalContent w' = buttonOriginalContent w
     ∧ activeElement w' = activeElement w)
  ∧ (is_Some (closest (dom w) SELECTORS.dropdown target) ->
     dom w' = dom w ∧ openDropdowns w' = openDropdowns w).
Proof.
  intros Hb He Hdis w'. subst w'. unfold _handleEvent. cbv zeta.
  destruct (click_prelude w target) as (HF & Hframe & Hin). cbv zeta in HF, Hframe, Hin.
  set (w0 := match closest (dom (new_event w)) SELECTORS.dropdown target with
             | None => _ | Some _ => _ end) in *.
  rewrite (closest_same_outline (dom w) (dom w0) SELECTORS.button target I
             (Forall2_closed_outline _ _ HF)), Hb.
  pose proof HF as HF'. rewrite Forall2_lookup in HF'.
  destruct (HF' b) as [e0 e' Hcl|]; [|congruence].
  assert (e0 = e) by congruence. subst e0.
  assert (Hd' : disabled e' || attr_is ARIA.disabled "true" e' = true).
  { pose proof (closed_from_fields _ _ Hcl) as (_ & _ & _ & Hd & _).
    destruct Hcl as (_ & Hk & _). destruct Hdis as [Hdis|Hdis].
    - by rewrite Hd, Hdis.
    - apply orb_true_iff. right. unfold attr_is, getAttribute in *.
      apply bool_decide_eq_true_2. by rewrite Hk. }
  rewrite Hd'. world_simpl. split; [done|]. split; [done|]. split; [exact HF|].
  split; [|exact Hin]. rewrite Hframe. by world_simpl.
Qed.

(** A click whose nearest button is disabled, by the property or by
    [aria-disabled="true"], runs no handler: the default action is
    prevented and the propagation stopped; no timer is set or cleared and
    no event dispatched; the side tables and the focus stay; and the store
    changes at most by the closing of dropdowns, which happens only when
    the target is outside every dropdown. *)
Theorem disabled_click_swallowed (w : world) (target b : nat) (e : element) :
  closest (dom w) SELECTORS.button target = Some b ->
  dom w !! b = Some e ->
  disabled e = true ∨ getAttribute ARIA.disabled e = Some "true" ->
  let w' := _handleEvent target w in
  defaultPrevented w' = true
  ∧ propagationStopped w' = true
  ∧ Forall2 closed_from (dom w) (dom w')
  ∧ (timers w' = timers w ∧ dispatched w' = dispatched w
     ∧ buttonTimeouts w' = buttonTimeouts w
     ∧ buttonOriginalContent w' = buttonOriginalContent w
     ∧ activeElement w' = activeElement w)
  ∧ (is_Some (closest (dom w) SELECTORS.dropdown target) ->
     dom w' = dom w ∧ openDropdowns w' = openDropdowns w).
Proof. apply _handleEvent_disabled. Qed.

Lemma disabled_click_swallowed_witness :
  defaultPrevented (_handleEvent 1 (_handleAutoDisable 1 loading_page)) = true.
Proof.
  assert (Hb : closest (dom (_handleAutoDisable 1 loading_page)) SELECTORS.button 1
               = Some 1%nat) by (vm_compute; reflexivity).
  assert (He : ∃ e, dom (_handleAutoDisable 1 loading_page) !! 1%nat = Some e
                    ∧ disabled e = true)
    by (eexists; split; vm_compute; reflexivity).
  destruct He as (e & He & Hd).
  exact (proj1 (disabled_click_swallowed _ 1 1 e Hb He (or_introl Hd))).
Defined.

(** While a countdown of a button runs, started by a loading click, by
    [setLoading] or by an auto-disable click, a click on the button is
    swallowed: the default action is prevented, no timer is set or
    cleared, no event is dispatched and the store changes at most by the
    closing of dropdowns. *)
Theorem click_during_countdown_ignored (w : world) (b : nat) (e : element)
    (d : Z) (w1 : world) (target : nat) :
  dom w !! b = Some e ->
  (w1 = _handleLoading b w ∧ classList_contains "btn--loading" e = false)
  ∨ w1 = (setLoading (HElement b) d w).1
  ∨ w1 = _handleAutoDisable b w ->
  closest (dom w1) SELECTORS.button target = Some b ->
  let w2 := _handleEvent target w1 in
  defaultPrevented w2 = true
  ∧ propagationStopped w2 = true
  ∧ timers w2 = timers w1
  ∧ dispatched w2 = dispatched w1
  ∧ buttonTimeouts w2 = buttonTimeouts w1
  ∧ Forall2 closed_from (dom w1) (dom w2).
Proof.
  intros He Hstart Hb.
  assert (H1 : ∃ e1, dom w1 !! b = Some e1 ∧ disabled e1 = true).
  { destruct Hstart as [Hw1|[Hw1|Hw1]].
    - destruct (loading_started w b e d w1 He (or_introl Hw1)) as (Hd & _).
      rewrite Hd, alter_opt_lookup, list_lookup_alter_eq, He.
      eexists. split; [done|]. by destruct (bool_decide _).
    - destruct (loading_started w b e d w1 He (or_intror Hw1)) as (Hd & _).
      rewrite Hd, alter_opt_lookup, list_lookup_alter_eq, He.
      eexists. split; [done|]. by destruct (bool_decide _).
    - destruct (_handleAutoDisable_fields w b e He) as (Hd & _).
      rewrite Hw1, Hd, list_lookup_alter_eq, He. by eexists. }
  destruct H1 as (e1 & He1 & Hd1).
  destruct (_handleEvent_disabled w1 target b e1 Hb He1 (or_introl Hd1))
    as (H2 & H3 & H4 & (H5 & H6 & H7 & _) & _).
  done.
Qed.

Lemma click_during_countdown_ignored_witness :
  timers (_handleEvent 1 (_handleLoading 1 loading_page))
  = timers (_handleLoading 1 loading_page).
Proof.
  assert (He : dom loading_page !! 1%nat
               = Some (set_innerHTML "Save"
                         (node "button" (ParentElement 0)
                               [("data-loading-text", "Saving");
                                ("data-loading-duration", "150")] ["btn"])))
    by (vm_compute; reflexivity).
  assert (Hl : classList_contains "btn--loading"
                 (set_innerHTML "Save"
                    (node "button" (ParentElement 0)
                          [("data-loading-text", "Saving");
                           ("data-loading-duration", "150")] ["btn"])) = false)
    by (vm_compute; reflexivity).
  assert (Hb : closest (dom (_handleLoading 1 loading_page)) SELECTORS.button 1
               = Some 1%nat) by (vm_compute; reflexivity).
  destruct (click_during_countdown_ignored loading_page 1 _ 0 _ 1 He
              (or_introl (conj eq_refl Hl)) Hb) as (_ & _ & H & _).
  exact H.
Defined.

Lemma classList_contains_load c x :
  c ≠ "btn--loading" -> classList_contains c (load x) = classList_contains c x.
Proof.
  intros Hc. unfold classList_add.
  destruct (classList_contains "btn--loading" x); [done|].
  unfold classList_contains. cbn. apply bool_decide_ext.
  rewrite elem_of_app, list_elem_of_singleton. tauto.
Qed.

Lemma _announce_pending m w t :
  t ∈ timers (_announce m w) ->
  t ∈ timers w ∨ timer_callback t = AnnounceTimeout m.
Proof.
  unfold _announce. destruct (liveRegion w); world_simpl; [|by left].
  rewrite elem_of_app, list_elem_of_singleton. intros [?| ->]; [by left|by right].
Qed.

Lemma clearExisting_pending b w t :
  t ∈ timers (clearExisting b w) -> t ∈ timers w.
Proof.
  unfold clearExisting. destruct (buttonTimeouts w !! b); [|done].
  world_simpl. rewrite list_elem_of_filter. tauto.
Qed.

(** The timers pending after a loading click that starts a session. *)
Lemma _handleLoading_pending w b e t :
  dom w !! b = Some e ->
  classList_contains "btn--loading" e = false ->
  t ∈ timers (_handleLoading b w) ->
  t ∈ timers w
  ∨ (∃ m, timer_callback t = AnnounceTimeout m)
  ∨ buttonTimeouts (_handleLoading b w) !! b = Some (timer_id t).
Proof.
  intros He Hl. unfold _handleLoading. rewrite He, Hl. cbv zeta.
  set (w0 := applyLoadingState b _). set (w1 := clearExisting b _).
  world_simpl. rewrite elem_of_app, list_elem_of_singleton. intros [Hin| ->].
  - apply clearExisting_pending, _announce_pending in Hin as [Hin| Hin].
    + by left.
    + right. left. by eexists.
  - right. right. by rewrite lookup_insert_eq.
Qed.

(** A click on an enabled button outside every dropdown that is a loading
    button and an auto-disable button, and neither a toggle nor an expand
    button, while no dropdown is open: both handlers run, in this order. *)
Lemma click_loading_auto_disable w b e :
  dom w !! b = Some e ->
  matches SELECTORS.button e = true ->
  disabled e = false ->
  getAttribute ARIA.disabled e ≠ Some "true" ->
  hasAttribute DATA_ATTRS.loadingText e = true ->
  hasAttribute DATA_ATTRS.autoDisable e = true ->
  hasAttribute DATA_ATTRS.toggle e = false ->
  classList_contains "btn-expand" e = false ->
  classList_contains "btn--loading" e = false ->
  closest (dom w) SELECTORS.dropdown b = None ->
  openDropdowns w = [] ->
  liveRegion w ≠ Some b ->
  _handleEvent b w
  = _handleAutoDisable b
      (_handleLoading b (with_openDropdowns (fun _ => []) (new_event w))).
Proof.
  intros He Hm Hdis Haria Hload Hauto Htog Hexp Hl Hdrop Hopen Hlive.
  unfold _handleEvent. cbv zeta.
  change (dom (new_event w)) with (dom w). rewrite Hdrop.
  unfold _closeAllDropdowns.
  change (openDropdowns (new_event w)) with (openDropdowns w). rewrite Hopen.
  cbn [foldl]. set (w0 := with_openDropdowns _ _).
  change (dom w0) with (dom w).
  rewrite (closest_self (dom w) SELECTORS.button b e He Hm), He, Hdis.
  unfold attr_is at 1. rewrite bool_decide_eq_false_2 by done. cbn [orb].
  assert (He0 : dom w0 !! b = Some e) by exact He.
  assert (Hlive0 : liveRegion w0 ≠ Some b) by exact Hlive.
  assert (Ht0 : has_attribute_at w0 DATA_ATTRS.toggle b = false)
    by (unfold has_attribute_at; by rewrite He0).
  assert (Hl0 : has_attribute_at w0 DATA_ATTRS.loadingText b = true)
    by (unfold has_attribute_at; by rewrite He0).
  rewrite !Ht0, !Hl0.
  destruct (loading_started w0 b e 0 (_handleLoading b w0) He0
              (or_introl (conj eq_refl Hl))) as (Hd1 & _ & _).
  set (w1 := _handleLoading b w0) in *.
  assert (He1 : dom w1 !! b = Some (load e)).
  { rewrite Hd1, alter_opt_lookup, list_lookup_alter_eq, He0.
    by rewrite bool_decide_eq_false_2. }
  assert (Hauto1 : has_attribute_at w1 DATA_ATTRS.autoDisable b = true).
  { unfold has_attribute_at. rewrite He1. etrans; [|exact Hauto].
    unfold hasAttribute, classList_add. rewrite Hl. cbn.
    by rewrite lookup_insert_ne. }
  rewrite !Hauto1.
  destruct (_handleAutoDisable_fields w1 b _ He1) as (Hd2 & _).
  set (w2 := _handleAutoDisable b w1) in *.
  assert (Hc2 : closest (dom w2) SELECTORS.dropdown b = None).
  { rewrite Hd2, closest_alter by done. rewrite Hd1.
    destruct (liveRegion w0); cbn [alter_opt].
    - rewrite closest_alter by done. rewrite closest_alter; [exact Hdrop|].
      intros x. split; [apply classList_add_parentNode with (c := "btn--loading") (e := x)|].
      by apply classList_contains_load.
    - rewrite closest_alter; [exact Hdrop|].
      intros x. split; [apply classList_add_parentNode with (c := "btn--loading") (e := x)|].
      by apply classList_contains_load. }
  rewrite Hc2.
  assert (Hx2 : matches_at (dom w2) (SelClass "btn-expand") b = false).
  { unfold matches_at. rewrite Hd2, list_lookup_alter_eq, He1. cbn.
    etrans; [|exact Hexp]. by apply classList_contains_load. }
  by rewrite Hx2.
Qed.

(** A button that is both a loading button and an auto-disable button:
    the click starts the loading state, and the auto-disable handler that
    runs next clears the loading countdown, so that among the timers
    pending after the click only the auto-disable timer belongs to the
    click, besides announcements.  When that timer expires the button is
    enabled, yet it still carries the loading class and
    [aria-busy="true"], its snapshot is still stored, and the expiry has
    set no new timer. *)
Theorem loading_auto_disable_button_sticks (w : world) (b : nat) (e : element) :
  dom w !! b = Some e ->
  matches SELECTORS.button e = true ->
  disabled e = false ->
  getAttribute ARIA.disabled e ≠ Some "true" ->
  hasAttribute DATA_ATTRS.loadingText e = true ->
  hasAttribute DATA_ATTRS.autoDisable e = true ->
  hasAttribute DATA_ATTRS.toggle e = false ->
  classList_contains "btn-expand" e = false ->
  classList_contains "btn--loading" e = false ->
  closest (dom w) SELECTORS.dropdown b = None ->
  openDropdowns w = [] ->
  liveRegion w ≠ Some b ->
  isConnected (dom w) b = true ->
  let w1 := _handleEvent b w in
  (∀ t, t ∈ timers w1 ->
        t ∈ timers w
        ∨ (∃ m, timer_callback t = AnnounceTimeout m)
        ∨ timer_callback t = AutoDisableTimeout b)
  ∧ ∀ id due,
      let w2 := fire (mkTimer id due (AutoDisableTimeout b)) w1 in
      (∃ e2, dom w2 !! b = Some e2
             ∧ disabled e2 = false
             ∧ classList_contains "btn--loading" e2 = true
             ∧ getAttribute ARIA.busy e2 = Some "true")
      ∧ buttonOriginalContent w2 !! b = Some (snapshot e)
      ∧ buttonTimeouts w2 !! b = None
      ∧ (∀ t, t ∈ timers w2 -> t ∈ timers w1).
Proof.
  intros He Hm Hdis Haria Hload Hauto Htog Hexp Hl Hdrop Hopen Hlive Hc w1.
  subst w1.
  rewrite (click_loading_auto_disable w b e He Hm Hdis Haria Hload Hauto Htog
             Hexp Hl Hdrop Hopen Hlive).
  set (w0 := with_openDropdowns _ _).
  assert (He0 : dom w0 !! b = Some e) by exact He.
  assert (Hc0 : isConnected (dom w0) b = true) by exact Hc.
  assert (Hlive0 : liveRegion w0 ≠ Some b) by exact Hlive.
  pose proof (_handleLoading_pending w0 b e) as Hpend.
  destruct (loading_running w0 b e 0 (_handleLoading b w0) He0 Hc0 Hlive0
              (or_introl (conj eq_refl Hl))) as (He1 & Hs1 & Hc1 & _).
  destruct (loading_started w0 b e 0 (_handleLoading b w0) He0
              (or_introl (conj eq_refl Hl))) as (_ & _ & _).
  set (w1 := _handleLoading b w0) in *.
  destruct (_handleAutoDisable_fields w1 b _ He1) as (Hd2 & Hb2 & Ht2).
  assert (Hs2 : buttonOriginalContent (_handleAutoDisable b w1)
                = buttonOriginalContent w1).
  { unfold _handleAutoDisable. rewrite He1. unfold clearExisting.
    by destruct (buttonTimeouts w1 !! b). }
  set (w2 := _handleAutoDisable b w1) in *.
  split.
  - intros t. rewrite Ht2, elem_of_app, list_elem_of_singleton.
    intros [Hin| ->]; [|by right; right].
    assert (Hin1 : t ∈ timers w1) by (by apply clearExisting_pending in Hin).
    destruct (Hpend t He0 Hl Hin1) as [H|[H|H]]; [by left|by right; left|].
    exfalso. revert Hin. unfold clearExisting. rewrite H. world_simpl.
    rewrite list_elem_of_filter. tauto.
  - intros id due w3.
    assert (Hc2 : isConnected (dom w2) b = true)
      by (rewrite Hd2, isConnected_alter; done).
    subst w3. unfold fire. world_simpl. set (w' := with_now _ _).
    assert (Hcw : isElementConnected w' b = true) by exact Hc2.
    unfold run_callback. rewrite Hcw. subst w'. world_simpl.
    split; [|split; [by rewrite Hs2|split; [apply lookup_delete_eq|]]].
    + rewrite Hd2, !list_lookup_alter_eq, He1. eexists. split; [done|].
      split; [done|]. split.
      * unfold classList_add. rewrite Hl. unfold classList_contains. cbn.
        apply bool_decide_eq_true_2. rewrite elem_of_app, list_elem_of_singleton.
        by right.
      * unfold getAttribute. cbn. rewrite lookup_delete_ne by done.
        rewrite lookup_insert_ne by done. by rewrite lookup_insert_eq.
    + intros t. rewrite list_elem_of_filter. tauto.
Qed.

Lemma loading_auto_disable_button_sticks_witness :
  ∃ e2, dom (fire (mkTimer 3 3000 (AutoDisableTimeout 1))
               (_handleEvent 1 submit_page)) !! 1%nat = Some e2
        ∧ disabled e2 = false
        ∧ classList_contains "btn--loading" e2 = true.
Proof.
  assert (He : dom submit_page !! 1%nat
               = Some (set_innerHTML "Send"
                         (node "button" (ParentElement 0)
                               [("data-loading-text", "Sending");
                                ("data-auto-disable", "")] ["btn"])))
    by (vm_compute; reflexivity).
  set (e := set_innerHTML "Send" _) in He.
  assert (Hm : matches SELECTORS.button e = true) by (vm_compute; reflexivity).
  assert (Hdis : disabled e = false) by (vm_compute; reflexivity).
  assert (Haria : getAttribute ARIA.disabled e ≠ Some "true")
    by (vm_compute; congruence).
  assert (Hload : hasAttribute DATA_ATTRS.loadingText e = true)
    by (vm_compute; reflexivity).
  assert (Hauto : hasAttribute DATA_ATTRS.autoDisable e = true)
    by (vm_compute; reflexivity).
  assert (Htog : hasAttribute DATA_ATTRS.toggle e = false)
    by (vm_compute; reflexivity).
  assert (Hexp : classList_contains "btn-expand" e = false)
    by (vm_compute; reflexivity).
  assert (Hl : classList_contains "btn--loading" e = false)
    by (vm_compute; reflexivity).
  assert (Hdrop : closest (dom submit_page) SELECTORS.dropdown 1 = None)
    by (vm_compute; reflexivity).
  assert (Hopen : openDropdowns submit_page = []) by (vm_compute; reflexivity).
  assert (Hlive : liveRegion submit_page ≠ Some 1%nat) by (vm_compute; congruence).
  assert (Hc : isConnected (dom submit_page) 1 = true) by (vm_compute; reflexivity).
  destruct (loading_auto_disable_button_sticks submit_page 1 e He Hm Hdis Haria
              Hload Hauto Htog Hexp Hl Hdrop Hopen Hlive Hc) as [_ H].
  destruct (H 3%positive 3000) as ((e2 & H1 & H2 & H3 & _) & _).
  exists e2. split; [exact H1|]. split; [exact H2|exact H3].
Defined.

(** ** Expand buttons *)

Lemma document_querySelectorAll_alter (f : element -> element) i d sel :
  (∀ x, parentNode (f x) = parentNode x ∧ matches sel (f x) = matches sel x) ->
  document_querySelectorAll (alter f i d) sel = document_querySelectorAll d sel.
Proof.
  intros Hf. unfold document_querySelectorAll. rewrite length_alter.
  apply list_filter_iff. intros j.
  rewrite isConnected_alter by (intros x; apply Hf).
  unfold matches_at. rewrite alter_lookup_bool.
  destruct (d !! j) as [x|]; [|done]. cbn.
  destruct (bool_decide (i = j)); [|done]. by rewrite (proj2 (Hf x)).
Qed.

Lemma getElementById_alter (f : element -> element) o d id :
  (∀ x, parentNode (f x) = parentNode x
        ∧ getAttribute "id" (f x) = getAttribute "id" x) ->
  getElementById (alter_opt f o d) id = getElementById d id.
Proof.
  intros Hf. destruct o as [i|]; [|done]. unfold getElementById. cbn [alter_opt].
  rewrite document_querySelectorAll_alter; [done|].
  intros x. destruct (Hf x) as [Hp Hi]. split; [done|].
  cbn. unfold attr_is. by rewrite Hi.
Qed.

Lemma getElementById_is_Some d id t :
  getElementById d id = Some t -> is_Some (d !! t).
Proof.
  intros H. apply head_Some_elem_of in H.
  unfold document_querySelectorAll in H.
  apply list_elem_of_filter in H as [_ H]. apply elem_of_seq in H.
  apply lookup_lt_is_Some. lia.
Qed.

Lemma attr_is_String_of_bool k x e :
  attr_is k "true" (setAttribute k (String_of_bool x) e) = x.
Proof.
  unfold attr_is, getAttribute. cbn. rewrite lookup_insert_eq.
  by destruct x.
Qed.

(** [_handleExpand] written out on a button that is in the store. *)
Lemma _handleExpand_unfold w b e :
  dom w !! b = Some e ->
  _handleExpand b w
  = _dispatchEvent b "expand" (DetailExpand (negb (attr_is ARIA.expanded "true" e)))
      (with_dom
         (fun l =>
            alter_opt (set_hidden (attr_is ARIA.expanded "true" e))
              (expand_target (dom w) e)
              (alter (setAttribute ARIA.expanded
                        (String_of_bool (negb (attr_is ARIA.expanded "true" e))))
                     b l))
         w).
Proof.
  intros He. unfold _handleExpand, expand_target. rewrite He. cbv zeta.
  rewrite negb_involutive.
  destruct (getAttribute ARIA.controls e) as [[|c s]|]; [done| |done].
  by destruct (getElementById (dom w) (String c s)).
Qed.

(** A click on an expand button flips [aria-expanded] between "true" and
    "false" (anything but "true" counts as collapsed), shows the
    controlled element when the button becomes expanded and hides it
    otherwise, and dispatches one [expand] event carrying the new state.
    A second click takes the button and the controlled element to the
    opposite state again, and no other node is touched. *)
Theorem expand_click_flips (w : world) (b : nat) (e : element) :
  dom w !! b = Some e ->
  let isExpanded := attr_is ARIA.expanded "true" e in
  let w1 := _handleExpand b w in
  let w2 := _handleExpand b w1 in
  expanded_of w1 b = Some (String_of_bool (negb isExpanded))
  ∧ expanded_of w2 b = Some (String_of_bool isExpanded)
  ∧ dispatched w2
    = dispatched w ++ [mkEvent b "expand" (DetailExpand (negb isExpanded));
                       mkEvent b "expand" (DetailExpand isExpanded)]
  ∧ (∀ t, expand_target (dom w) e = Some t ->
          hidden <$> dom w1 !! t = Some isExpanded
          ∧ hidden <$> dom w2 !! t = Some (negb isExpanded))
  ∧ (∀ j, j ≠ b -> expand_target (dom w) e ≠ Some j -> dom w2 !! j = dom w !! j).
Proof.
  intros He isExpanded w1 w2.
  pose proof (_handleExpand_unfold w b e He) as Hw1. fold isExpanded w1 in Hw1.
  set (tg := expand_target (dom w) e) in *.
  set (e1 := (if bool_decide (tg = Some b) then set_hidden isExpanded else id)
               (setAttribute ARIA.expanded (String_of_bool (negb isExpanded)) e)).
  assert (He1 : dom w1 !! b = Some e1).
  { rewrite Hw1. world_simpl. by rewrite alter_opt_lookup, list_lookup_alter_eq, He. }
  assert (Hx1 : attr_is ARIA.expanded "true" e1 = negb isExpanded).
  { subst e1. destruct (bool_decide (tg = Some b)); apply attr_is_String_of_bool. }
  assert (Ht1 : expand_target (dom w1) e1 = tg).
  { unfold expand_target.
    assert (Hc : getAttribute ARIA.controls e1 = getAttribute ARIA.controls e).
    { subst e1. unfold getAttribute.
      destruct (bool_decide (tg = Some b)); cbn; by rewrite lookup_insert_ne. }
    rewrite Hc. subst tg. unfold expand_target.
    destruct (getAttribute ARIA.controls e) as [[|c s]|]; [done| |done].
    rewrite Hw1. world_simpl. rewrite getElementById_alter by done.
    apply (getElementById_alter _ (Some b)). intros x. split; [done|].
    unfold getAttribute. cbn. by rewrite lookup_insert_ne. }
  pose proof (_handleExpand_unfold w1 b e1 He1) as Hw2. fold w2 in Hw2.
  rewrite Hx1, Ht1, negb_involutive in Hw2.
  split; [|split; [|split; [|split]]].
  - unfold expanded_of. rewrite He1. subst e1. unfold getAttribute.
    destruct (bool_decide (tg = Some b)); cbn; by rewrite lookup_insert_eq.
  - unfold expanded_of. rewrite Hw2. world_simpl.
    rewrite alter_opt_lookup, list_lookup_alter_eq, He1. unfold getAttribute.
    destruct (bool_decide (tg = Some b)); cbn; by rewrite lookup_insert_eq.
  - rewrite Hw2, Hw1. world_simpl. by rewrite <- app_assoc.
  - intros t Ht.
    assert (Hin : is_Some (dom w !! t)).
    { revert Ht. unfold tg, expand_target.
      destruct (getAttribute ARIA.controls e) as [[|c s]|]; [done| |done].
      apply getElementById_is_Some. }
    destruct Hin as [x Hx]. split.
    + rewrite Hw1. world_simpl. rewrite Ht, alter_opt_lookup, alter_lookup_bool, Hx.
      by rewrite bool_decide_eq_true_2.
    + rewrite Hw2, Hw1. world_simpl.
      rewrite Ht. repeat first [rewrite alter_opt_lookup | rewrite alter_lookup_bool].
      rewrite Hx. by rewrite bool_decide_eq_true_2.
  - intros j Hj Htj. rewrite Hw2, Hw1. world_simpl.
    repeat first [rewrite alter_opt_lookup | rewrite alter_lookup_bool].
    rewrite (bool_decide_eq_false_2 (tg = Some j)) by done.
    rewrite (bool_decide_eq_false_2 (b = j)) by done.
    by destruct (dom w !! j).
Qed.

Lemma expand_click_flips_witness :
  expanded_of (_handleExpand 1 expand_page) 1 = Some "true"
  ∧ hidden <$> dom (_handleExpand 1 expand_page) !! 2%nat = Some false.
Proof.
  assert (He : dom expand_page !! 1%nat
               = Some (node "button" (ParentElement 0)
                         [("aria-controls", "panel"); ("aria-expanded", "false")]
                         ["btn"; "btn-expand"]))
    by (vm_compute; reflexivity).
  assert (Ht : expand_target (dom expand_page)
                 (node "button" (ParentElement 0)
                       [("aria-controls", "panel"); ("aria-expanded", "false")]
                       ["btn"; "btn-expand"]) = Some 2%nat)
    by (vm_compute; reflexivity).
  destruct (expand_click_flips expand_page 1 _ He) as (H1 & _ & _ & H4 & _).
  destruct (H4 _ Ht) as [H5 _].
  split; [exact H1|exact H5].
Defined.

(** ** Clicks outside every dropdown *)

Lemma same_dropdown_frame_refl e : same_dropdown_frame e e.
Proof. done. Qed.

Lemma same_dropdown_frame_trans e1 e2 e3 :
  same_dropdown_frame e1 e2 -> same_dropdown_frame e2 e3 ->
  same_dropdown_frame e1 e3.
Proof. intros (?&?&?) (?&?&?). repeat split; congruence. Qed.

Lemma frame_setAttribute k v e e' :
  k ≠ ARIA.expanded -> same_dropdown_frame e e' ->
  same_dropdown_frame e (setAttribute k v e').
Proof.
  intros Hk H. apply (same_dropdown_frame_trans _ e'); [done|].
  repeat split. unfold getAttribute. cbn. by rewrite lookup_insert_ne.
Qed.

Lemma frame_removeAttribute k e e' :
  k ≠ ARIA.expanded -> same_dropdown_frame e e' ->
  same_dropdown_frame e (removeAttribute k e').
Proof.
  intros Hk H. apply (same_dropdown_frame_trans _ e'); [done|].
  repeat split. unfold getAttribute. cbn. by rewrite lookup_delete_ne.
Qed.

Lemma frame_classList_add c e e' :
  c ≠ "btn-dropdown" -> same_dropdown_frame e e' ->
  same_dropdown_frame e (classList_add c e').
Proof.
  intros Hc H. apply (same_dropdown_frame_trans _ e'); [done|].
  unfold classList_add. destruct (classList_contains c e'); [done|].
  repeat split. unfold classList_contains. cbn. apply bool_decide_ext.
  rewrite elem_of_app, list_elem_of_singleton. split; [|tauto].
  intros [?|?]; [done|congruence].
Qed.

Lemma frame_classList_remove c e e' :
  c ≠ "btn-dropdown" -> same_dropdown_frame e e' ->
  same_dropdown_frame e (classList_remove c e').
Proof.
  intros Hc H. apply (same_dropdown_frame_trans _ e'); [done|].
  repeat split. unfold classList_contains. cbn. apply bool_decide_ext.
  rewrite list_elem_of_filter. split; [tauto|]. intros ?. split; [congruence|done].
Qed.

Lemma frame_classList_toggle c b e e' :
  c ≠ "btn-dropdown" -> same_dropdown_frame e e' ->
  same_dropdown_frame e (classList_toggle c b e').
Proof.
  intros Hc H.
  destruct b; [by apply frame_classList_add|by apply frame_classList_remove].
Qed.

Lemma frame_set_disabled b e e' :
  same_dropdown_frame e e' -> same_dropdown_frame e (set_disabled b e').
Proof. intros H. by apply (same_dropdown_frame_trans _ e'). Qed.

Lemma frame_set_textContent t e e' :
  same_dropdown_frame e e' -> same_dropdown_frame e (set_textContent t e').
Proof. intros H. by apply (same_dropdown_frame_trans _ e'). Qed.

Ltac frame_steps :=
  repeat first
    [ apply same_dropdown_frame_refl
    | apply frame_set_disabled
    | apply frame_set_textContent
    | apply frame_setAttribute; [done|]
    | apply frame_removeAttribute; [done|]
    | apply frame_classList_toggle; [done|]
    | apply frame_classList_add; [done|]
    | apply frame_classList_remove; [done|] ].

Lemma keeps_dropdowns_refl w : keeps_dropdowns w w.
Proof.
  split; [|done]. apply Forall2_lookup. intros i.
  destruct (dom w !! i); constructor. apply same_dropdown_frame_refl.
Qed.

Lemma keeps_dropdowns_trans w1 w2 w3 :
  keeps_dropdowns w1 w2 -> keeps_dropdowns w2 w3 -> keeps_dropdowns w1 w3.
Proof.
  intros [H1 O1] [H2 O2]. split; [|congruence].
  eapply Forall2_trans_elements; [apply same_dropdown_frame_trans|exact H1|exact H2].
Qed.

Lemma keeps_dropdowns_update w0 w i f :
  keeps_dropdowns w0 w ->
  (∀ x, same_dropdown_frame x (f x)) ->
  keeps_dropdowns w0 (update_element i f w).
Proof.
  intros H Hf. apply (keeps_dropdowns_trans _ w); [exact H|].
  split; [|done]. world_simpl.
  apply alter_Forall2; [apply same_dropdown_frame_refl|exact Hf].
Qed.

Lemma keeps_dropdowns_fields w0 w w' :
  keeps_dropdowns w0 w ->
  dom w' = dom w -> openDropdowns w' = openDropdowns w ->
  keeps_dropdowns w0 w'.
Proof. intros [H O] Hd Ho. split; [by rewrite Hd|congruence]. Qed.

Lemma keeps_dropdowns_announce w0 m w :
  keeps_dropdowns w0 w -> keeps_dropdowns w0 (_announce m w).
Proof.
  intros H. unfold _announce. destruct (liveRegion w); [|done].
  apply (keeps_dropdowns_fields _ (update_element n (set_textContent "") w));
    [|done|done].
  apply keeps_dropdowns_update; [done|]. intros x. frame_steps.
Qed.

Lemma keeps_dropdowns_clearExisting w0 b w :
  keeps_dropdowns w0 w -> keeps_dropdowns w0 (clearExisting b w).
Proof.
  intros H. unfold clearExisting. destruct (buttonTimeouts w !! b); [|done].
  by apply (keeps_dropdowns_fields _ w).
Qed.

Lemma keeps_dropdowns_handleToggle b w : keeps_dropdowns w (_handleToggle b w).
Proof.
  unfold _handleToggle. destruct (dom w !! b) as [e|]; [|apply keeps_dropdowns_refl].
  assert (Hsingle : keeps_dropdowns w
            (update_element b
               (fun x => classList_toggle "btn--selected"
                           (negb (attr_is ARIA.pressed "true" e))
                           (setAttribute ARIA.pressed
                              (String_of_bool (negb (attr_is ARIA.pressed "true" e)))
                              x)) w)).
  { apply keeps_dropdowns_update; [apply keeps_dropdowns_refl|]. intros x.
    frame_steps. }
  destruct (getAttribute DATA_ATTRS.toggleGroup e) as [[|c r]|]; cbv zeta.
  - by apply (keeps_dropdowns_fields _ _ _ Hsingle).
  - destruct (negb (isValidGroupName (String c r))); [apply keeps_dropdowns_refl|].
    set (l := document_querySelectorAll _ _). clearbody l.
    assert (Hloop : ∀ w', keeps_dropdowns w w' ->
              keeps_dropdowns w
                (foldl (fun w btn =>
                          if (btn =? b)%nat then w
                          else update_element btn
                                 (fun x => classList_remove "btn--selected"
                                             (setAttribute ARIA.pressed "false" x)) w)
                       w' l)).
    { induction l as [|a l IH]; intros w' Hw'; [done|]. cbn [foldl]. apply IH.
      destruct (a =? b)%nat; [done|]. apply keeps_dropdowns_update; [done|].
      intros x. frame_steps. }
    eapply keeps_dropdowns_fields; [|reflexivity|reflexivity].
    apply keeps_dropdowns_update; [apply Hloop, keeps_dropdowns_refl|].
    intros x. frame_steps.
  - by apply (keeps_dropdowns_fields _ _ _ Hsingle).
Qed.

Lemma keeps_dropdowns_handleLoading b w : keeps_dropdowns w (_handleLoading b w).
Proof.
  unfold _handleLoading. destruct (dom w !! b) as [e|]; [|apply keeps_dropdowns_refl].
  destruct (classList_contains "btn--loading" e); [apply (keeps_dropdowns_fields _ w); [apply keeps_dropdowns_refl|done|done]|].
  cbv zeta. eapply keeps_dropdowns_fields; [|reflexivity|reflexivity].
  apply keeps_dropdowns_clearExisting, keeps_dropdowns_announce.
  apply keeps_dropdowns_update;
    [apply (keeps_dropdowns_fields _ w); [apply keeps_dropdowns_refl|done|done]|].
  intros x. frame_steps.
Qed.

Lemma keeps_dropdowns_handleAutoDisable b w :
  keeps_dropdowns w (_handleAutoDisable b w).
Proof.
  unfold _handleAutoDisable. destruct (dom w !! b) as [e|]; [|apply keeps_dropdowns_refl].
  cbv zeta. eapply keeps_dropdowns_fields; [|reflexivity|reflexivity].
  apply keeps_dropdowns_update;
    [apply keeps_dropdowns_clearExisting, keeps_dropdowns_refl|].
  intros x. frame_steps.
Qed.

Lemma closest_same_dropdown_frame d d' i :
  Forall2 same_dropdown_frame d d' ->
  closest d' SELECTORS.dropdown i = closest d SELECTORS.dropdown i.
Proof.
  intros HF. unfold closest. rewrite <- (Forall2_length _ _ _ HF).
  generalize (length d) as fuel. intros fuel. revert i.
  induction fuel as [|fuel IH]; intros i; [done|].
  cbn [closest_from]. rewrite Forall2_lookup in HF.
  destruct (HF i) as [e e' (Hp & Hc & _)|]; [|done].
  cbn [matches SELECTORS.dropdown]. rewrite Hc, Hp.
  destruct (classList_contains "btn-dropdown" e); [done|].
  destruct (parentNode e); auto.
Qed.

(** On a chain of parents that reaches the document, a search that finds
    nothing finds nothing with any fuel. *)
Lemma closest_from_None_any k d sel t :
  isConnected_from k d t = true ->
  closest_from k d sel t = None ->
  ∀ k', closest_from k' d sel t = None.
Proof.
  revert t. induction k as [|k IH]; intros t Hc Hn k'; [done|].
  cbn [isConnected_from closest_from] in Hc, Hn.
  destruct k' as [|k']; [done|]. cbn [closest_from].
  destruct (d !! t) as [e|]; [|done].
  destruct (matches sel e); [done|].
  destruct (parentNode e); [done|done|]. by apply IH.
Qed.

(** The nearest button of an attached target outside every dropdown is
    outside every dropdown. *)
Lemma closest_None_ancestor d sel sel' t b :
  isConnected d t = true ->
  closest d sel t = None ->
  closest d sel' t = Some b ->
  closest d sel b = None.
Proof.
  unfold isConnected, closest. generalize (length d) at 1 2 3 as k.
  intros k. revert t. induction k as [|k IH]; intros t Hc Hn Hb; [done|].
  cbn [closest_from] in Hb.
  pose proof Hc as Hc'. pose proof Hn as Hn'.
  cbn [isConnected_from closest_from] in Hc', Hn'.
  destruct (d !! t) as [e|]; [|done].
  destruct (matches sel' e).
  - assert (b = t) by congruence. subst b.
    by apply (closest_from_None_any (S k)).
  - destruct (matches sel e); [done|].
    destruct (parentNode e) as [| |p]; [done|done|]. by apply (IH p).
Qed.

Lemma _handleEvent_unfold target w :
  _handleEvent target w
  = let w0 := match closest (dom w) SELECTORS.dropdown target with
              | None => _closeAllDropdowns (new_event w)
              | Some _ => new_event w
              end in
    match closest (dom w0) SELECTORS.button target with
    | None => w0
    | Some button =>
        match dom w0 !! button with
        | None => w0
        | Some e =>
            if disabled e || attr_is ARIA.disabled "true" e
            then stopPropagation (preventDefault w0)
            else run_handlers button w0
        end
    end.
Proof. reflexivity. Qed.

(** The handlers of a button outside every dropdown keep the set of open
    dropdowns, and [aria-expanded] on every node but the button. *)
Lemma run_handlers_outside b w :
  closest (dom w) SELECTORS.dropdown b = None ->
  openDropdowns (run_handlers b w) = openDropdowns w
  ∧ ∀ d, d ≠ b -> expanded_of (run_handlers b w) d = expanded_of w d.
Proof.
  intros Hout. unfold run_handlers.
  set (w1 := if has_attribute_at w DATA_ATTRS.toggle b then _ else _).
  set (w2 := if has_attribute_at w1 DATA_ATTRS.loadingText b then _ else _).
  set (w3 := if has_attribute_at w2 DATA_ATTRS.autoDisable b then _ else _).
  assert (K1 : keeps_dropdowns w w1).
  { subst w1. destruct (has_attribute_at w DATA_ATTRS.toggle b);
      [apply keeps_dropdowns_handleToggle|apply keeps_dropdowns_refl]. }
  assert (K2 : keeps_dropdowns w1 w2).
  { subst w2. destruct (has_attribute_at w1 DATA_ATTRS.loadingText b);
      [apply keeps_dropdowns_handleLoading|apply keeps_dropdowns_refl]. }
  assert (K3 : keeps_dropdowns w2 w3).
  { subst w3. destruct (has_attribute_at w2 DATA_ATTRS.autoDisable b);
      [apply keeps_dropdowns_handleAutoDisable|apply keeps_dropdowns_refl]. }
  pose proof (keeps_dropdowns_trans _ _ _ K1 (keeps_dropdowns_trans _ _ _ K2 K3))
    as [HF HO].
  cbv zeta. rewrite (closest_same_dropdown_frame _ _ b HF), Hout.
  assert (H3 : ∀ d, expanded_of w3 d = expanded_of w d).
  { intros d. unfold expanded_of. rewrite Forall2_lookup in HF.
    destruct (HF d) as [x x' (_ & _ & Hx)|]; [exact Hx|done]. }
  destruct (matches_at (dom w3) (SelClass "btn-expand") b);
    [|split; [exact HO|intros d _; apply H3]].
  destruct (dom w3 !! b) as [e3|] eqn:He3.
  - rewrite (_handleExpand_unfold w3 b e3 He3). world_simpl.
    split; [exact HO|]. intros d Hd. rewrite <- H3. unfold expanded_of. world_simpl.
    rewrite alter_opt_lookup, list_lookup_alter_ne by done.
    destruct (dom w3 !! d); [|done]. cbn. by destruct (bool_decide _).
  - unfold _handleExpand. rewrite He3. split; [exact HO|intros d _; apply H3].
Qed.

(** A click on an attached target outside every dropdown leaves no
    dropdown tracked as open, whatever button it hits and whatever that
    button does; and every attached container that was tracked as open,
    other than the button hit, ends with [aria-expanded="false"]. *)
Theorem outside_click_closes_all (w : world) (target : nat) :
  isConnected (dom w) target = true ->
  closest (dom w) SELECTORS.dropdown target = None ->
  let w' := _handleEvent target w in
  openDropdowns w' = []
  ∧ ∀ d, d ∈ openDropdowns w -> isConnected (dom w) d = true ->
         closest (dom w) SELECTORS.button target ≠ Some d ->
         expanded_of w' d = Some "false".
Proof.
  intros Hc Hout w'. subst w'. rewrite _handleEvent_unfold, Hout. cbv zeta.
  set (w0 := _closeAllDropdowns (new_event w)).
  destruct (close_loop_effect (openDropdowns (new_event w)) (new_event w))
    as (_ & HF & Hin).
  assert (HO0 : openDropdowns w0 = []) by reflexivity.
  assert (Hexp0 : ∀ d, d ∈ openDropdowns w -> isConnected (dom w) d = true ->
                       expanded_of w0 d = Some "false").
  { intros d Hd Hcd. by destruct (Hin d Hd Hcd) as [H _]. }
  assert (HOut : Forall2 same_outline (dom w) (dom w0))
    by exact (Forall2_closed_outline _ _ HF).
  rewrite (closest_same_outline (dom w) (dom w0) SELECTORS.button target I HOut).
  destruct (closest (dom w) SELECTORS.button target) as [b|] eqn:Hb;
    [|split; [exact HO0|intros d Hd Hcd _; by apply Hexp0]].
  destruct (dom w0 !! b) as [e|];
    [|split; [exact HO0|intros d Hd Hcd _; by apply Hexp0]].
  destruct (disabled e || attr_is ARIA.disabled "true" e);
    [split; [exact HO0|intros d Hd Hcd _; by apply Hexp0]|].
  assert (Hout0 : closest (dom w0) SELECTORS.dropdown b = None).
  { rewrite (closest_same_outline (dom w) (dom w0) SELECTORS.dropdown b I HOut).
    by apply (closest_None_ancestor (dom w) _ SELECTORS.button target b). }
  destruct (run_handlers_outside b w0 Hout0) as [HO HE].
  split; [by rewrite HO|]. intros d Hd Hcd Hne.
  rewrite HE by congruence. by apply Hexp0.
Qed.

Lemma outside_click_closes_all_witness :
  openDropdowns (_handleEvent 2 dropdown_page) = [1%nat]
  ∧ openDropdowns (_handleEvent 0 (_handleEvent 2 dropdown_page)) = [].
Proof.
  assert (Hc : isConnected (dom (_handleEvent 2 dropdown_page)) 0 = true)
    by (vm_compute; reflexivity).
  assert (Hout : closest (dom (_handleEvent 2 dropdown_page)) SELECTORS.dropdown 0
                 = None) by (vm_compute; reflexivity).
  split; [vm_compute; reflexivity|].
  exact (proj1 (outside_click_closes_all _ 0 Hc Hout)).
Defined.
